(** * Lyrics timing alignment: a shallow embedding of [src/video_creation.py]

    The development models [parse_lyrics_timing], [wrap_text_intelligently]
    and [fix_double_utf8_encoding], and around them the metadata file and
    its cache of timestamped lyrics, [calculate_720p_dimensions], and the
    download and bookkeeping of [music_generation.py].

    - A Python [str] is a list of Unicode code points ([Z]).
    - A Python [float] is an IEEE binary64 value (Rocq's primitive floats).
    - The API response is a JSON-like dynamic value ([pyval]); operations
      that raise in Python return [Raise] in the [result] monad.
    - The standard output encodes as UTF-8 with the strict error handler
      (CPython's default): [print] raises [UnicodeEncodeError] on a string
      that holds a lone surrogate, which [json.load] builds from an escape
      such as ["\ud83d"].  A [print] is modelled where it writes data of
      the input; a [print] of a fixed text, of a number or of the text of an
      exception cannot raise and is left out. *)

From Stdlib Require Import Ascii String.
From Stdlib Require Import ZArith List Bool Lia Floats.
From Stdlib Require Import DecimalNat FinFun.
Import ListNotations.
Local Open Scope Z_scope.

(** ** Python strings *)

Module PyStr.

Definition str := list Z.

(** A string literal of the source (ASCII only). *)
Definition py (s : string) : str :=
  map (fun a => Z.of_N (N_of_ascii a)) (list_ascii_of_string s).

Fixpoint eqb (a b : str) : bool :=
  match a, b with
  | [], [] => true
  | x :: a', y :: b' => (x =? y) && eqb a' b'
  | _, _ => false
  end.

(** [str.isspace] for one character: the Unicode white space of CPython. *)
Definition isspace (c : Z) : bool :=
  ((9 <=? c) && (c <=? 13)) || ((28 <=? c) && (c <=? 32))
  || (c =? 133) || (c =? 160) || (c =? 5760)
  || ((8192 <=? c) && (c <=? 8202))
  || (c =? 8232) || (c =? 8233) || (c =? 8239) || (c =? 8287) || (c =? 12288).

Fixpoint dropwhile (p : Z -> bool) (s : str) : str :=
  match s with
  | [] => []
  | c :: s' => if p c then dropwhile p s' else s
  end.

Definition strip_with (p : Z -> bool) (s : str) : str :=
  rev (dropwhile p (rev (dropwhile p s))).

(** [s.strip()] *)
Definition strip (s : str) : str := strip_with isspace s.

(** [s.strip(chars)] *)
Definition strip_chars (chars : str) (s : str) : str :=
  strip_with (fun c => existsb (Z.eqb c) chars) s.

(** [s.split(sep)] for a one-character separator. *)
Fixpoint split_on (sep : Z) (s : str) : list str :=
  match s with
  | [] => [[]]
  | c :: s' =>
      if c =? sep then [] :: split_on sep s'
      else match split_on sep s' with
           | [] => [[c]]
           | w :: ws => (c :: w) :: ws
           end
  end.

(** [s.split()]: the maximal runs of non-space characters.  The auxiliary
    function returns the run that starts at the head of [s] (empty when [s]
    starts with white space) and the runs after it. *)
Fixpoint words_aux (s : str) : str * list str :=
  match s with
  | [] => ([], [])
  | c :: s' =>
      let '(w, ws) := words_aux s' in
      if isspace c
      then ([], match w with [] => ws | _ => w :: ws end)
      else (c :: w, ws)
  end.

Definition split (s : str) : list str :=
  let '(w, ws) := words_aux s in
  match w with [] => ws | _ => w :: ws end.

(** [sep.join(ws)] *)
Fixpoint join (sep : str) (ws : list str) : str :=
  match ws with
  | [] => []
  | [w] => w
  | w :: ws' => w ++ sep ++ join sep ws'
  end.

(** [s.startswith(p)] *)
Fixpoint startswith (s p : str) : bool :=
  match p, s with
  | [], _ => true
  | x :: p', y :: s' => (x =? y) && startswith s' p'
  | _ :: _, [] => false
  end.

(** [sub in s] *)
Fixpoint contains (sub s : str) : bool :=
  startswith s sub ||
  match s with
  | [] => false
  | _ :: s' => contains sub s'
  end.

(** [s.replace(old, new)] for a non-empty [old]: leftmost non-overlapping
    occurrences.  [skip] counts the characters of a match still to drop. *)
Fixpoint replace_aux (old new : str) (skip : nat) (s : str) : str :=
  match s with
  | [] => []
  | c :: s' =>
      match skip with
      | S k => replace_aux old new k s'
      | O =>
          if startswith s old
          then new ++ replace_aux old new (length old - 1) s'
          else c :: replace_aux old new 0 s'
      end
  end.

Definition replace (old new s : str) : str :=
  match old with
  | [] => new ++ flat_map (fun c => c :: new) s
  | _ => replace_aux old new 0 s
  end.

(** [s[:m]] and [s[m:]] for an [int] bound, negative bounds counting from
    the end. *)
Definition slice_index (s : str) (m : Z) : nat :=
  if m <? 0 then Z.to_nat (Z.max 0 (Z.of_nat (length s) + m)) else Z.to_nat m.

Definition slice_to (s : str) (m : Z) : str := firstn (slice_index s m) s.
Definition slice_from (s : str) (m : Z) : str := skipn (slice_index s m) s.

Definition is_ascii (c : Z) : bool := (0 <=? c) && (c <? 128).

Definition ascii_lower (c : Z) : Z :=
  if (65 <=? c) && (c <=? 90) then c + 32 else c.

End PyStr.

Import PyStr.

(** ** Python values, exceptions and floats *)

(** The exceptions the modelled code can meet. *)
Inductive exn :=
| AttributeError | TypeError | ValueError | OverflowError
| UnicodeEncodeError | UnicodeDecodeError.

Inductive result (A : Type) :=
| Ok (a : A)
| Raise (e : exn).
Arguments Ok {A} a.
Arguments Raise {A} e.

Definition bind {A B} (c : result A) (k : A -> result B) : result B :=
  match c with
  | Ok a => k a
  | Raise e => Raise e
  end.

Notation "x <- c ;; k" := (bind c (fun x => k))
  (at level 61, c at next level, right associativity).

(** [try: c  except Exception: return v] *)
Definition try_except {A} (c : result A) (v : A) : result A :=
  match c with
  | Ok a => Ok a
  | Raise _ => Ok v
  end.

(** A value as [json.load] builds it; a [dict] keeps its items in a list,
    looked up by key. *)
#[warnings="-register-all"]
Inductive pyval :=
| PNone
| PBool (b : bool)
| PInt (z : Z)
| PFloat (f : float)
| PStr (s : str)
| PList (l : list pyval)
| PDict (d : list (str * pyval)).

(** [bool(v)] *)
Definition truthy (v : pyval) : bool :=
  match v with
  | PNone => false
  | PBool b => b
  | PInt z => negb (z =? 0)
  | PFloat f => negb (PrimFloat.eqb f 0%float)
  | PStr s => match s with [] => false | _ => true end
  | PList l => match l with [] => false | _ => true end
  | PDict d => match d with [] => false | _ => true end
  end.

Fixpoint dict_get (d : list (str * pyval)) (k : str) : option pyval :=
  match d with
  | [] => None
  | (k', v) :: d' => if PyStr.eqb k' k then Some v else dict_get d' k
  end.

(** [v.get(k, default)] *)
Definition py_get (v : pyval) (k : string) (default : pyval) : result pyval :=
  match v with
  | PDict d => Ok (match dict_get d (py k) with Some x => x | None => default end)
  | _ => Raise AttributeError
  end.

(** [len(v)] *)
Definition py_len (v : pyval) : result nat :=
  match v with
  | PStr s => Ok (length s)
  | PList l => Ok (length l)
  | PDict d => Ok (length d)
  | _ => Raise TypeError
  end.

(** The items a [for] loop over [v] sees. *)
Definition py_iter (v : pyval) : result (list pyval) :=
  match v with
  | PList l => Ok l
  | PStr s => Ok (map (fun c => PStr [c]) s)
  | PDict d => Ok (map (fun kv => PStr (fst kv)) d)
  | _ => Raise TypeError
  end.

(** [v.strip()] and [v.split('\n')] *)
Definition py_strip (v : pyval) : result str :=
  match v with
  | PStr s => Ok (strip s)
  | _ => Raise AttributeError
  end.

Definition py_split_lines (v : pyval) : result (list str) :=
  match v with
  | PStr s => Ok (split_on 10 s)
  | _ => Raise AttributeError
  end.

(** A Unicode scalar value: a code point that is not a surrogate. *)
Definition is_scalar (c : Z) : bool :=
  (0 <=? c) && (c <=? 1114111) && negb ((55296 <=? c) && (c <=? 57343)).

(** The bytes of one code point in [s.encode('utf-8')]; a surrogate (or a
    value that is no code point) has none. *)
Definition utf8_bytes (c : Z) : option (list Z) :=
  if negb (is_scalar c) then None
  else if c <? 128 then Some [c]
  else if c <? 2048 then Some [192 + c / 64; 128 + c mod 64]
  else if c <? 65536
       then Some [224 + c / 4096; 128 + (c / 64) mod 64; 128 + c mod 64]
       else Some [240 + c / 262144; 128 + (c / 4096) mod 64;
                  128 + (c / 64) mod 64; 128 + c mod 64].

(** [text.encode('utf-8')] *)
Fixpoint encode_utf8 (text : str) : result (list Z) :=
  match text with
  | [] => Ok []
  | c :: rest =>
      match utf8_bytes c with
      | Some bs => tail <- encode_utf8 rest ;; Ok (bs ++ tail)
      | None => Raise UnicodeEncodeError
      end
  end.

(** [print(s)] for a string: the text is encoded for the standard output. *)
Definition py_print (s : str) : result unit :=
  _ <- encode_utf8 s ;; Ok tt.

(** [print(v)] and [print(f"...{v}...")]: a string is written as it is;
    the text of any other value escapes what cannot be encoded. *)
Definition print_formatted (v : pyval) : result unit :=
  match v with
  | PStr s => py_print s
  | _ => Ok tt
  end.

(** [float(z)] for an [int]: rounded to the nearest double, ties to even. *)
Definition float_of_Z (z : Z) : float :=
  SF2Prim (binary_normalize prec emax z 0 false).

(** [m < x] for an [int] and a [float]: Python compares the exact values. *)
Definition Z_ltb_float (m : Z) (x : float) : bool :=
  match Prim2SF x with
  | S754_nan => false
  | S754_infinity s => negb s
  | S754_zero _ => m <? 0
  | S754_finite s mant e =>
      let v := if s then Z.neg mant else Z.pos mant in
      if 0 <=? e then m <? v * 2 ^ e else m * 2 ^ (- e) <? v
  end.

(** The double the source writes [0.3]. *)
Definition f0_3 : float := 0x1.3333333333333p-2%float.

Definition segment := (float * float * str)%type.
Definition seg_start (s : segment) : float := fst (fst s).
Definition seg_end (s : segment) : float := snd (fst s).
Definition seg_text (s : segment) : str := snd s.

(** An entry of [clean_words]: the keys ['word'], ['start'], ['end']. *)
Record word_obj := { word : str; start : float; end_ : float }.

(** ** [parse_lyrics_timing] *)

Section Runtime.

(** What the Python runtime supplies and the repository does not: the
    Unicode lower-casing of a string that is not pure ASCII, and the
    parser behind [float(s)] for a string [s] ([None]: [ValueError]). *)
Variable unicode_lower : str -> str.
Variable float_of_str : str -> option float.

(** [s.lower()] *)
Definition lower (s : str) : str :=
  if forallb is_ascii s then map ascii_lower s else unicode_lower s.

(** [float(v)] *)
Definition py_float (v : pyval) : result float :=
  match v with
  | PFloat f => Ok f
  | PInt z =>
      let f := float_of_Z z in
      if PrimFloat.is_infinity f then Raise OverflowError else Ok f
  | PBool b => Ok (if b then 1%float else 0%float)
  | PStr s =>
      match float_of_str s with
      | Some f => Ok f
      | None => Raise ValueError
      end
  | _ => Raise TypeError
  end.

Definition structural_markers : list str :=
  map py ["intro"; "couplet"; "verse"; "chorus"; "refrain"; "bridge";
          "outro"; "pre-chorus"; "post-chorus"; "interlude"]%string.

(** Lines 206-223: the lyric lines of the no-data fallback. *)
Definition fallback_lyric_lines (original_lyrics : str) : list str :=
  let lines :=
    map strip
      (filter (fun line => match strip line with [] => false | _ => true end)
         (split_on 10 original_lyrics)) in
  flat_map
    (fun line =>
       let line_lower := strip (lower line) in
       let is_structural :=
         existsb (fun marker => startswith line_lower marker)
           structural_markers in
       if negb is_structural && (3 <? length (strip line))%nat
       then [strip line] else [])
    lines.

(** Lines 227-231: three seconds per line, from [enumerate] index [i]. *)
Fixpoint estimated_segments (i : nat) (lyrics_lines : list str)
  : list segment :=
  match lyrics_lines with
  | [] => []
  | line :: rest =>
      (float_of_Z (Z.of_nat i * 3), float_of_Z ((Z.of_nat i + 1) * 3), line)
      :: estimated_segments (S i) rest
  end.

(** Lines 256-283: one iteration of the loop over [aligned_words];
    [None] stands for [continue] or a word filtered out.  [recognized] is
    the test of line 257, [word_data.get('success', True)] as a truth
    value. *)
Definition recognized (word_data : pyval) : result bool :=
  success <- py_get word_data "success" (PBool true) ;;
  Ok (truthy success).

Definition clean_word (word_data : pyval) : result (option word_obj) :=
  ok <- recognized word_data ;;
  if negb ok then Ok None else
  w <- py_get word_data "word" (PStr []) ;;
  word_text <- py_strip w ;;
  match word_text with
  | [] => Ok None
  | _ =>
      let word_text := strip (replace [10] [32] word_text) in
      let word_lower := strip (lower word_text) in
      let is_structural :=
        existsb (fun marker =>
                   startswith word_lower marker || PyStr.eqb word_lower marker)
          structural_markers in
      if negb is_structural && (0 <? length word_text)%nat then
        start_s <- py_get word_data "startS" (PInt 0) ;;
        end_s <- py_get word_data "endS" (PInt 0) ;;
        s <- py_float start_s ;;
        e <- py_float end_s ;;
        Ok (Some {| word := word_text; start := s; end_ := e |})
      else Ok None
  end.

Fixpoint clean_words_loop (aligned_words : list pyval)
  (clean_words : list word_obj) : result (list word_obj) :=
  match aligned_words with
  | [] => Ok clean_words
  | word_data :: rest =>
      r <- clean_word word_data ;;
      clean_words_loop rest
        (match r with Some w => clean_words ++ [w] | None => clean_words end)
  end.

(** Lines 300-313: the lyric lines of the main path. *)
Definition lyric_lines (lines : list str) : list str :=
  flat_map
    (fun line =>
       let line := strip line in
       match line with
       | [] => []
       | _ =>
           let line_lower := lower line in
           let is_structural :=
             existsb (fun marker =>
                        startswith line_lower marker
                        || PyStr.eqb line_lower marker)
               structural_markers in
           if negb is_structural && (3 <? length line)%nat
           then [line] else []
       end)
    lines.

(** Line 341: the test of a cleaned word against one word of the line. *)
Definition word_matches (word_text line_word : str) : bool :=
  contains word_text line_word || contains line_word word_text
  || PyStr.eqb word_text line_word.

(** Lines 334-351: the [while] loop.  [rest] is
    [clean_words[temp_word_index:]]; the result is [line_words] and
    [temp_word_index] at the exit of the loop. *)
Fixpoint scan (line_words_text : list str) (word_index : nat)
  (rest : list word_obj) (temp_word_index matched_words : nat)
  (line_words : list word_obj) : list word_obj * nat :=
  match rest with
  | [] => (line_words, temp_word_index)
  | word_o :: rest' =>
      if (matched_words <? length line_words_text)%nat then
        let word_text := strip_chars (py ".,!?;:") (lower (word word_o)) in
        let hit :=
          existsb (word_matches word_text)
            (skipn matched_words line_words_text) in
        let line_words' := if hit then line_words ++ [word_o] else line_words in
        let matched_words' := if hit then S matched_words else matched_words in
        let temp_word_index' := S temp_word_index in
        if (length line_words_text * 3 <? temp_word_index' - word_index)%nat
        then (line_words', temp_word_index')
        else scan line_words_text word_index rest' temp_word_index'
               matched_words' line_words'
      else (line_words, temp_word_index)
  end.

(** Line 354: [len(line_words) < len(line_words_text) * 0.3] *)
Definition too_few_matches (n_line_words n_line_words_text : nat) : bool :=
  Z_ltb_float (Z.of_nat n_line_words)
    (float_of_Z (Z.of_nat n_line_words_text) * f0_3)%float.

(** Lines 356-361: the share of a line in the sequential distribution. *)
Definition words_for_line (n_clean_words n_lines line_idx : nat) : nat :=
  let words_per_line := Nat.max 1 (n_clean_words / n_lines) in
  let remaining_words := (n_clean_words mod n_lines)%nat in
  if (line_idx <? remaining_words)%nat
  then (words_per_line + 1)%nat else words_per_line.

(** Lines 327-369: the words of one line and the cursor after it. *)
Definition align_line (clean_words : list word_obj) (n_lines line_idx : nat)
  (line_text : str) (word_index : nat) : list word_obj * nat :=
  let line_words_text := split (lower line_text) in
  let '(line_words, temp_word_index) :=
    scan line_words_text word_index (skipn word_index clean_words)
      word_index 0 [] in
  if too_few_matches (length line_words) (length line_words_text) then
    let words_for_this_line :=
      words_for_line (length clean_words) n_lines line_idx in
    (firstn words_for_this_line (skipn word_index clean_words),
     (word_index + words_for_this_line)%nat)
  else (line_words, temp_word_index).

(** Lines 376-377 *)
Definition pad_end (start_time end_time : float) : float :=
  if (end_time - start_time <? 2)%float
  then (start_time + 2)%float else end_time.

(** Lines 371-395: the segment of one line. *)
Definition make_segment (segments : list segment) (line_idx : nat)
  (line_text : str) (line_words : list word_obj) : segment :=
  match line_words with
  | first :: _ =>
      let start_time := start first in
      let end_time := end_ (last line_words first) in
      (start_time, pad_end start_time end_time, line_text)
  | [] =>
      let start_time :=
        match segments with
        | [] => float_of_Z (Z.of_nat line_idx * 3)
        | s0 :: _ => seg_end (last segments s0)
        end in
      (start_time, (start_time + 3)%float, line_text)
  end.

(** Lines 325-397: the loop over [enumerate(lyrics_lines)], its prints
    aside. *)
Fixpoint align_loop (clean_words : list word_obj) (n_lines : nat)
  (lines : list str) (line_idx word_index : nat) (segments : list segment)
  : list segment :=
  match lines with
  | [] => segments
  | line_text :: lines' =>
      let '(line_words, word_index') :=
        align_line clean_words n_lines line_idx line_text word_index in
      align_loop clean_words n_lines lines' (S line_idx) word_index'
        (segments ++ [make_segment segments line_idx line_text line_words])
  end.

Definition align (clean_words : list word_obj) (lyrics_lines : list str)
  : list segment :=
  align_loop clean_words (length lyrics_lines) lyrics_lines 0 0 [].

(** Lines 381-383: the words shown for a line. *)
Definition word_preview (line_words : list word_obj) : str :=
  let preview := join (py ", ") (map word (firstn 3 line_words)) in
  if (3 <? length line_words)%nat then preview ++ py "..." else preview.

(** Lines 384-386 and 396-397: the print of a line; the one of a line
    without words shows numbers only. *)
Definition print_line (line_words : list word_obj) : result unit :=
  match line_words with
  | [] => Ok tt
  | _ => py_print (word_preview line_words)
  end.

(** Lines 325-397 with their prints: the loop of [align_loop], left by the
    exception of a print.  It returns what [align_loop] returns unless a
    print raises ([align_loop_printing_cases]). *)
Fixpoint align_loop_printing (clean_words : list word_obj) (n_lines : nat)
  (lines : list str) (line_idx word_index : nat) (segments : list segment)
  : result (list segment) :=
  match lines with
  | [] => Ok segments
  | line_text :: lines' =>
      let '(line_words, word_index') :=
        align_line clean_words n_lines line_idx line_text word_index in
      _ <- print_line line_words ;;
      align_loop_printing clean_words n_lines lines' (S line_idx) word_index'
        (segments ++ [make_segment segments line_idx line_text line_words])
  end.

Definition align_printing (clean_words : list word_obj)
  (lyrics_lines : list str) : result (list segment) :=
  align_loop_printing clean_words (length lyrics_lines) lyrics_lines 0 0 [].

Definition is_none (v : pyval) : bool :=
  match v with PNone => true | _ => false end.

Definition nonempty {A} (l : list A) : bool :=
  match l with [] => false | _ => true end.

(** Lines 198-240: the response carries no data. *)
Definition no_data_fallback (lyrics_data : pyval)
  (original_lyrics : option str) : result (list segment) :=
  error_msg <- (if truthy lyrics_data
                then py_get lyrics_data "msg" (PStr (py "Unknown error"))
                else Ok (PStr (py "No data received"))) ;;
  _ <- print_formatted error_msg ;;
  match original_lyrics with
  | Some ((_ :: _) as text) =>
      let lyrics_lines := fallback_lyric_lines text in
      if nonempty lyrics_lines then Ok (estimated_segments 0 lyrics_lines)
      else Ok []
  | _ => Ok []
  end.

(** Lines 197-401: the body of the [try]. *)
Definition parse_lyrics_timing_body (lyrics_data : pyval)
  (original_lyrics : option str) : result (list segment) :=
  no_data <- (if negb (truthy lyrics_data) then Ok true
              else d <- py_get lyrics_data "data" PNone ;; Ok (is_none d)) ;;
  if no_data : bool then no_data_fallback lyrics_data original_lyrics else
  data <- py_get lyrics_data "data" (PDict []) ;;
  aligned_words <- py_get data "alignedWords" (PList []) ;;
  if negb (truthy aligned_words) then Ok [] else
  _ <- py_len aligned_words ;;
  items <- py_iter aligned_words ;;
  clean_words <- clean_words_loop items [] ;;
  if negb (nonempty clean_words) then Ok [] else
  lyrics <- match original_lyrics with
            | Some ((_ :: _) as text) => Ok (PStr text)
            | _ => d <- py_get lyrics_data "data" (PDict []) ;;
                   py_get d "lyrics" (PStr [])
            end ;;
  if negb (truthy lyrics) then Ok [] else
  lines <- py_split_lines lyrics ;;
  let lyrics_lines := lyric_lines lines in
  if negb (nonempty lyrics_lines) then Ok [] else
  align_printing clean_words lyrics_lines.

(** Lines 196-407: [except Exception: return []]. *)
Definition parse_lyrics_timing (lyrics_data : pyval)
  (original_lyrics : option str) : result (list segment) :=
  try_except (parse_lyrics_timing_body lyrics_data original_lyrics) [].

End Runtime.

(** ** [wrap_text_intelligently] *)

(** Lines 485-490: the first index at which the accumulated length reaches
    [mid_point]; [None] when the loop ends without [break]. *)
Fixpoint find_split (mid_point : nat) (words : list str)
  (i current_length : nat) : option nat :=
  match words with
  | [] => None
  | word_ :: rest =>
      let current_length :=
        (current_length + (length word_ + (if (0 <? i)%nat then 1 else 0)))%nat in
      if (mid_point <=? current_length)%nat then Some i
      else find_split mid_point rest (S i) current_length
  end.

Definition space : str := [32].

Definition wrap_text_intelligently (text : str) (max_chars_per_line : Z)
  : list str :=
  if Z.of_nat (length text) <=? max_chars_per_line then [text] else
  let words := split text in
  if (length words <=? 1)%nat
  then [slice_to text max_chars_per_line; slice_from text max_chars_per_line]
  else
    let mid_point := (length text / 2)%nat in
    let best_split :=
      match find_split mid_point words 0 0 with
      | Some i => i
      | None => (length words / 2)%nat
      end in
    let line1 := join space (firstn best_split words) in
    let line2 := join space (skipn best_split words) in
    let best_split' :=
      if (max_chars_per_line <? Z.of_nat (length line2)) && (1 <? best_split)%nat
      then (best_split - 1)%nat else best_split in
    let line1 := join space (firstn best_split' words) in
    let line2 := join space (skipn best_split' words) in
    if nonempty line2 then [line1; line2] else [line1].

(** ** [fix_double_utf8_encoding] *)

(** [text.encode('latin-1')] *)
Fixpoint encode_latin1 (text : str) : result (list Z) :=
  match text with
  | [] => Ok []
  | c :: rest =>
      if (0 <=? c) && (c <=? 255)
      then bs <- encode_latin1 rest ;; Ok (c :: bs)
      else Raise UnicodeEncodeError
  end.

Definition cont (b : Z) : bool := (128 <=? b) && (b <=? 191).

(** The second byte of a three-byte and of a four-byte sequence: no
    overlong form, no surrogate, nothing above U+10FFFF. *)
Definition second3 (b0 b1 : Z) : bool :=
  if b0 =? 224 then (160 <=? b1) && (b1 <=? 191)
  else if b0 =? 237 then (128 <=? b1) && (b1 <=? 159)
  else cont b1.

Definition second4 (b0 b1 : Z) : bool :=
  if b0 =? 240 then (144 <=? b1) && (b1 <=? 191)
  else if b0 =? 244 then (128 <=? b1) && (b1 <=? 143)
  else cont b1.

(** [bs.decode('utf-8')], the strict decoder. *)
Fixpoint decode_utf8 (bs : list Z) : result str :=
  match bs with
  | [] => Ok []
  | b0 :: r0 =>
      if b0 <? 128 then s <- decode_utf8 r0 ;; Ok (b0 :: s)
      else if (194 <=? b0) && (b0 <=? 223) then
        match r0 with
        | b1 :: r1 =>
            if cont b1
            then s <- decode_utf8 r1 ;;
                 Ok (((b0 - 192) * 64 + (b1 - 128)) :: s)
            else Raise UnicodeDecodeError
        | _ => Raise UnicodeDecodeError
        end
      else if (224 <=? b0) && (b0 <=? 239) then
        match r0 with
        | b1 :: b2 :: r2 =>
            if second3 b0 b1 && cont b2
            then s <- decode_utf8 r2 ;;
                 Ok (((b0 - 224) * 4096 + (b1 - 128) * 64 + (b2 - 128)) :: s)
            else Raise UnicodeDecodeError
        | _ => Raise UnicodeDecodeError
        end
      else if (240 <=? b0) && (b0 <=? 244) then
        match r0 with
        | b1 :: b2 :: b3 :: r3 =>
            if second4 b0 b1 && cont b2 && cont b3
            then s <- decode_utf8 r3 ;;
                 Ok (((b0 - 240) * 262144 + (b1 - 128) * 4096
                      + (b2 - 128) * 64 + (b3 - 128)) :: s)
            else Raise UnicodeDecodeError
        | _ => Raise UnicodeDecodeError
        end
      else Raise UnicodeDecodeError
  end.

(** Lines 1089-1095: the table, in the order of the [dict].  Every key is
    U+00C3 followed by one character and every value is one character;
    [fixes_chars] lists that second character with the value. *)
Definition fixes_chars : list (Z * Z) :=
  [(161, 225); (169, 233); (173, 237); (179, 243); (186, 250);
   (32, 224); (168, 232); (172, 236); (178, 242); (185, 249);
   (162, 226); (170, 234); (174, 238); (180, 244); (187, 251);
   (163, 227); (177, 241); (167, 231); (164, 228); (182, 246);
   (188, 252); (191, 255); (8230, 197); (8224, 198); (732, 216)].

Definition fixes : list (str * str) :=
  map (fun p => ([195; fst p], [snd p])) fixes_chars.

(** Lines 1097-1100 *)
Definition apply_fixes (text : str) : str :=
  fold_left (fun result_ p => replace (fst p) (snd p) result_) fixes text.

(** [except (UnicodeEncodeError, UnicodeDecodeError): handler] *)
Definition except_unicode {A} (c : result A) (handler : result A)
  : result A :=
  match c with
  | Raise UnicodeEncodeError => handler
  | Raise UnicodeDecodeError => handler
  | r => r
  end.

(** Line 1084: [text.encode('latin-1').decode('utf-8')] *)
Definition reinterpret (text : str) : result str :=
  bs <- encode_latin1 text ;; decode_utf8 bs.

Definition fix_double_utf8_encoding (text : str) : result str :=
  match text with
  | [] => Ok text
  | _ =>
      except_unicode
        (reinterpret text)
        (try_except (Ok (apply_fixes text)) text)
  end.

(** [fix_double_utf8_encoding] on any value, as its callers pass what the
    metadata file holds: line 1078 returns a falsy value as it is, and
    line 1084 finds [.encode] on a string only; its [AttributeError] is not
    among the exceptions of line 1086. *)
Definition fix_double_utf8_encoding_value (text : pyval) : result pyval :=
  if negb (truthy text) then Ok text
  else
    match text with
    | PStr s => fixed <- fix_double_utf8_encoding s ;; Ok (PStr fixed)
    | _ => Raise AttributeError
    end.

(** ** Token positions

    The source keeps the words of a line, not their positions.  The
    definitions below run the same loops and record the positions in
    [clean_words] instead; [scan_positions_words] and
    [align_line_positions_words] relate the two. *)

Section Positions.

Variable unicode_lower : str -> str.

Fixpoint scan_positions (line_words_text : list str) (word_index : nat)
  (rest : list word_obj) (temp_word_index matched_words : nat)
  (positions : list nat) : list nat * nat :=
  match rest with
  | [] => (positions, temp_word_index)
  | word_o :: rest' =>
      if (matched_words <? length line_words_text)%nat then
        let word_text :=
          strip_chars (py ".,!?;:") (lower unicode_lower (word word_o)) in
        let hit :=
          existsb (word_matches word_text)
            (skipn matched_words line_words_text) in
        let positions' :=
          if hit then positions ++ [temp_word_index] else positions in
        let matched_words' := if hit then S matched_words else matched_words in
        let temp_word_index' := S temp_word_index in
        if (length line_words_text * 3 <? temp_word_index' - word_index)%nat
        then (positions', temp_word_index')
        else scan_positions line_words_text word_index rest' temp_word_index'
               matched_words' positions'
      else (positions, temp_word_index)
  end.

Definition align_line_positions (clean_words : list word_obj)
  (n_lines line_idx : nat) (line_text : str) (word_index : nat)
  : list nat * nat :=
  let line_words_text := split (lower unicode_lower line_text) in
  let '(positions, temp_word_index) :=
    scan_positions line_words_text word_index (skipn word_index clean_words)
      word_index 0 [] in
  if too_few_matches (length positions) (length line_words_text) then
    let words_for_this_line :=
      words_for_line (length clean_words) n_lines line_idx in
    (seq word_index
       (Nat.min words_for_this_line (length clean_words - word_index)),
     (word_index + words_for_this_line)%nat)
  else (positions, temp_word_index).

(** What one line was given: the cursor before it, the positions of its
    words, the cursor after it. *)
Record assignment :=
  { cursor_before : nat; assigned : list nat; cursor_after : nat }.

Fixpoint assignments (clean_words : list word_obj) (n_lines : nat)
  (lines : list str) (line_idx word_index : nat) : list assignment :=
  match lines with
  | [] => []
  | line_text :: lines' =>
      let '(positions, word_index') :=
        align_line_positions clean_words n_lines line_idx line_text
          word_index in
      {| cursor_before := word_index; assigned := positions;
         cursor_after := word_index' |}
      :: assignments clean_words n_lines lines' (S line_idx) word_index'
  end.

(** The words at a list of positions. *)
Definition words_at (clean_words : list word_obj) (positions : list nat)
  : list word_obj :=
  flat_map (fun i => match nth_error clean_words i with
                     | Some w => [w]
                     | None => []
                     end) positions.

(** The segments built from the assignments of the lines. *)
Fixpoint segments_of (clean_words : list word_obj) (lines : list str)
  (trace : list assignment) (line_idx : nat) (segments : list segment)
  : list segment :=
  match lines, trace with
  | line_text :: lines', a :: trace' =>
      segments_of clean_words lines' trace' (S line_idx)
        (segments ++ [make_segment segments line_idx line_text
                        (words_at clean_words (assigned a))])
  | _, _ => segments
  end.

End Positions.

(** ** The fallback share as the specification words it

    Step 5 of the specification: the unconsumed tokens split evenly over the
    unprocessed lines, the current line being the earliest of them. *)
Definition spec_fallback_share (n_clean_words word_index n_lines line_idx : nat)
  : nat :=
  let remaining_tokens := (n_clean_words - word_index)%nat in
  let remaining_lines := (n_lines - line_idx)%nat in
  (remaining_tokens / remaining_lines
   + (if (0 <? remaining_tokens mod remaining_lines)%nat then 1 else 0))%nat.

(** ** Inputs of the scenarios *)

(** The scenarios are pure ASCII and carry their times as numbers, so the
    two runtime functions are never consulted; these stand in for them. *)
Definition ascii_only_lower : str -> str := fun s => s.
Definition no_numeric_strings : str -> option float := fun _ => None.

Definition aligned_word (w : string) (start_s end_s : pyval) : pyval :=
  PDict [(py "word", PStr (py w)); (py "startS", start_s);
         (py "endS", end_s); (py "success", PBool true)].

Definition response (aligned_words : list pyval) : pyval :=
  PDict [(py "data", PDict [(py "alignedWords", PList aligned_words)])].

Definition lines_text (lines : list string) : str :=
  join [10] (map py lines).

Definition scenario_A_response : pyval :=
  response [aligned_word "Hello" (PInt 0) (PFloat 0.5);
            aligned_word "world" (PFloat 0.5) (PFloat 1);
            aligned_word "Goodbye" (PFloat 1) (PFloat 0x1.999999999999ap+0);
            aligned_word "now" (PFloat 0x1.999999999999ap+0) (PFloat 2)].

Definition scenario_A_lyrics : str :=
  lines_text ["Hello world"; "Goodbye now"]%string.

Definition mk_word (w : string) (s e : float) : word_obj :=
  {| word := py w; start := s; end_ := e |}.

(** ** Predicates of the statements *)

(** The lyric text of the main path (lines 292-293): the argument when it
    is a non-empty string, and only otherwise [data.lyrics] of the
    response. *)
Definition lyrics_used (lyrics_data : pyval) (original_lyrics : option str)
  (text : str) : Prop :=
  match original_lyrics with
  | Some (c :: rest) => text = c :: rest
  | _ =>
      exists items data,
        lyrics_data = PDict items /\
        dict_get items (py "data") = Some (PDict data) /\
        dict_get data (py "lyrics") = Some (PStr text)
  end.

(** The response has no data: it is empty or [None], or a [dict] whose
    ['data'] is absent or [None]. *)
Definition no_data (lyrics_data : pyval) : Prop :=
  truthy lyrics_data = false \/
  exists items,
    lyrics_data = PDict items /\
    (dict_get items (py "data") = None \/
     dict_get items (py "data") = Some PNone).

(** The three ways [parse_lyrics_timing] ends. *)
Inductive outcome (unicode_lower : str -> str) (lyrics_data : pyval)
  (original_lyrics : option str) : list segment -> Prop :=
| outcome_empty : outcome unicode_lower lyrics_data original_lyrics []
| outcome_estimated text :
    no_data lyrics_data ->
    original_lyrics = Some text ->
    outcome unicode_lower lyrics_data original_lyrics
      (estimated_segments 0 (fallback_lyric_lines unicode_lower text))
| outcome_aligned clean_words text :
    lyrics_used lyrics_data original_lyrics text ->
    clean_words <> [] ->
    lyric_lines unicode_lower (split_on 10 text) <> [] ->
    ~ no_data lyrics_data ->
    outcome unicode_lower lyrics_data original_lyrics
      (align unicode_lower clean_words
         (lyric_lines unicode_lower (split_on 10 text))).

(** The lyric lines as the specification words them: the text split on
    line breaks, each line trimmed, and the blank lines, the lines that a
    structural marker starts and the lines of at most three characters
    dropped. *)
Definition trimmed_lines (text : str) : list str :=
  filter (fun line => nonempty line) (map strip (split_on 10 text)).

Definition starts_with_marker (s : str) : bool :=
  existsb (fun marker => startswith s marker) structural_markers.

Definition surviving_lines (is_structural : str -> bool) (text : str)
  : list str :=
  filter (fun line => negb (is_structural line) && (3 <? length line)%nat)
    (trimmed_lines text).

(** What the code establishes for the times of a segment: the test of
    line 376 fails on it, or its end is the rounded sum [start + 2.0], or
    the rounded sum [start + 3.0], or it is the slot of an index. *)
Definition duration_enforced (s : segment) : Prop :=
  (seg_end s - seg_start s <? 2)%float = false \/
  seg_end s = (seg_start s + 2)%float \/
  seg_end s = (seg_start s + 3)%float \/
  exists i : nat,
    seg_start s = float_of_Z (Z.of_nat i * 3) /\
    seg_end s = float_of_Z ((Z.of_nat i + 1) * 3).

(** [end - start >= 2.0] as Python evaluates it. *)
Definition min_duration (s : segment) : bool :=
  (2 <=? seg_end s - seg_start s)%float.

(** Ranges that follow one another: each assignment starts at the cursor
    the one before it left, does not move the cursor back, and takes its
    positions between its two cursors. *)
Definition in_range (a : assignment) : Prop :=
  (cursor_before a <= cursor_after a)%nat /\
  Forall (fun i => (cursor_before a <= i < cursor_after a)%nat) (assigned a).

Fixpoint chained (cursor : nat) (trace : list assignment) : Prop :=
  match trace with
  | [] => True
  | a :: trace' =>
      cursor_before a = cursor /\ in_range a /\
      chained (cursor_after a) trace'
  end.

(** Six words, of which the two lines below match only the first two. *)
Definition six_words : list word_obj :=
  [mk_word "aaaa" 0 1; mk_word "bbbb" 1 2; mk_word "cccc" 2 3;
   mk_word "dddd" 3 4; mk_word "eeee" 4 5; mk_word "ffff" 5 6]%float.

Definition two_lines : list str := [py "aaaa bbbb"; py "zzzz yyyy"].

(** One word against two lines that it does not match. *)
Definition one_word : list word_obj := [mk_word "aaaa" 0 1]%float.

(** Scenario B: no data, an error message, and original lyrics. *)
Definition scenario_B_response : pyval :=
  PDict [(py "data", PNone); (py "msg", PStr (py "insufficient credits"))].

Definition scenario_B_lyrics : str :=
  lines_text ["Verse"; "Hello world"; "Goodbye now"]%string.

(** A response without data whose message holds a lone surrogate, as
    [json.loads('{"data": null, "msg": "\ud83d"}')] builds it. *)
Definition unprintable_error_response : pyval :=
  PDict [(py "data", PNone); (py "msg", PStr [55357])].

(** The message of a response, if it is a string, can be printed. *)
Definition message_printable (lyrics_data : pyval) : Prop :=
  forall items s,
    lyrics_data = PDict items ->
    dict_get items (py "msg") = Some (PStr s) ->
    forallb is_scalar s = true.

(** Scenario C: data with an empty [alignedWords]. *)
Definition scenario_C_response : pyval := response [].

(** A word record without the ['success'] key. *)
Definition unmarked_word : list (str * pyval) :=
  [(py "word", PStr (py "Hello")); (py "startS", PInt 0);
   (py "endS", PFloat 0.5)].

(** The same record with ['success'] present and [None], as
    [json.loads] builds it from [null]. *)
Definition null_success_word : list (str * pyval) :=
  (py "success", PNone) :: unmarked_word.

(** No key of the table occurs in the text. *)
Definition no_bad_sequence (text : str) : bool :=
  forallb (fun p => negb (contains (fst p) text)) fixes.

(** A response whose word records hold values of the wrong types. *)
Definition malformed_response : pyval :=
  response [PDict [(py "word", PInt 5); (py "startS", PStr (py "soon"))];
            PStr (py "word"); PNone].

(** A word: a non-empty string without white space. *)
Definition is_word (w : str) : Prop :=
  w <> [] /\ forallb (fun c => negb (isspace c)) w = true.

(** ** The text a segment is drawn with

    [create_video_with_lyrics] (lines 598-607) normalizes the text of each
    segment and passes it through UTF-8 once. *)

(** Lines 606-607: the replacements of the [except] branch. *)
Definition strip_accents (text : str) : str :=
  replace [231] [99]
    (replace [224] [97] (replace [232] [101] (replace [233] [101] text))).

(** Lines 599-607: [display_text] for the text of a segment. *)
Definition display_text (text : str) : result str :=
  except_unicode
    (fixed <- fix_double_utf8_encoding text ;;
     bs <- encode_utf8 fixed ;;
     decode_utf8 bs)
    (Ok (strip_accents text)).

(** ** [calculate_720p_dimensions] *)

(** The exceptions of the arithmetic: division by zero, a float too large
    for the conversion ([OverflowError]), [int(nan)] ([ValueError]). *)
Inductive arith_error :=
| ZeroDivisionError | FloatOverflowError | NanValueError.

Inductive answer (A : Type) :=
| Returns (a : A)
| Fails (e : arith_error).
Arguments Returns {A} a.
Arguments Fails {A} e.

Definition and_then {A B} (c : answer A) (k : A -> answer B) : answer B :=
  match c with
  | Returns a => k a
  | Fails e => Fails e
  end.

(** An [int] as an exact (unrounded) binary number. *)
Definition Z_to_SF (z : Z) : spec_float :=
  match z with
  | Z0 => S754_zero false
  | Zpos p => S754_finite false p 0
  | Zneg p => S754_finite true p 0
  end.

(** [a / b] for two [int]s: the quotient rounded once to a double. *)
Definition int_truediv (a b : Z) : answer float :=
  if b =? 0 then Fails ZeroDivisionError
  else
    let q := SF2Prim (SFdiv prec emax (Z_to_SF a) (Z_to_SF b)) in
    if PrimFloat.is_infinity q then Fails FloatOverflowError else Returns q.

(** [x / y] for two [float]s. *)
Definition float_truediv (x y : float) : answer float :=
  if (y =? 0)%float then Fails ZeroDivisionError else Returns (x / y)%float.

(** [int(x)]: truncation towards zero. *)
Definition int_of_float (x : float) : answer Z :=
  match Prim2SF x with
  | S754_nan => Fails NanValueError
  | S754_infinity _ => Fails FloatOverflowError
  | S754_zero _ => Returns 0
  | S754_finite s m e =>
      let magnitude :=
        if 0 <=? e then Z.pos m * 2 ^ e else Z.pos m / 2 ^ (- e) in
      Returns (if s then - magnitude else magnitude)
  end.

(** Lines 453-454: [n if n % 2 == 0 else n - 1] *)
Definition make_even (n : Z) : Z := if n mod 2 =? 0 then n else n - 1.

Definition calculate_720p_dimensions (original_width original_height : Z)
  : answer (Z * Z) :=
  let max_height := 720 in
  let max_width := 1280 in
  if (original_height <=? max_height) && (original_width <=? max_width)
  then Returns (original_width, original_height)
  else
    and_then (int_truediv original_width original_height) (fun aspect_ratio =>
    and_then
      (if max_height <? original_height
       then and_then (int_of_float (float_of_Z max_height * aspect_ratio)%float)
              (fun new_width => Returns (new_width, max_height))
       else and_then (and_then (float_truediv (float_of_Z max_width)
                                  aspect_ratio) int_of_float)
              (fun new_height => Returns (max_width, new_height)))
      (fun size1 =>
    and_then
      (if max_width <? fst size1
       then and_then (and_then (float_truediv (float_of_Z max_width)
                                  aspect_ratio) int_of_float)
              (fun new_height => Returns (max_width, new_height))
       else Returns size1)
      (fun size2 =>
    and_then
      (if max_height <? snd size2
       then and_then (int_of_float (float_of_Z max_height * aspect_ratio)%float)
              (fun new_width => Returns (new_width, max_height))
       else Returns size2)
      (fun size3 =>
    Returns (make_even (fst size3), make_even (snd size3)))))).

(** ** The metadata file [data/savedData.json]

    The file is absent, holds text that is not JSON, or holds a JSON value.
    Failures of the file system itself are not modelled.  The functions
    below wrap their body in [try ... except Exception], so [None] stands
    for any exception raised by an operation. *)
Inductive json_file :=
| NoFile
| Garbled
| Json (v : pyval).

(** Whether [json.dump(v, f, ensure_ascii=False)] can write [v] to a file
    opened with the UTF-8 encoding: no string of [v], key or value, holds a
    lone surrogate. *)
Fixpoint utf8_writable (v : pyval) : bool :=
  match v with
  | PStr s => forallb is_scalar s
  | PList l => forallb utf8_writable l
  | PDict d =>
      forallb (fun kv => let '(k, x) := kv in
                         forallb is_scalar k && utf8_writable x) d
  | _ => true
  end.

(** [json.load] of the file when it exists. *)
Definition load_json (f : json_file) : option pyval :=
  match f with
  | Json v => Some v
  | _ => None
  end.

(** [key in v] for a string [key]. *)
Definition py_contains (v : pyval) (key : str) : option bool :=
  match v with
  | PDict d => Some (match dict_get d key with Some _ => true | None => false end)
  | PList l =>
      Some (existsb (fun x => match x with
                              | PStr s => PyStr.eqb s key
                              | _ => false
                              end) l)
  | PStr s => Some (contains key s)
  | _ => None
  end.

(** [v[key]] for a string [key]. *)
Definition py_getitem (v : pyval) (key : str) : option pyval :=
  match v with
  | PDict d => dict_get d key
  | _ => None
  end.

(** [d[key] = x] on a [dict]: the value of an existing key is replaced in
    place, a new key goes to the end. *)
Fixpoint dict_set (d : list (str * pyval)) (key : str) (x : pyval)
  : list (str * pyval) :=
  match d with
  | [] => [(key, x)]
  | (k, v) :: d' =>
      if PyStr.eqb k key then (k, x) :: d' else (k, v) :: dict_set d' key x
  end.

(** [v[key] = x] *)
Definition py_setitem (v : pyval) (key : str) (x : pyval) : option pyval :=
  match v with
  | PDict d => Some (PDict (dict_set d key x))
  | _ => None
  end.

(** Lines 76-85 of [save_timestamp_data_to_json]: the value to write. *)
Definition with_timestamp_data (f : json_file) (music_filename : str)
  (timestamp_data : pyval) : option pyval :=
  match (match f with NoFile => Some (PDict []) | _ => load_json f end) with
  | None => None
  | Some saved_data =>
      match py_contains saved_data music_filename with
      | None => None
      | Some present =>
          match (if present then Some saved_data
                 else py_setitem saved_data music_filename (PDict [])) with
          | None => None
          | Some saved_data =>
              match py_getitem saved_data music_filename with
              | None => None
              | Some entry =>
                  match py_setitem entry (py "timestamped_lyrics")
                          timestamp_data with
                  | None => None
                  | Some entry' => py_setitem saved_data music_filename entry'
                  end
              end
          end
      end
  end.

(** [save_timestamp_data_to_json]: the returned flag and the file after.
    Lines 88-89 open the file for writing, which empties it, and encode
    the text as they write it: when a string cannot be encoded the write
    raises and the file is left with the start of the text, an object that
    is not closed, which is not JSON.  Line 91 prints the file name. *)
Definition save_timestamp_data_to_json (music_filename : str)
  (timestamp_data : pyval) (f : json_file) : bool * json_file :=
  match with_timestamp_data f music_filename timestamp_data with
  | Some saved_data =>
      if utf8_writable saved_data then
        match py_print music_filename with
        | Ok _ => (true, Json saved_data)
        | Raise _ => (false, Json saved_data)
        end
      else (false, Garbled)
  | None => (false, f)
  end.

(** [get_cached_timestamp_data]; [PNone] is Python's [None].  Line 122
    prints the file name before the data is returned. *)
Definition get_cached_timestamp_data (music_filename : str) (f : json_file)
  : pyval :=
  match f with
  | NoFile => PNone
  | _ =>
      match load_json f with
      | None => PNone
      | Some saved_data =>
          match py_contains saved_data music_filename with
          | None => PNone
          | Some false => PNone
          | Some true =>
              match py_getitem saved_data music_filename with
              | None => PNone
              | Some entry =>
                  match py_get entry "timestamped_lyrics" PNone with
                  | Raise _ => PNone
                  | Ok timestamp_data =>
                      if truthy timestamp_data then
                        match py_print music_filename with
                        | Ok _ => timestamp_data
                        | Raise _ => PNone
                        end
                      else PNone
                  end
              end
          end
      end
  end.

(** Lines 157-158: the test that accepts cached data. *)
Definition cache_is_valid (cached_data : pyval) : result bool :=
  data <- py_get cached_data "data" PNone ;;
  if truthy data then
    data <- py_get cached_data "data" (PDict []) ;;
    aligned_words <- py_get data "alignedWords" PNone ;;
    Ok (truthy aligned_words)
  else Ok false.

(** [get_timestamped_lyrics_with_cache]: [fresh_data] is what
    [get_timestamped_lyrics] would return ([PNone] when the request fails);
    the result is the returned value with the file after the call.  This
    function has no [try]: an exception leaves it. *)
Definition get_timestamped_lyrics_with_cache (music_filename : str)
  (fresh_data : pyval) (f : json_file) : result (pyval * json_file) :=
  let cached_data := get_cached_timestamp_data music_filename f in
  use_cache <- (if truthy cached_data then
                  valid <- cache_is_valid cached_data ;;
                  if valid : bool then
                    _ <- py_print music_filename ;; Ok true
                  else
                    (* lines 161-167 *)
                    d <- py_get cached_data "data" PNone ;;
                    _ <- (if is_none d then py_get cached_data "msg" PNone
                          else Ok PNone) ;;
                    _ <- py_print music_filename ;;
                    Ok false
                else Ok false) ;;
  if use_cache : bool then Ok (cached_data, f)
  else
    (* line 170 *)
    _ <- py_print music_filename ;;
    if truthy fresh_data
    then Ok (fresh_data,
             snd (save_timestamp_data_to_json music_filename fresh_data f))
    else Ok (fresh_data, f).

(** The file can take the timestamp data of a song: it is absent, or it
    holds a [dict] in which the song has no entry or a [dict] entry. *)
Definition writable (music_filename : str) (f : json_file) : Prop :=
  f = NoFile \/
  exists d,
    f = Json (PDict d) /\
    (dict_get d music_filename = None \/
     exists entry, dict_get d music_filename = Some (PDict entry)).

(** What the file holds can be written again as UTF-8. *)
Definition file_encodable (f : json_file) : Prop :=
  match f with
  | Json v => utf8_writable v = true
  | _ => True
  end.

(** A response with aligned words of which one holds a lone surrogate. *)
Definition unwritable_response : pyval :=
  response [PDict [(py "word", PStr [55357]); (py "startS", PInt 0);
                   (py "endS", PInt 1)]].

(** A metadata file with two songs. *)
Definition two_songs : json_file :=
  Json (PDict [(py "Song_1", PDict [(py "API_KEY", PStr (py "k"));
                                    (py "taskId", PStr (py "t"));
                                    (py "audioId", PStr (py "a1"))]);
               (py "Song_2", PDict [(py "API_KEY", PStr (py "k"));
                                    (py "taskId", PStr (py "t"));
                                    (py "audioId", PStr (py "a2"))])]).

(** ** Saving music entries and [generateVideoFromMusic]

    [music_generation.py] lines 229-247 (and [gradio_interface.py] lines
    129-149): the entries of the generated files are merged into the
    metadata file.  An exception is caught and leaves the file as it was. *)
Definition save_music_entries (result_ : list (str * pyval)) (f : json_file)
  : json_file :=
  match (match f with NoFile => Some (PDict []) | _ => load_json f end) with
  | Some (PDict existing_data) =>
      Json (PDict (fold_left (fun d kv => dict_set d (fst kv) (snd kv))
                     result_ existing_data))
  | _ => f
  end.

(** [video_generation.py] lines 170-173: the first entry whose ['name'] is
    [musicName]; the outer [None] stands for the [AttributeError] of
    [entry.get] on an item that is not a [dict]. *)
Fixpoint find_music_entry (music_data : list pyval) (musicName : str)
  : option (option pyval) :=
  match music_data with
  | [] => Some None
  | entry :: rest =>
      match entry with
      | PDict d =>
          match dict_get d (py "name") with
          | Some (PStr s) =>
              if PyStr.eqb s musicName then Some (Some entry)
              else find_music_entry rest musicName
          | _ => find_music_entry rest musicName
          end
      | _ => None
      end
  end.

Section VideoGeneration.

(** Lines 187-235, with the [except] clauses that follow: the request to
    the API, the polling, the download and the updates of the file, for the
    entry found and the whole [music_data].  It gives the returned value
    and the file after. *)
Variable start_video_generation :
  pyval -> pyval -> pyval -> pyval -> json_file -> pyval * json_file.

(** [generateVideoFromMusic]: the returned value and the file after.  The
    prints of lines 176 and 184 stand before a [return None], and an
    exception of theirs is caught and ends in [return None] as well. *)
Definition generateVideoFromMusic (musicName : str) (f : json_file)
  : pyval * json_file :=
  match load_json f with
  | None => (PNone, f)
  | Some music_data =>
      match py_iter music_data with
      | Raise _ => (PNone, f)
      | Ok items =>
          match find_music_entry items musicName with
          | None => (PNone, f)
          | Some None => (PNone, f)
          | Some (Some music_entry) =>
              if negb (truthy music_entry) then (PNone, f)
              else
                match py_get music_entry "taskId" (PStr []),
                      py_get music_entry "audioId" (PStr []) with
                | Ok taskId, Ok audioId =>
                    if negb (truthy taskId) || negb (truthy audioId)
                    then (PNone, f)
                    else start_video_generation music_entry taskId audioId
                           music_data f
                | _, _ => (PNone, f)
                end
          end
      end
  end.

End VideoGeneration.

(** ** [downloadingMusic]

    The files of the working directory: paths with their contents.
    [os.path.exists] is the presence of the path. *)
Definition file_system := list (str * list Z).

Fixpoint fs_lookup (fs : file_system) (path : str) : option (list Z) :=
  match fs with
  | [] => None
  | (p, content) :: fs' =>
      if PyStr.eqb p path then Some content else fs_lookup fs' path
  end.

Definition path_exists (fs : file_system) (path : str) : bool :=
  match fs_lookup fs path with Some _ => true | None => false end.

(** [open(path, "wb")] and [write]: the file is created or replaced. *)
Fixpoint fs_write (fs : file_system) (path : str) (content : list Z)
  : file_system :=
  match fs with
  | [] => [(path, content)]
  | (p, c) :: fs' =>
      if PyStr.eqb p path then (p, content) :: fs'
      else (p, c) :: fs_write fs' path content
  end.

(** The decimal digits of a counter, as an f-string prints it. *)
Fixpoint digits_of_uint (u : Decimal.uint) : str :=
  match u with
  | Decimal.Nil => []
  | Decimal.D0 u' => 48 :: digits_of_uint u'
  | Decimal.D1 u' => 49 :: digits_of_uint u'
  | Decimal.D2 u' => 50 :: digits_of_uint u'
  | Decimal.D3 u' => 51 :: digits_of_uint u'
  | Decimal.D4 u' => 52 :: digits_of_uint u'
  | Decimal.D5 u' => 53 :: digits_of_uint u'
  | Decimal.D6 u' => 54 :: digits_of_uint u'
  | Decimal.D7 u' => 55 :: digits_of_uint u'
  | Decimal.D8 u' => 56 :: digits_of_uint u'
  | Decimal.D9 u' => 57 :: digits_of_uint u'
  end.

Definition str_of_nat (n : nat) : str := digits_of_uint (Nat.to_uint n).

(** [f"music/{name}_{counter}.mp3"] *)
Definition music_filename_of (name : str) (counter : nat) : str :=
  py "music/" ++ name ++ [95] ++ str_of_nat counter ++ py ".mp3".

(** Lines 135-137 and 147-149: the [while] loop, run for at most [fuel]
    iterations; the counter at which it stops. *)
Fixpoint next_free (fs : file_system) (name : str) (fuel counter : nat)
  : option nat :=
  match fuel with
  | O => None
  | S fuel' =>
      if path_exists fs (music_filename_of name counter)
      then next_free fs name fuel' (S counter)
      else Some counter
  end.

(** [v[i]] for an index [i]. *)
Definition py_index (v : pyval) (i : nat) : option pyval :=
  match v with
  | PList l => nth_error l i
  | PStr s => match nth_error s i with Some c => Some (PStr [c]) | None => None end
  | _ => None
  end.

(** [data["data"]["response"]["sunoData"][i]["sourceAudioUrl"]] *)
Definition source_audio_url (data : pyval) (i : nat) : option pyval :=
  match py_getitem data (py "data") with
  | None => None
  | Some d =>
      match py_getitem d (py "response") with
      | None => None
      | Some r =>
          match py_getitem r (py "sunoData") with
          | None => None
          | Some suno =>
              match py_index suno i with
              | None => None
              | Some item => py_getitem item (py "sourceAudioUrl")
              end
          end
      end
  end.

Section Download.

(** [requests.get(url).content]; [None] when the request raises. *)
Variable fetch : pyval -> option (list Z).

(** Whether [open(path, "wb")] succeeds (the directory of the path exists
    and may be written to). *)
Variable can_open : str -> bool.

(** [downloadingMusic]: the returned list ([None] when an exception
    leaves the function) and the files after.  Lines 123-124 print the two
    addresses before anything is fetched, and lines 141 and 156 print each
    file name after the file is written.  The loops get one iteration more
    than there are files, which [next_free_terminates] shows to be
    enough. *)
Definition downloadingMusic (data : pyval) (name : str) (fs : file_system)
  : option (list str) * file_system :=
  match source_audio_url data 0, source_audio_url data 1 with
  | Some url1, Some url2 =>
      match print_formatted url1, print_formatted url2 with
      | Ok _, Ok _ =>
          match fetch url1 with
          | None => (None, fs)
          | Some content1 =>
              match next_free fs name (S (length fs)) 1 with
              | None => (None, fs)
              | Some counter1 =>
                  let filename1 := music_filename_of name counter1 in
                  if negb (can_open filename1) then (None, fs) else
                  let fs1 := fs_write fs filename1 content1 in
                  match py_print filename1 with
                  | Raise _ => (None, fs1)
                  | Ok _ =>
                      match next_free fs1 name (S (length fs1))
                              (S counter1) with
                      | None => (None, fs1)
                      | Some counter2 =>
                          let filename2 := music_filename_of name counter2 in
                          match fetch url2 with
                          | None => (None, fs1)
                          | Some content2 =>
                              if negb (can_open filename2) then (None, fs1)
                              else
                                let fs2 := fs_write fs1 filename2 content2 in
                                match py_print filename2 with
                                | Raise _ => (None, fs2)
                                | Ok _ => (Some [filename1; filename2], fs2)
                                end
                          end
                      end
                  end
              end
          end
      | _, _ => (None, fs)
      end
  | _, _ => (None, fs)
  end.

End Download.

(** A response with two tracks, a file system where the first name is
    taken, and a server that answers every request but one. *)
Definition two_tracks : pyval :=
  PDict [(py "data",
          PDict [(py "response",
                  PDict [(py "sunoData",
                          PList [PDict [(py "sourceAudioUrl",
                                         PStr (py "u1"))];
                                 PDict [(py "sourceAudioUrl",
                                         PStr (py "u2"))]])])])].

Definition one_song_on_disk : file_system :=
  [(py "music/song_1.mp3", [7]); (py "music/song_3.mp3", [8])].

Definition fetch_all (url : pyval) : option (list Z) :=
  match url with
  | PStr s => Some s
  | _ => None
  end.

(** A response whose second address holds a lone surrogate. *)
Definition unprintable_second_track : pyval :=
  PDict [(py "data",
          PDict [(py "response",
                  PDict [(py "sunoData",
                          PList [PDict [(py "sourceAudioUrl",
                                         PStr (py "u1"))];
                                 PDict [(py "sourceAudioUrl",
                                         PStr [55357])]])])])].

(** A value that is printed as it is can be encoded. *)
Definition printable_value (v : pyval) : Prop :=
  forall s, v = PStr s -> forallb is_scalar s = true.

Definition fetch_all_but (bad : str) (url : pyval) : option (list Z) :=
  match url with
  | PStr s => if PyStr.eqb s bad then None else Some s
  | _ => None
  end.

(** ** [generateAndDownloadMusic]

    [os.path.basename] (of [posixpath]): what follows the last ['/'];
    [acc] is what follows the last one met so far. *)
Fixpoint basename_aux (acc p : str) : str :=
  match p with
  | [] => acc
  | c :: p' => if c =? 47 then basename_aux p' p' else basename_aux acc p'
  end.

Definition basename (p : str) : str := basename_aux p p.

(** Lines 217-218: the key of a downloaded file. *)
Definition music_key (filename_with_path : str) : str :=
  PyStr.replace (py ".mp3") [] (basename filename_with_path).

(** Lines 219-226: the entry of the [i]-th file; [None] when a lookup in
    the response raises. *)
Definition music_entry (paroles style api_key : str) (completed_data : pyval)
    (i : nat) (filename_with_path : str) : option pyval :=
  match py_getitem completed_data (py "data") with
  | None => None
  | Some d =>
      match py_getitem d (py "taskId") with
      | None => None
      | Some taskId =>
          match py_getitem d (py "response") with
          | None => None
          | Some r =>
              match py_getitem r (py "sunoData") with
              | None => None
              | Some suno =>
                  match py_index suno i with
                  | None => None
                  | Some item =>
                      match py_getitem item (py "id") with
                      | None => None
                      | Some audioId =>
                          Some (PDict [(py "paroles", PStr paroles);
                                       (py "name", PStr style);
                                       (py "taskId", taskId);
                                       (py "audioId", audioId);
                                       (py "API_KEY", PStr api_key);
                                       (py "file_path",
                                        PStr filename_with_path)])
                      end
                  end
              end
          end
      end
  end.

(** Lines 213-226: the loop over [enumerate(downloaded_filenames)], from
    index [i] on, filling [result_]. *)
Fixpoint music_entries (paroles style api_key : str) (completed_data : pyval)
    (i : nat) (downloaded_filenames : list str)
    (result_ : list (str * pyval)) : option (list (str * pyval)) :=
  match downloaded_filenames with
  | [] => Some result_
  | filename_with_path :: rest =>
      match music_entry paroles style api_key completed_data i
              filename_with_path with
      | None => None
      | Some entry =>
          music_entries paroles style api_key completed_data (S i) rest
            (dict_set result_ (music_key filename_with_path) entry)
      end
  end.

Section GenerateAndDownload.

Variable fetch : pyval -> option (list Z).
Variable can_open : str -> bool.

(** [wait_until_completion(genMusic(paroles, style, style, api_key),
    api_key)]: the completed response; [None] when the request raises or
    the polling never sees a success. *)
Variable completed_response : str -> str -> str -> option pyval.

(** [generateAndDownloadMusic]: the returned dict ([None] when the function
    does not return), the files and the metadata file after. *)
Definition generateAndDownloadMusic (paroles style api_key : str)
    (fs : file_system) (f : json_file)
  : option (list (str * pyval)) * file_system * json_file :=
  match completed_response paroles style api_key with
  | None => (None, fs, f)
  | Some completed_data =>
      match downloadingMusic fetch can_open completed_data style fs with
      | (None, fs') => (None, fs', f)
      | (Some downloaded_filenames, fs') =>
          match music_entries paroles style api_key completed_data 0
                  downloaded_filenames [] with
          | None => (None, fs', f)
          | Some result_ => (Some result_, fs', save_music_entries result_ f)
          end
      end
  end.

End GenerateAndDownload.

(** A completed response with the identifiers of its two tracks. *)
Definition completed_two_tracks : pyval :=
  PDict [(py "data",
          PDict [(py "taskId", PStr (py "t"));
                 (py "response",
                  PDict [(py "sunoData",
                          PList [PDict [(py "id", PStr (py "a1"));
                                        (py "sourceAudioUrl",
                                         PStr (py "u1"))];
                                 PDict [(py "id", PStr (py "a2"));
                                        (py "sourceAudioUrl",
                                         PStr (py "u2"))]])])])].

(** The entry of lines 219-226 with its two looked-up values. *)
Definition music_info_of (paroles style api_key : str) (taskId audioId : pyval)
    (filename_with_path : str) : pyval :=
  PDict [(py "paroles", PStr paroles);
         (py "name", PStr style);
         (py "taskId", taskId);
         (py "audioId", audioId);
         (py "API_KEY", PStr api_key);
         (py "file_path", PStr filename_with_path)].

(** ** [get_music_info_for_video_creation] and the start of
    [create_video_workflow]

    Line 777: [all(field in music_info for field in required_fields)];
    [None] when [in] raises. *)
Fixpoint all_in (fields : list str) (music_info : pyval) : option bool :=
  match fields with
  | [] => Some true
  | field :: rest =>
      match py_contains music_info field with
      | None => None
      | Some false => Some false
      | Some true => all_in rest music_info
      end
  end.

(** [get_music_info_for_video_creation]: [PNone] stands for [None], also
    when an exception is caught. *)
Definition get_music_info_for_video_creation (music_filename : str)
    (f : json_file) : pyval :=
  match f with
  | NoFile => PNone
  | _ =>
      match load_json f with
      | None => PNone
      | Some saved_data =>
          match py_contains saved_data music_filename with
          | Some true =>
              match py_getitem saved_data music_filename with
              | None => PNone
              | Some music_info =>
                  match all_in [py "API_KEY"; py "taskId"; py "audioId"]
                          music_info with
                  | Some true => music_info
                  | _ => PNone
                  end
              end
          | _ => PNone
          end
      end
  end.

(** [s.endswith(p)] *)
Definition endswith (s p : str) : bool := PyStr.startswith (rev s) (rev p).

(** [os.path.join(a, b)] of [posixpath]. *)
Definition os_path_join (a b : str) : str :=
  if PyStr.startswith b [47] then b
  else if match a with [] => true | _ => endswith a [47] end then a ++ b
  else a ++ [47] ++ b.

(** [create_video_workflow], lines 824-827. *)
Definition audio_file_path (music_filename : str) : str :=
  if negb (endswith music_filename (py ".mp3"))
  then os_path_join (py "music") (music_filename ++ py ".mp3")
  else os_path_join (py "music") music_filename.

(** [create_video_workflow], lines 817-828: the audio file the workflow
    goes on with; [None] when it gives up here. *)
Definition workflow_audio_file (music_filename : str) (f : json_file)
    (fs : file_system) : option str :=
  if negb (truthy (get_music_info_for_video_creation music_filename f))
  then None
  else if negb (path_exists fs (audio_file_path music_filename)) then None
  else Some (audio_file_path music_filename).

(** * Properties *)

(** ** The outcome of [parse_lyrics_timing] *)

Ltac done_empty := eexists; split; [reflexivity | constructor].

Lemma no_data_fallback_outcome unicode_lower lyrics_data original_lyrics :
  no_data lyrics_data ->
  exists segments,
    try_except (no_data_fallback unicode_lower lyrics_data original_lyrics) []
    = Ok segments /\
    outcome unicode_lower lyrics_data original_lyrics segments.
Proof.
  intros Hno. unfold no_data_fallback.
  destruct (if truthy lyrics_data then _ else _) as [v |];
    cbn [bind try_except]; [| done_empty].
  destruct (print_formatted v); cbn [bind try_except]; [| done_empty].
  destruct original_lyrics as [[| c text] |]; try done_empty.
  destruct (fallback_lyric_lines unicode_lower (c :: text)) eqn:Hl;
    cbn [nonempty].
  - done_empty.
  - eexists; split; [reflexivity |]. rewrite <- Hl.
    now apply outcome_estimated.
Qed.

Lemma align_loop_printing_cases unicode_lower clean_words n_lines lines :
  forall line_idx word_index segments,
    align_loop_printing unicode_lower clean_words n_lines lines line_idx
      word_index segments
    = Ok (align_loop unicode_lower clean_words n_lines lines line_idx
            word_index segments)
    \/ exists e,
         align_loop_printing unicode_lower clean_words n_lines lines line_idx
           word_index segments = Raise e.
Proof.
  induction lines as [| line_text lines IH];
    intros line_idx word_index segments;
    cbn [align_loop_printing align_loop]; [now left |].
  destruct (align_line _ _ _ _ _ _) as [line_words word_index'].
  destruct (print_line line_words); cbn [bind]; [apply IH | right; eauto].
Qed.

Lemma align_printing_cases unicode_lower clean_words lyrics_lines :
  align_printing unicode_lower clean_words lyrics_lines
  = Ok (align unicode_lower clean_words lyrics_lines)
  \/ exists e,
       align_printing unicode_lower clean_words lyrics_lines = Raise e.
Proof. apply align_loop_printing_cases. Qed.

Lemma parse_lyrics_timing_outcome unicode_lower float_of_str lyrics_data
  original_lyrics :
  exists segments,
    parse_lyrics_timing unicode_lower float_of_str lyrics_data
      original_lyrics = Ok segments /\
    outcome unicode_lower lyrics_data original_lyrics segments.
Proof.
  unfold parse_lyrics_timing, parse_lyrics_timing_body.
  destruct (truthy lyrics_data) eqn:Ht; simpl.
  2:{ apply no_data_fallback_outcome. now left. }
  destruct lyrics_data as [| | | | | | items]; simpl; try done_empty.
  destruct (dict_get items (py "data")) as [data |] eqn:Hd; simpl.
  2:{ apply no_data_fallback_outcome. right. eauto. }
  destruct data as [| | | | | | data]; simpl; try done_empty.
  { apply no_data_fallback_outcome. right. eauto. }
  set (aligned_words :=
         match dict_get data (py "alignedWords") with
         | Some x => x
         | None => PList []
         end).
  destruct (truthy aligned_words); simpl; try done_empty.
  destruct (py_len aligned_words); simpl; try done_empty.
  destruct (py_iter aligned_words) as [aligned |]; simpl; try done_empty.
  destruct (clean_words_loop unicode_lower float_of_str aligned [])
    as [clean_words |]; simpl; try done_empty.
  destruct clean_words as [| w clean_words]; simpl; try done_empty.
  assert (Hmain : forall text,
             lyrics_used (PDict items) original_lyrics text ->
             exists segments,
               try_except
                 (if negb (truthy (PStr text)) then Ok []
                  else lines <- py_split_lines (PStr text) ;;
                       (if negb (nonempty (lyric_lines unicode_lower lines))
                        then Ok []
                        else align_printing unicode_lower (w :: clean_words)
                               (lyric_lines unicode_lower lines))) []
               = Ok segments /\
               outcome unicode_lower (PDict items) original_lyrics segments).
  { intros text Hs. destruct text as [| c text]; [simpl; done_empty |].
    cbn [truthy negb py_split_lines bind].
    destruct (lyric_lines unicode_lower (split_on 10 (c :: text))) eqn:Hl;
      cbn [nonempty negb try_except]; try done_empty.
    rewrite <- Hl.
    destruct (align_printing_cases unicode_lower (w :: clean_words)
                (lyric_lines unicode_lower (split_on 10 (c :: text))))
      as [-> | [e ->]]; cbn [try_except]; [| done_empty].
    eexists; split; [reflexivity |].
    apply outcome_aligned; [assumption | discriminate | now rewrite Hl |].
    intros [Hf | (items' & Hi & [Hn | Hn])]; [congruence | |];
      injection Hi as <-; rewrite Hd in Hn; discriminate. }
  assert (Hdata : forall lyrics,
             dict_get data (py "lyrics") = lyrics ->
             (forall text, lyrics = Some (PStr text) ->
                           lyrics_used (PDict items) original_lyrics text) ->
             exists segments,
               try_except
                 (lyrics <- Ok match lyrics with
                               | Some x => x
                               | None => PStr []
                               end ;;
                  (if negb (truthy lyrics) then Ok []
                   else lines <- py_split_lines lyrics ;;
                        (if negb (nonempty (lyric_lines unicode_lower lines))
                         then Ok []
                         else align_printing unicode_lower (w :: clean_words)
                                (lyric_lines unicode_lower lines)))) []
               = Ok segments /\
               outcome unicode_lower (PDict items) original_lyrics segments).
  { clear Ht. intros [lyrics |] Hly Hu; cbn [bind]; [| simpl; done_empty].
    destruct lyrics as [| b | z | f | text | l | d];
      [ | | | | apply Hmain, Hu; reflexivity | | ];
      cbn [py_split_lines bind]; destruct (truthy _); simpl; done_empty. }
  destruct original_lyrics as [[| c text] |]; cbn [py_get].
  - apply Hdata; [reflexivity |]. intros text Hl. cbn [lyrics_used].
    exists items, data. rewrite <- Hl. auto.
  - cbn [bind]. apply Hmain. reflexivity.
  - apply Hdata; [reflexivity |]. intros text Hl. cbn [lyrics_used].
    exists items, data. rewrite <- Hl. auto.
Qed.

(** ** The segments of the aligner *)

Lemma align_loop_texts unicode_lower clean_words n_lines lines :
  forall line_idx word_index segments,
    map seg_text
      (align_loop unicode_lower clean_words n_lines lines line_idx word_index
         segments)
    = map seg_text segments ++ lines.
Proof.
  induction lines as [| line_text lines IH]; intros line_idx word_index segments;
    simpl.
  - now rewrite app_nil_r.
  - destruct (align_line _ _ _ _ _ _) as [line_words word_index'].
    rewrite IH, map_app, <- app_assoc. simpl.
    now destruct line_words.
Qed.

Lemma estimated_segments_texts lines :
  forall i, map seg_text (estimated_segments i lines) = lines.
Proof.
  induction lines as [| line lines IH]; intros i; simpl; [| rewrite IH];
    reflexivity.
Qed.

Lemma estimated_segments_nth lines :
  forall i k line,
    nth_error lines k = Some line ->
    nth_error (estimated_segments i lines) k
    = Some (float_of_Z (Z.of_nat (i + k) * 3),
            float_of_Z ((Z.of_nat (i + k) + 1) * 3), line).
Proof.
  induction lines as [| l lines IH]; intros i k line H.
  - destruct k; discriminate.
  - destruct k as [| k]; simpl in *.
    + injection H as ->. now rewrite Nat.add_0_r.
    + rewrite (IH (S i) k line H).
      now replace (S i + k)%nat with (i + S k)%nat by lia.
Qed.

Lemma estimated_segments_duration lines :
  forall i, Forall duration_enforced (estimated_segments i lines).
Proof.
  induction lines as [| line lines IH]; intros i; simpl; constructor; auto.
  right; right; right. exists i. now split.
Qed.

Lemma make_segment_duration segments line_idx line_text line_words :
  duration_enforced (make_segment segments line_idx line_text line_words).
Proof.
  unfold duration_enforced, make_segment.
  destruct line_words as [| first rest]; cbn [seg_start seg_end fst snd].
  - right; right; left. reflexivity.
  - unfold pad_end.
    destruct (end_ (last (first :: rest) first) - start first <? 2)%float
      eqn:Hlt.
    + right; left. reflexivity.
    + left. exact Hlt.
Qed.

Lemma align_loop_duration unicode_lower clean_words n_lines lines :
  forall line_idx word_index segments,
    Forall duration_enforced segments ->
    Forall duration_enforced
      (align_loop unicode_lower clean_words n_lines lines line_idx word_index
         segments).
Proof.
  induction lines as [| line_text lines IH]; intros line_idx word_index segments
    Hs; simpl; [assumption |].
  destruct (align_line _ _ _ _ _ _) as [line_words word_index'].
  apply IH, Forall_app. split; [assumption |].
  constructor; [apply make_segment_duration | constructor].
Qed.

(** ** Trimming *)

Lemma dropwhile_fixed p s :
  match s with [] => True | c :: _ => p c = false end ->
  dropwhile p s = s.
Proof. destruct s as [| c s]; [reflexivity |]. simpl. now intros ->. Qed.

Lemma dropwhile_head p s :
  match dropwhile p s with [] => True | c :: _ => p c = false end.
Proof.
  induction s as [| c s IH]; simpl; [exact I |].
  destruct (p c) eqn:Hc; [exact IH | exact Hc].
Qed.

Lemma dropwhile_suffix p s : exists pre, s = pre ++ dropwhile p s.
Proof.
  induction s as [| c s [pre IH]]; simpl.
  - now exists [].
  - destruct (p c).
    + exists (c :: pre). simpl. now f_equal.
    + now exists [].
Qed.

Lemma strip_with_idempotent p s :
  strip_with p (strip_with p s) = strip_with p s.
Proof.
  unfold strip_with.
  set (a := dropwhile p s). set (b := dropwhile p (rev a)).
  assert (Hb : dropwhile p b = b) by (apply dropwhile_fixed, dropwhile_head).
  assert (Hrb : dropwhile p (rev b) = rev b).
  { apply dropwhile_fixed.
    destruct (dropwhile_suffix p (rev a)) as [pre Hpre]. fold b in Hpre.
    apply (f_equal (@rev _)) in Hpre. rewrite rev_involutive, rev_app_distr in Hpre.
    pose proof (dropwhile_head p s) as Ha. fold a in Ha. rewrite Hpre in Ha.
    destruct (rev b); [exact I | exact Ha]. }
  now rewrite Hrb, rev_involutive, Hb.
Qed.

Lemma strip_idempotent s : strip (strip s) = strip s.
Proof. apply strip_with_idempotent. Qed.

Lemma In_dropwhile p x s : In x (dropwhile p s) -> In x s.
Proof.
  destruct (dropwhile_suffix p s) as [pre Hpre]. intros H.
  rewrite Hpre. apply in_or_app. now right.
Qed.

Lemma In_strip_with p x s : In x (strip_with p s) -> In x s.
Proof.
  unfold strip_with. intros H. apply in_rev in H.
  apply In_dropwhile in H. apply in_rev in H. now apply In_dropwhile in H.
Qed.

Lemma startswith_refl s : startswith s s = true.
Proof.
  induction s as [| c s IH]; cbn [startswith]; [reflexivity |].
  now rewrite Z.eqb_refl, IH.
Qed.

Lemma str_eqb_true a : forall b, PyStr.eqb a b = true -> a = b.
Proof.
  induction a as [| x a IH]; intros [| y b] H; cbn [PyStr.eqb] in H;
    try discriminate; [reflexivity |].
  apply andb_true_iff in H. destruct H as [Hx Hab].
  apply Z.eqb_eq in Hx. subst y. f_equal. now apply IH.
Qed.

Lemma marker_test_is_prefix_test s :
  existsb (fun marker => startswith s marker || PyStr.eqb s marker)
    structural_markers
  = starts_with_marker s.
Proof.
  unfold starts_with_marker.
  induction structural_markers as [| marker markers IH];
    cbn [existsb]; [reflexivity |].
  rewrite IH. f_equal.
  destruct (PyStr.eqb s marker) eqn:E; [| apply orb_false_r].
  apply str_eqb_true in E. subst marker. now rewrite startswith_refl.
Qed.

Lemma lyric_lines_filter unicode_lower lines :
  lyric_lines unicode_lower lines
  = filter (fun line =>
              negb (starts_with_marker (lower unicode_lower line))
              && (3 <? length line)%nat)
      (filter (fun line => nonempty line) (map strip lines)).
Proof.
  unfold lyric_lines.
  induction lines as [| line lines IH]; cbn [flat_map map filter];
    [reflexivity |].
  rewrite IH. destruct (strip line) as [| c rest] eqn:Hs;
    cbn [nonempty app]; [reflexivity |].
  cbn [filter]. rewrite marker_test_is_prefix_test.
  now destruct (negb _ && _).
Qed.

Lemma lyric_lines_surviving unicode_lower text :
  lyric_lines unicode_lower (split_on 10 text)
  = surviving_lines (fun line => starts_with_marker (lower unicode_lower line))
      text.
Proof. apply lyric_lines_filter. Qed.

Lemma fallback_lyric_lines_surviving unicode_lower text :
  fallback_lyric_lines unicode_lower text
  = surviving_lines
      (fun line => starts_with_marker (strip (lower unicode_lower line))) text.
Proof.
  unfold fallback_lyric_lines, surviving_lines, trimmed_lines.
  induction (split_on 10 text) as [| line lines IH];
    cbn [flat_map map filter]; [reflexivity |].
  destruct (strip line) as [| c rest] eqn:Hs; cbn [nonempty];
    [exact IH |].
  cbn [map flat_map filter]. rewrite IH, Hs.
  rewrite <- Hs, strip_idempotent, Hs.
  unfold starts_with_marker.
  now destruct (negb _ && _).
Qed.

(** C1: whenever [parse_lyrics_timing] returns segments, their texts are,
    in order and one for one, the surviving lyric lines of the text the
    call uses, whatever words were matched.  On a response without data
    the text is the original lyrics, and a line is structural when, in
    lower case and trimmed, a marker starts it.  Otherwise the text is the
    original lyrics when they are given and non-empty, and only otherwise
    [data.lyrics] of the response, and a line is structural when, in lower
    case, a marker starts it. *)
Theorem parse_lyrics_timing_texts_are_lyric_lines :
  forall unicode_lower float_of_str lyrics_data original_lyrics segments,
    parse_lyrics_timing unicode_lower float_of_str lyrics_data
      original_lyrics = Ok segments ->
    segments <> [] ->
    exists text lyrics_lines,
      (no_data lyrics_data /\
       original_lyrics = Some text /\
       lyrics_lines
       = surviving_lines
           (fun line => starts_with_marker (strip (lower unicode_lower line)))
           text
       \/
       ~ no_data lyrics_data /\
       lyrics_used lyrics_data original_lyrics text /\
       lyrics_lines
       = surviving_lines
           (fun line => starts_with_marker (lower unicode_lower line)) text) /\
      map seg_text segments = lyrics_lines /\
      length segments = length lyrics_lines /\
      forall i s, nth_error segments i = Some s ->
                  nth_error lyrics_lines i = Some (seg_text s).
Proof.
  intros ul fs d o segments Hp Hne.
  destruct (parse_lyrics_timing_outcome ul fs d o) as (segs & Hp' & Hout).
  rewrite Hp in Hp'. injection Hp' as <-.
  assert (Hnth : forall lines, map seg_text segments = lines ->
            length segments = length lines /\
            forall i s, nth_error segments i = Some s ->
                        nth_error lines i = Some (seg_text s)).
  { intros lines <-. split; [now rewrite length_map |].
    intros i s Hi. now rewrite nth_error_map, Hi. }
  destruct Hout as [| text Hno Ho | clean_words text Hsrc Hcw Hl Hdata].
  - contradiction.
  - exists text, (fallback_lyric_lines ul text).
    pose proof (estimated_segments_texts (fallback_lyric_lines ul text) 0) as Ht.
    split; [left; split; [exact Hno |]; split; [exact Ho |];
            apply fallback_lyric_lines_surviving |].
    split; [exact Ht |]. now apply Hnth.
  - exists text, (lyric_lines ul (split_on 10 text)).
    assert (Ht : map seg_text (align ul clean_words (lyric_lines ul (split_on 10 text)))
                 = lyric_lines ul (split_on 10 text)).
    { unfold align. now rewrite align_loop_texts. }
    split; [right; split; [exact Hdata |]; split; [exact Hsrc |];
            apply lyric_lines_surviving |].
    split; [exact Ht |]. now apply Hnth.
Qed.

Lemma parse_lyrics_timing_texts_are_lyric_lines_witness :
  exists text lyrics_lines,
    (no_data scenario_A_response /\
     Some scenario_A_lyrics = Some text /\
     lyrics_lines
     = surviving_lines
         (fun line => starts_with_marker (strip (lower ascii_only_lower line)))
         text
     \/
     ~ no_data scenario_A_response /\
     lyrics_used scenario_A_response (Some scenario_A_lyrics) text /\
     lyrics_lines
     = surviving_lines
         (fun line => starts_with_marker (lower ascii_only_lower line)) text) /\
    map seg_text
      [(0%float, 2%float, py "Hello world");
       (1%float, 3%float, py "Goodbye now")] = lyrics_lines /\
    length [(0%float, 2%float, py "Hello world");
            (1%float, 3%float, py "Goodbye now")] = length lyrics_lines /\
    forall i s,
      nth_error [(0%float, 2%float, py "Hello world");
                 (1%float, 3%float, py "Goodbye now")] i = Some s ->
      nth_error lyrics_lines i = Some (seg_text s).
Proof.
  apply (parse_lyrics_timing_texts_are_lyric_lines ascii_only_lower
           no_numeric_strings scenario_A_response (Some scenario_A_lyrics)).
  - vm_compute. reflexivity.
  - discriminate.
Defined.

(** The argument has priority: with original lyrics given, the lyrics of
    the response are not used. *)
Lemma original_lyrics_have_priority :
  parse_lyrics_timing ascii_only_lower no_numeric_strings
    (PDict [(py "data",
             PDict [(py "alignedWords",
                     PList [aligned_word "Hello" (PInt 0) (PInt 3)]);
                    (py "lyrics", PStr (py "Other words"))])])
    (Some (py "Hello world"))
  = Ok [(0%float, 3%float, py "Hello world")].
Proof. vm_compute. reflexivity. Qed.

(** ** Minimum duration *)

(** C2, as stated, fails: a word from 0.3 s to 0.5 s gives the segment
    (0.3, 2.3), whose end is the rounded sum [0.3 + 2.0]; the difference
    [2.3 - 0.3] is 1.9999999999999998, below 2.0. *)
Lemma min_duration_fails_by_rounding :
  parse_lyrics_timing ascii_only_lower no_numeric_strings
    (response [aligned_word "Hello" (PFloat 0x1.3333333333333p-2)
                 (PFloat 0.5)])
    (Some (py "Hello world"))
  = Ok [(0x1.3333333333333p-2%float, 0x1.2666666666666p+1%float,
         py "Hello world")]
  /\ min_duration (0x1.3333333333333p-2%float, 0x1.2666666666666p+1%float,
                   py "Hello world") = false
  /\ (0x1.2666666666666p+1 - 0x1.3333333333333p-2
      =? 0x1.fffffffffffffp+0)%float = true.
Proof. repeat split; vm_compute; reflexivity. Qed.

(** C2, amended: every segment [parse_lyrics_timing] emits went through
    the code's enforcement -- the test [end - start < 2.0] is false on it,
    or its end is the floating-point sum [start + 2.0] (padded), or
    [start + 3.0] (estimated line), or it is the slot
    [(float(3 i), float(3 (i + 1)))] of the no-data fallback. *)
Theorem parse_lyrics_timing_duration_enforced :
  forall unicode_lower float_of_str lyrics_data original_lyrics,
  exists segments,
    parse_lyrics_timing unicode_lower float_of_str lyrics_data
      original_lyrics = Ok segments /\
    Forall duration_enforced segments.
Proof.
  intros ul fs d o.
  destruct (parse_lyrics_timing_outcome ul fs d o) as (segments & Hp & Hout).
  exists segments. split; [assumption |].
  destruct Hout as [| text Hno Ho | clean_words text Hsrc Hcw Hl].
  - constructor.
  - apply estimated_segments_duration.
  - unfold align. apply align_loop_duration. constructor.
Qed.

(** ** Scenario A *)

(** C6, as stated, fails: the first segment does not end at 1.0. *)
Lemma scenario_A_first_segment_is_padded :
  parse_lyrics_timing ascii_only_lower no_numeric_strings scenario_A_response
    (Some scenario_A_lyrics)
  <> Ok [(0%float, 1%float, py "Hello world");
         (1%float, 3%float, py "Goodbye now")].
Proof.
  intros H.
  apply (f_equal (fun r => match r with
                           | Ok (s :: _) => (seg_end s =? 1)%float
                           | _ => false
                           end)) in H.
  vm_compute in H. discriminate.
Qed.

(** C6, amended: on the input of Scenario A the result is
    [(0, 2.0, "Hello world"), (1.0, 3.0, "Goodbye now")]: both segments
    last less than two seconds and both are padded. *)
Theorem scenario_A_segments :
  forall unicode_lower float_of_str,
    parse_lyrics_timing unicode_lower float_of_str scenario_A_response
      (Some scenario_A_lyrics)
    = Ok [(0%float, 2%float, py "Hello world");
          (1%float, 3%float, py "Goodbye now")].
Proof. intros unicode_lower float_of_str. vm_compute. reflexivity. Qed.

(** ** Token positions and the cursor *)

Lemma skipn_cons_nth {A} (l : list A) :
  forall n x rest,
    skipn n l = x :: rest ->
    nth_error l n = Some x /\ rest = skipn (S n) l /\ (n < length l)%nat.
Proof.
  induction l as [| y l IH]; intros n x rest H.
  - destruct n; discriminate.
  - destruct n as [| n]; simpl in *.
    + injection H as -> ->. repeat split. lia.
    + destruct (IH n x rest H) as (H1 & H2 & H3). repeat split; auto. lia.
Qed.

Lemma words_at_app clean_words p q :
  words_at clean_words (p ++ q)
  = words_at clean_words p ++ words_at clean_words q.
Proof. unfold words_at. apply flat_map_app. Qed.

Lemma words_at_seq clean_words :
  forall n a,
    (a + n <= length clean_words)%nat ->
    words_at clean_words (seq a n) = firstn n (skipn a clean_words).
Proof.
  induction n as [| n IH]; intros a Hle; [reflexivity |].
  destruct (skipn a clean_words) as [| x rest] eqn:Hs.
  - apply (f_equal (@length _)) in Hs. rewrite length_skipn in Hs.
    simpl in Hs. lia.
  - apply skipn_cons_nth in Hs. destruct Hs as (Hn & -> & _).
    cbn [seq words_at flat_map firstn]. rewrite Hn. simpl.
    f_equal. apply IH. lia.
Qed.

Lemma firstn_skipn_min {A} (l : list A) k a :
  firstn k (skipn a l) = firstn (Nat.min k (length l - a)) (skipn a l).
Proof.
  destruct (Nat.le_ge_cases k (length l - a)) as [H | H].
  - now rewrite Nat.min_l.
  - rewrite Nat.min_r by assumption.
    rewrite !firstn_all2; auto; rewrite length_skipn; lia.
Qed.

Section ScanPositions.

Variable unicode_lower : str -> str.
Variable clean_words : list word_obj.
Variable line_words_text : list str.
Variable word_index : nat.

Lemma scan_positions_words :
  forall rest temp matched line_words positions,
    rest = skipn temp clean_words ->
    line_words = words_at clean_words positions ->
    length line_words = length positions ->
    let r := scan unicode_lower line_words_text word_index rest temp matched
               line_words in
    let rp := scan_positions unicode_lower line_words_text word_index rest
                temp matched positions in
    fst r = words_at clean_words (fst rp) /\
    length (fst r) = length (fst rp) /\
    snd r = snd rp.
Proof.
  induction rest as [| word_o rest IH];
    intros temp matched line_words positions Hrest Hw Hlen r rp; subst r rp;
    cbn [scan scan_positions].
  - auto.
  - destruct (matched <? length line_words_text)%nat; [| cbn [fst snd]; auto].
    symmetry in Hrest. apply skipn_cons_nth in Hrest.
    destruct Hrest as (Hn & Hrest & _).
    set (hit := existsb _ _).
    assert (Hw' : (if hit then line_words ++ [word_o] else line_words)
                  = words_at clean_words
                      (if hit then positions ++ [temp] else positions)).
    { destruct hit; [| assumption].
      rewrite words_at_app, <- Hw. simpl. now rewrite Hn. }
    assert (Hlen' : length (if hit then line_words ++ [word_o] else line_words)
                    = length (if hit then positions ++ [temp] else positions)).
    { destruct hit; [| assumption]. rewrite !length_app. simpl. lia. }
    destruct (length line_words_text * 3 <? S temp - word_index)%nat.
    + cbn [fst snd]. auto.
    + apply IH; assumption.
Qed.

Lemma scan_positions_range :
  forall rest temp matched positions,
    rest = skipn temp clean_words ->
    (word_index <= temp)%nat ->
    Forall (fun i => (word_index <= i < temp)%nat) positions ->
    let rp := scan_positions unicode_lower line_words_text word_index rest
                temp matched positions in
    (temp <= snd rp)%nat /\
    Forall (fun i => (word_index <= i < snd rp)%nat) (fst rp).
Proof.
  induction rest as [| word_o rest IH];
    intros temp matched positions Hrest Hle Hpos rp; subst rp;
    cbn [scan_positions].
  - cbn [fst snd]. auto.
  - destruct (matched <? length line_words_text)%nat; [| simpl; auto].
    symmetry in Hrest. apply skipn_cons_nth in Hrest.
    destruct Hrest as (_ & Hrest & _).
    set (hit := existsb _ _).
    assert (Hpos' : Forall (fun i => (word_index <= i < S temp)%nat)
                      (if hit then positions ++ [temp] else positions)).
    { assert (H0 : Forall (fun i => (word_index <= i < S temp)%nat) positions).
      { eapply Forall_impl; [| exact Hpos]. simpl. intros; lia. }
      destruct hit; [| assumption].
      apply Forall_app. split; [assumption |]. constructor; [lia | constructor]. }
    destruct (length line_words_text * 3 <? S temp - word_index)%nat.
    + cbn [fst snd]. split; [lia | assumption].
    + destruct (IH (S temp) (if hit then S matched else matched)
                  (if hit then positions ++ [temp] else positions))
        as (H1 & H2); auto.
      split; [lia | assumption].
Qed.

End ScanPositions.

Lemma align_line_positions_words unicode_lower clean_words n_lines line_idx
  line_text word_index :
  align_line unicode_lower clean_words n_lines line_idx line_text word_index
  = (words_at clean_words
       (fst (align_line_positions unicode_lower clean_words n_lines line_idx
               line_text word_index)),
     snd (align_line_positions unicode_lower clean_words n_lines line_idx
            line_text word_index)).
Proof.
  unfold align_line, align_line_positions.
  pose proof (scan_positions_words unicode_lower clean_words
                (split (lower unicode_lower line_text)) word_index
                (skipn word_index clean_words) word_index 0 [] []
                eq_refl eq_refl eq_refl) as H.
  cbv zeta in H.
  destruct (scan _ _ _ _ _ _ _) as [line_words temp].
  destruct (scan_positions _ _ _ _ _ _ _) as [positions temp'].
  cbn [fst snd] in H. destruct H as (-> & Hlen & ->). rewrite Hlen.
  destruct (too_few_matches _ _); cbn [fst snd]; [| reflexivity].
  f_equal. rewrite firstn_skipn_min. symmetry.
  destruct (Nat.le_gt_cases word_index (length clean_words)) as [Hle | Hgt].
  - apply words_at_seq. lia.
  - replace (length clean_words - word_index)%nat with 0%nat by lia.
    now rewrite Nat.min_0_r.
Qed.

Lemma align_line_positions_range unicode_lower clean_words n_lines line_idx
  line_text word_index :
  in_range
    {| cursor_before := word_index;
       assigned := fst (align_line_positions unicode_lower clean_words n_lines
                          line_idx line_text word_index);
       cursor_after := snd (align_line_positions unicode_lower clean_words
                              n_lines line_idx line_text word_index) |}.
Proof.
  unfold in_range, align_line_positions. cbn [cursor_before cursor_after assigned].
  pose proof (scan_positions_range unicode_lower clean_words
                (split (lower unicode_lower line_text)) word_index
                (skipn word_index clean_words) word_index 0 []
                eq_refl (Nat.le_refl _) (Forall_nil _)) as H.
  cbv zeta in H.
  destruct (scan_positions _ _ _ _ _ _ _) as [positions temp].
  cbn [fst snd] in H. destruct H as (Hle & Hpos).
  destruct (too_few_matches _ _); cbn [fst snd]; [| auto].
  split; [lia |]. apply Forall_forall. intros i Hi.
  apply in_seq in Hi. lia.
Qed.

Lemma assignments_chained unicode_lower clean_words n_lines lines :
  forall line_idx word_index,
    chained word_index
      (assignments unicode_lower clean_words n_lines lines line_idx word_index).
Proof.
  induction lines as [| line_text lines IH]; intros line_idx word_index;
    cbn [assignments chained]; [exact I |].
  pose proof (align_line_positions_range unicode_lower clean_words n_lines
                line_idx line_text word_index) as Hr.
  destruct (align_line_positions _ _ _ _ _ _) as [positions word_index'].
  cbn [chained cursor_before cursor_after fst snd] in *.
  repeat split; try apply Hr. apply IH.
Qed.

Lemma assignments_length unicode_lower clean_words n_lines lines :
  forall line_idx word_index,
    length (assignments unicode_lower clean_words n_lines lines line_idx
              word_index) = length lines.
Proof.
  induction lines as [| line_text lines IH]; intros line_idx word_index;
    cbn [assignments]; [reflexivity |].
  destruct (align_line_positions _ _ _ _ _ _). simpl. now rewrite IH.
Qed.

Lemma align_loop_segments_of unicode_lower clean_words n_lines lines :
  forall line_idx word_index segments,
    align_loop unicode_lower clean_words n_lines lines line_idx word_index
      segments
    = segments_of clean_words lines
        (assignments unicode_lower clean_words n_lines lines line_idx
           word_index)
        line_idx segments.
Proof.
  induction lines as [| line_text lines IH];
    intros line_idx word_index segments;
    cbn [align_loop assignments segments_of]; [reflexivity |].
  rewrite align_line_positions_words.
  destruct (align_line_positions _ _ _ _ _ _) as [positions word_index'].
  cbn [fst snd segments_of assigned]. apply IH.
Qed.

Lemma chained_nth trace :
  forall cursor k a,
    chained cursor trace ->
    nth_error trace k = Some a ->
    (cursor <= cursor_before a)%nat /\ in_range a.
Proof.
  induction trace as [| a0 trace IH]; intros cursor k a Hc Hk.
  - destruct k; discriminate.
  - destruct Hc as (Hb & Hr & Hc). destruct k as [| k]; simpl in Hk.
    + injection Hk as <-. split; [lia | assumption].
    + destruct (IH _ _ _ Hc Hk) as (H1 & H2). split; [| assumption].
      destruct Hr as (Hle & _). lia.
Qed.

Lemma chained_next trace :
  forall cursor k a b,
    chained cursor trace ->
    nth_error trace k = Some a ->
    nth_error trace (S k) = Some b ->
    cursor_after a = cursor_before b.
Proof.
  induction trace as [| a0 trace IH]; intros cursor k a b Hc Ha Hb.
  - destruct k; discriminate.
  - destruct Hc as (_ & _ & Hc). destruct k as [| k]; simpl in Ha, Hb.
    + injection Ha as <-. destruct trace as [| b0 trace]; [discriminate |].
      injection Hb as <-. destruct Hc as (Hb0 & _). now symmetry.
    + eapply IH; eauto.
Qed.

Lemma chained_later trace :
  forall cursor j k a b,
    chained cursor trace ->
    (j < k)%nat ->
    nth_error trace j = Some a ->
    nth_error trace k = Some b ->
    (cursor_after a <= cursor_before b)%nat.
Proof.
  induction trace as [| a0 trace IH]; intros cursor j k a b Hc Hjk Ha Hb.
  - destruct j; discriminate.
  - destruct Hc as (_ & _ & Hc).
    destruct k as [| k]; [lia |]. simpl in Hb.
    destruct j as [| j]; simpl in Ha.
    + injection Ha as <-. now apply (chained_nth trace _ k b Hc Hb).
    + apply (IH (cursor_after a0) j k a b Hc); [lia | assumption | assumption].
Qed.

(** C3: for any words and lines, the ranges the aligner gives to the
    lines follow one another.  The segments are those built from the
    recorded assignments; every line's cursor does not move back and its
    words lie between its two cursors; each line starts at the cursor the
    line before it left; so no position is given to two lines. *)
Theorem aligner_never_reuses_a_token :
  forall unicode_lower clean_words lyrics_lines,
    let trace :=
      assignments unicode_lower clean_words (length lyrics_lines)
        lyrics_lines 0 0 in
    align unicode_lower clean_words lyrics_lines
    = segments_of clean_words lyrics_lines trace 0 [] /\
    length trace = length lyrics_lines /\
    (forall k a, nth_error trace k = Some a ->
       (cursor_before a <= cursor_after a)%nat /\
       Forall (fun i => (cursor_before a <= i < cursor_after a)%nat)
         (assigned a)) /\
    (forall k a b, nth_error trace k = Some a ->
       nth_error trace (S k) = Some b ->
       cursor_after a = cursor_before b) /\
    (forall j k a b i, (j < k)%nat ->
       nth_error trace j = Some a -> nth_error trace k = Some b ->
       In i (assigned a) -> ~ In i (assigned b)).
Proof.
  intros ul cw lines trace.
  pose proof (assignments_chained ul cw (length lines) lines 0 0) as Hc.
  fold trace in Hc.
  split; [apply align_loop_segments_of |].
  split; [apply assignments_length |].
  split; [intros k a Hk; apply (chained_nth trace 0 k a Hc Hk) |].
  split; [intros k a b; apply (chained_next trace 0 k a b Hc) |].
  intros j k a b i Hjk Ha Hb Hia Hib.
  pose proof (chained_later trace 0 j k a b Hc Hjk Ha Hb) as Hle.
  destruct (chained_nth trace 0 j a Hc Ha) as (_ & _ & Hra).
  destruct (chained_nth trace 0 k b Hc Hb) as (_ & _ & Hrb).
  rewrite Forall_forall in Hra, Hrb.
  specialize (Hra i Hia). specialize (Hrb i Hib). lia.
Qed.

Lemma aligner_never_reuses_a_token_witness :
  let trace := assignments ascii_only_lower six_words 2 two_lines 0 0 in
  align ascii_only_lower six_words two_lines
  = segments_of six_words two_lines trace 0 [] /\
  length trace = 2%nat /\
  (forall k a, nth_error trace k = Some a ->
     (cursor_before a <= cursor_after a)%nat /\
     Forall (fun i => (cursor_before a <= i < cursor_after a)%nat)
       (assigned a)) /\
  (forall k a b, nth_error trace k = Some a ->
     nth_error trace (S k) = Some b ->
     cursor_after a = cursor_before b) /\
  (forall j k a b i, (j < k)%nat ->
     nth_error trace j = Some a -> nth_error trace k = Some b ->
     In i (assigned a) -> ~ In i (assigned b)).
Proof.
  exact (aligner_never_reuses_a_token ascii_only_lower six_words two_lines).
Defined.

(** ** The sequential distribution *)

(** C5, as stated, fails.  With six words and two lines, the second line
    matches nothing from cursor 2; it is given three words (six words over
    two lines), not the four that remain for the one remaining line.  With
    one word and two lines, the first line is given the only word while the
    cursor advances by two. *)
Lemma fallback_share_is_not_of_the_remainder :
  assignments ascii_only_lower six_words 2 two_lines 0 0
  = [ {| cursor_before := 0; assigned := [0; 1]; cursor_after := 2 |};
      {| cursor_before := 2; assigned := [2; 3; 4]; cursor_after := 5 |} ]%nat
  /\ too_few_matches
       (length (fst (scan ascii_only_lower (split (py "zzzz yyyy")) 2
                       (skipn 2 six_words) 2 0 [])))
       (length (split (py "zzzz yyyy"))) = true
  /\ align_line ascii_only_lower six_words 2 1 (py "zzzz yyyy") 2
     = (firstn 3 (skipn 2 six_words), 5%nat)
  /\ spec_fallback_share 6 2 2 1 = 4%nat
  /\ align_line ascii_only_lower one_word 2 0 (py "zzzz yyyy") 0
     = (one_word, 2%nat).
Proof. repeat split; vm_compute; reflexivity. Qed.

(** C5, amended: a line that fails the acceptance test is given the next
    [k] words from the cursor, as many as remain when fewer than [k] do,
    where [k] is [max(1, len(clean_words) // len(lyrics_lines))], one more
    when the line's index is below [len(clean_words) % len(lyrics_lines)];
    the cursor advances by [k]. *)
Theorem fallback_share_of_a_line :
  forall unicode_lower clean_words n_lines line_idx line_text word_index,
    too_few_matches
      (length (fst (scan unicode_lower
                      (split (lower unicode_lower line_text)) word_index
                      (skipn word_index clean_words) word_index 0 [])))
      (length (split (lower unicode_lower line_text))) = true ->
    let k := (Nat.max 1 (length clean_words / n_lines)
              + (if (line_idx <? length clean_words mod n_lines)%nat
                 then 1 else 0))%nat in
    align_line unicode_lower clean_words n_lines line_idx line_text word_index
    = (firstn k (skipn word_index clean_words), (word_index + k)%nat)
    /\ length (firstn k (skipn word_index clean_words))
       = Nat.min k (length clean_words - word_index)
    /\ (1 <= k)%nat.
Proof.
  intros ul cw n_lines line_idx line_text word_index Hfew k.
  assert (Hk : words_for_line (length cw) n_lines line_idx = k).
  { unfold words_for_line, k.
    destruct (line_idx <? length cw mod n_lines)%nat; lia. }
  split; [| split].
  - unfold align_line.
    destruct (scan _ _ _ _ _ _ _) as [line_words temp].
    cbn [fst] in Hfew. rewrite Hfew, Hk. reflexivity.
  - now rewrite length_firstn, length_skipn.
  - unfold k. lia.
Qed.

Lemma fallback_share_of_a_line_witness :
  align_line ascii_only_lower six_words 2 1 (py "zzzz yyyy") 2
  = (firstn 3 (skipn 2 six_words), (2 + 3)%nat)
  /\ length (firstn 3 (skipn 2 six_words)) = Nat.min 3 (length six_words - 2)
  /\ (1 <= 3)%nat.
Proof.
  apply (fallback_share_of_a_line ascii_only_lower six_words 2 1
           (py "zzzz yyyy") 2).
  vm_compute. reflexivity.
Defined.

(** ** The two top-level cases *)

Lemma encode_utf8_scalars s :
  forallb is_scalar s = true -> exists bs, encode_utf8 s = Ok bs.
Proof.
  induction s as [| c s IH]; cbn [forallb encode_utf8]; intros H; [eauto |].
  apply andb_true_iff in H. destruct H as [Hc Hs].
  destruct (IH Hs) as [bs ->]. unfold utf8_bytes. rewrite Hc. cbn [negb].
  destruct (c <? 128); [cbn [bind]; eauto |].
  destruct (c <? 2048); [cbn [bind]; eauto |].
  destruct (c <? 65536); cbn [bind]; eauto.
Qed.

Lemma py_print_scalars s : forallb is_scalar s = true -> py_print s = Ok tt.
Proof.
  intros H. unfold py_print.
  destruct (encode_utf8_scalars s H) as [bs ->]. reflexivity.
Qed.

Lemma parse_lyrics_timing_no_data_route unicode_lower float_of_str lyrics_data
  original_lyrics :
  no_data lyrics_data ->
  parse_lyrics_timing unicode_lower float_of_str lyrics_data original_lyrics
  = try_except (no_data_fallback unicode_lower lyrics_data original_lyrics) [].
Proof.
  intros Hno. unfold parse_lyrics_timing, parse_lyrics_timing_body.
  destruct Hno as [Hf | (items & -> & Hd)].
  - now rewrite Hf.
  - destruct (truthy (PDict items)); cbn [negb bind]; [| reflexivity].
    cbn [py_get]. now destruct Hd as [-> | ->].
Qed.

Lemma no_data_fallback_printable unicode_lower lyrics_data c text :
  no_data lyrics_data ->
  message_printable lyrics_data ->
  no_data_fallback unicode_lower lyrics_data (Some (c :: text))
  = Ok (estimated_segments 0
          (fallback_lyric_lines unicode_lower (c :: text))).
Proof.
  intros Hno Hmsg. unfold no_data_fallback.
  assert (Hprint : exists v,
             (if truthy lyrics_data
              then py_get lyrics_data "msg" (PStr (py "Unknown error"))
              else Ok (PStr (py "No data received"))) = Ok v /\
             print_formatted v = Ok tt).
  { destruct (truthy lyrics_data) eqn:Ht.
    - destruct Hno as [Hf | (items & -> & _)]; [congruence |].
      cbn [py_get]. eexists. split; [reflexivity |].
      destruct (dict_get items (py "msg")) as [v |] eqn:Hv;
        [| reflexivity].
      destruct v; try reflexivity.
      cbn [print_formatted]. apply py_print_scalars.
      now apply (Hmsg items).
    - eexists. split; reflexivity. }
  destruct Hprint as (v & -> & Hp). cbn [bind]. rewrite Hp. cbn [bind].
  now destruct (fallback_lyric_lines unicode_lower (c :: text)).
Qed.

(** C4, at the failing input: a response without data whose message holds
    a lone surrogate, with original lyrics.  The print of line 201 raises
    inside the [try] and the call returns no segment, where the claim
    promises the slot of the line; with a message that can be printed the
    same call returns it. *)
Theorem unprintable_message_loses_the_fallback :
  forall unicode_lower float_of_str,
    no_data unprintable_error_response /\
    parse_lyrics_timing unicode_lower float_of_str
      unprintable_error_response (Some (py "Hello world"))
    = Ok [] /\
    parse_lyrics_timing unicode_lower float_of_str
      (PDict [(py "data", PNone); (py "msg", PStr (py "no credits"))])
      (Some (py "Hello world"))
    = Ok [(0%float, 3%float, py "Hello world")].
Proof.
  intros unicode_lower float_of_str. split; [| split].
  - right. eexists. split; [reflexivity |]. right. reflexivity.
  - vm_compute. reflexivity.
  - vm_compute. reflexivity.
Qed.

(** ** The [success] field *)

Lemma recognized_false_discards unicode_lower float_of_str word_data :
  recognized word_data = Ok false ->
  clean_word unicode_lower float_of_str word_data = Ok None.
Proof. intros H. unfold clean_word. now rewrite H. Qed.

Lemma clean_words_loop_app unicode_lower float_of_str a : forall b acc,
  clean_words_loop unicode_lower float_of_str (a ++ b) acc
  = (r <- clean_words_loop unicode_lower float_of_str a acc ;;
     clean_words_loop unicode_lower float_of_str b r).
Proof.
  induction a as [| word_data a IH]; intros b acc;
    cbn [app clean_words_loop bind]; [reflexivity |].
  destruct (clean_word unicode_lower float_of_str word_data) as [r |];
    cbn [bind]; [apply IH | reflexivity].
Qed.

Lemma clean_words_loop_extends unicode_lower float_of_str l :
  forall acc result,
    clean_words_loop unicode_lower float_of_str l acc = Ok result ->
    exists tail, result = acc ++ tail.
Proof.
  induction l as [| word_data l IH]; intros acc result H;
    cbn [clean_words_loop] in H.
  - injection H as <-. exists []. now rewrite app_nil_r.
  - destruct (clean_word unicode_lower float_of_str word_data) as [r |];
      cbn [bind] in H; [| discriminate].
    destruct (IH _ _ H) as [tail ->]. destruct r as [w |].
    + exists (w :: tail). now rewrite <- app_assoc.
    + now exists tail.
Qed.

(** C10, as stated, fails: a record whose ['success'] is [None] is not
    explicitly false, and it is discarded; the same record without the key
    is kept and gives the line its times. *)
Lemma null_success_is_discarded :
  dict_get null_success_word (py "success") <> Some (PBool false) /\
  clean_word ascii_only_lower no_numeric_strings (PDict null_success_word)
  = Ok None /\
  parse_lyrics_timing ascii_only_lower no_numeric_strings
    (response [PDict null_success_word]) (Some (py "Hello world"))
  = Ok [] /\
  parse_lyrics_timing ascii_only_lower no_numeric_strings
    (response [PDict unmarked_word]) (Some (py "Hello world"))
  = Ok [(0%float, 2%float, py "Hello world")].
Proof.
  split; [discriminate |]. repeat split; vm_compute; reflexivity.
Qed.

(** C10, amended: a word record without the ['success'] key passes the
    test of line 257, and when its word is a string that, trimmed and with
    its line feeds replaced, is not empty and not a structural marker, and
    its times convert to floats, the record is kept with that text and
    these times and takes its place, in order, among the words handed to
    the alignment.  The test discards exactly the records whose
    ['success'] is present and falsy: [False], and also [None], [0], the
    empty string, list or dict. *)
Theorem success_defaults_to_true :
  forall unicode_lower float_of_str items,
    (dict_get items (py "success") = None ->
     recognized (PDict items) = Ok true) /\
    (forall w s e,
       dict_get items (py "success") = None ->
       dict_get items (py "word") = Some (PStr w) ->
       strip (replace [10] [32] (strip w)) <> [] ->
       starts_with_marker
         (strip (lower unicode_lower (strip (replace [10] [32] (strip w)))))
       = false ->
       py_float float_of_str
         (match dict_get items (py "startS") with
          | Some v => v
          | None => PInt 0
          end) = Ok s ->
       py_float float_of_str
         (match dict_get items (py "endS") with
          | Some v => v
          | None => PInt 0
          end) = Ok e ->
       clean_word unicode_lower float_of_str (PDict items)
       = Ok (Some {| word := strip (replace [10] [32] (strip w));
                     start := s; end_ := e |})) /\
    (forall kept before after clean_words_before clean_words,
       clean_word unicode_lower float_of_str (PDict items) = Ok (Some kept) ->
       clean_words_loop unicode_lower float_of_str before []
       = Ok clean_words_before ->
       clean_words_loop unicode_lower float_of_str
         (before ++ PDict items :: after) [] = Ok clean_words ->
       nth_error clean_words (length clean_words_before) = Some kept) /\
    (recognized (PDict items) = Ok false <->
     exists v, dict_get items (py "success") = Some v /\ truthy v = false) /\
    (recognized (PDict items) = Ok false ->
     clean_word unicode_lower float_of_str (PDict items) = Ok None).
Proof.
  intros ul fs items. split; [| split; [| split; [| split]]].
  - intros H. unfold recognized. cbn [py_get bind]. now rewrite H.
  - intros w s e Hsuccess Hword Hne Hmarker Hs He.
    unfold clean_word, recognized. cbn [py_get bind].
    rewrite Hsuccess, Hword. cbn [truthy negb py_strip bind].
    destruct (strip w) as [| c rest] eqn:Hw.
    { exfalso. apply Hne. reflexivity. }
    rewrite marker_test_is_prefix_test, Hmarker. cbn [negb andb].
    destruct (strip (replace [10] [32] (c :: rest))) as [| c' rest'] eqn:Ht;
      [now destruct Hne |].
    cbn [length Nat.ltb Nat.leb]. rewrite Hs, He. reflexivity.
  - intros kept before after cws_before cws Hkept Hbefore Hall.
    rewrite clean_words_loop_app, Hbefore in Hall.
    cbn [bind clean_words_loop] in Hall. rewrite Hkept in Hall.
    cbn [bind] in Hall.
    destruct (clean_words_loop_extends ul fs after _ _ Hall) as [tail ->].
    rewrite <- app_assoc. rewrite nth_error_app2 by lia.
    now rewrite Nat.sub_diag.
  - unfold recognized. cbn [py_get bind]. split.
    + intros H. destruct (dict_get items (py "success")) as [v |].
      * exists v. split; [reflexivity |]. cbn [truthy] in H.
        injection H as H. exact H.
      * discriminate.
    + intros (v & -> & Hv). now rewrite Hv.
  - apply recognized_false_discards.
Qed.

Lemma success_defaults_to_true_witness :
  recognized (PDict unmarked_word) = Ok true /\
  clean_word ascii_only_lower no_numeric_strings (PDict unmarked_word)
  = Ok (Some {| word := strip (replace [10] [32] (strip (py "Hello")));
                start := 0%float; end_ := 0.5%float |}) /\
  nth_error [mk_word "Hello" 0 0.5; mk_word "world" 0.5 1] 0
  = Some (mk_word "Hello" 0 0.5) /\
  (recognized (PDict null_success_word) = Ok false <->
   exists v, dict_get null_success_word (py "success") = Some v /\
             truthy v = false).
Proof.
  destruct (success_defaults_to_true ascii_only_lower no_numeric_strings
              unmarked_word) as (Hrec & Hkept & Hloop & _).
  split; [apply Hrec; reflexivity |].
  split; [apply Hkept; try reflexivity; vm_compute; discriminate |].
  split.
  - apply (Hloop (mk_word "Hello" 0 0.5) []
             [PDict [(py "word", PStr (py "world"));
                     (py "startS", PFloat 0.5); (py "endS", PInt 1)]]
             []); vm_compute; reflexivity.
  - apply (success_defaults_to_true ascii_only_lower no_numeric_strings
             null_success_word).
Defined.

(** A response whose records carry no ['success'] key is aligned like
    Scenario A. *)
Lemma unmarked_words_are_aligned :
  parse_lyrics_timing ascii_only_lower no_numeric_strings
    (response [PDict unmarked_word;
               PDict [(py "word", PStr (py "world")); (py "startS", PFloat 0.5);
                      (py "endS", PInt 1)]])
    (Some (py "Hello world"))
  = Ok [(0%float, 2%float, py "Hello world")].
Proof. vm_compute. reflexivity. Qed.

(** ** Exceptions *)

Lemma encode_latin1_raises text :
  forall e, encode_latin1 text = Raise e -> e = UnicodeEncodeError.
Proof.
  induction text as [| c text IH]; intros e H; simpl in H; [discriminate |].
  destruct ((0 <=? c) && (c <=? 255)).
  - destruct (encode_latin1 text); simpl in H; [discriminate |].
    injection H as <-. now apply IH.
  - now injection H as <-.
Qed.

Ltac raise_case H IH :=
  match type of H with
  | context [if ?b then _ else _] => destruct b; raise_case H IH
  | context [match ?l with [] => _ | _ :: _ => _ end] =>
      destruct l; raise_case H IH
  | context [bind (decode_utf8 ?r) _] =>
      let Hr := fresh "Hr" in
      destruct (decode_utf8 r) eqn:Hr; cbn [bind] in H;
      [discriminate | injection H as <-; eapply IH; [| exact Hr]; simpl in *; lia]
  | Raise _ = Raise _ => now injection H as <-
  | Ok _ = Raise _ => discriminate
  end.

Lemma decode_utf8_raises_bounded n :
  forall bs e, (length bs <= n)%nat ->
               decode_utf8 bs = Raise e -> e = UnicodeDecodeError.
Proof.
  induction n as [| n IH]; intros bs e Hlen H.
  - destruct bs; [discriminate | simpl in Hlen; lia].
  - destruct bs as [| b0 r0]; [discriminate |].
    cbn [decode_utf8] in H. simpl in Hlen.
    raise_case H IH.
Qed.

Lemma decode_utf8_raises bs e :
  decode_utf8 bs = Raise e -> e = UnicodeDecodeError.
Proof. apply (decode_utf8_raises_bounded (length bs)). lia. Qed.

Lemma reinterpret_raises text e :
  reinterpret text = Raise e ->
  e = UnicodeEncodeError \/ e = UnicodeDecodeError.
Proof.
  unfold reinterpret. intros H.
  destruct (encode_latin1 text) as [bs |] eqn:He; cbn [bind] in H.
  - right. now apply (decode_utf8_raises bs).
  - left. injection H as <-. now apply (encode_latin1_raises text).
Qed.

Lemma replace_aux_absent old new :
  forall s, contains old s = false -> replace_aux old new 0 s = s.
Proof.
  induction s as [| c s IH]; intros H; [reflexivity |].
  cbn [contains] in H. apply orb_false_iff in H. destruct H as [H1 H2].
  cbn [replace_aux]. rewrite H1. f_equal. now apply IH.
Qed.

Lemma replace_absent old new s :
  old <> [] -> contains old s = false -> replace old new s = s.
Proof.
  intros Hne H. destruct old; [contradiction |]. now apply replace_aux_absent.
Qed.

Lemma fold_fixes_absent table :
  forall text,
    Forall (fun p => fst p <> []) table ->
    forallb (fun p => negb (contains (fst p) text)) table = true ->
    fold_left (fun result_ p => replace (fst p) (snd p) result_) table text
    = text.
Proof.
  induction table as [| p table IH]; intros text Hne H; [reflexivity |].
  cbn [forallb] in H. apply andb_true_iff in H. destruct H as [H1 H2].
  apply negb_true_iff in H1. inversion Hne as [| ? ? Hp Ht]; subst.
  cbn [fold_left]. rewrite replace_absent by assumption. now apply IH.
Qed.

Lemma apply_fixes_absent text :
  no_bad_sequence text = true -> apply_fixes text = text.
Proof.
  intros H. apply fold_fixes_absent; [| exact H].
  unfold fixes. apply Forall_forall. intros p Hp.
  apply in_map_iff in Hp. destruct Hp as (q & <- & _). discriminate.
Qed.

(** C7, as stated, fails for the normalizer: on a number, a value that is
    not a string, it raises. *)
Lemma normalizer_raises_on_a_number :
  fix_double_utf8_encoding_value (PInt 5) = Raise AttributeError.
Proof. reflexivity. Qed.

(** C7, amended: [parse_lyrics_timing] returns for every response and
    every original lyrics, and returns the empty sequence whenever its body
    raises; the encoding normalizer returns for every string: the
    reinterpreted text, or -- when the reinterpretation raises -- the text
    with the table applied, which is the input unchanged when no sequence of
    the table occurs in it; it returns a falsy value of any type as it is,
    and on a truthy value that is not a string it raises
    [AttributeError]. *)
Theorem never_raises :
  forall unicode_lower float_of_str,
    (forall lyrics_data original_lyrics,
       exists segments,
         parse_lyrics_timing unicode_lower float_of_str lyrics_data
           original_lyrics = Ok segments /\
         (forall e,
            parse_lyrics_timing_body unicode_lower float_of_str lyrics_data
              original_lyrics = Raise e -> segments = [])) /\
    (forall text,
       exists fixed,
         fix_double_utf8_encoding text = Ok fixed /\
         fix_double_utf8_encoding_value (PStr text) = Ok (PStr fixed) /\
         (reinterpret text = Ok fixed \/
          (exists e, reinterpret text = Raise e) /\
          fixed = apply_fixes text /\
          (no_bad_sequence text = true -> fixed = text) \/
          text = [] /\ fixed = [])) /\
    (forall value,
       (truthy value = false ->
        fix_double_utf8_encoding_value value = Ok value) /\
       (truthy value = true ->
        (forall text, value <> PStr text) ->
        fix_double_utf8_encoding_value value = Raise AttributeError)).
Proof.
  intros ul fs. split; [| split].
  - intros d o. unfold parse_lyrics_timing.
    destruct (parse_lyrics_timing_body ul fs d o) as [segments | e0];
      cbn [try_except].
    + exists segments. split; [reflexivity | discriminate].
    + exists []. split; reflexivity.
  - intros text. unfold fix_double_utf8_encoding_value.
    destruct text as [| c text]; [exists []; auto |].
    cbn [truthy negb]. unfold fix_double_utf8_encoding.
    destruct (reinterpret (c :: text)) as [fixed | e] eqn:Hr.
    + exists fixed. split; [reflexivity |]. split; [reflexivity | now left].
    + exists (apply_fixes (c :: text)).
      assert (Hok : except_unicode (Raise e)
                      (try_except (Ok (apply_fixes (c :: text))) (c :: text))
                    = Ok (apply_fixes (c :: text))).
      { destruct (reinterpret_raises _ _ Hr) as [-> | ->]; reflexivity. }
      rewrite Hok. split; [reflexivity |]. split; [reflexivity |].
      right; left.
      split; [eauto |]. split; [reflexivity | apply apply_fixes_absent].
  - intros value. unfold fix_double_utf8_encoding_value. split.
    + intros ->. reflexivity.
    + intros -> Hns. cbn [negb].
      destruct value; try reflexivity. now destruct (Hns s).
Qed.

Lemma never_raises_witness :
  (exists segments,
     parse_lyrics_timing ascii_only_lower no_numeric_strings
       malformed_response (Some scenario_A_lyrics) = Ok segments /\
     (forall e,
        parse_lyrics_timing_body ascii_only_lower no_numeric_strings
          malformed_response (Some scenario_A_lyrics) = Raise e ->
        segments = [])) /\
  (exists fixed,
     fix_double_utf8_encoding [67; 97; 102; 233] = Ok fixed /\
     fix_double_utf8_encoding_value (PStr [67; 97; 102; 233])
     = Ok (PStr fixed) /\
     (reinterpret [67; 97; 102; 233] = Ok fixed \/
      (exists e, reinterpret [67; 97; 102; 233] = Raise e) /\
      fixed = apply_fixes [67; 97; 102; 233] /\
      (no_bad_sequence [67; 97; 102; 233] = true ->
       fixed = [67; 97; 102; 233]) \/
      [67; 97; 102; 233] = [] /\ fixed = [])) /\
  fix_double_utf8_encoding_value PNone = Ok PNone /\
  fix_double_utf8_encoding_value (PList [PInt 1]) = Raise AttributeError.
Proof.
  destruct (never_raises ascii_only_lower no_numeric_strings)
    as (Hparse & Hstr & Hvalue).
  split; [apply Hparse |]. split; [apply Hstr |]. split.
  - apply (proj1 (Hvalue PNone)). reflexivity.
  - apply (proj2 (Hvalue (PList [PInt 1]))); [reflexivity | discriminate].
Defined.

(** Values of the wrong types in the word records end in [[]]. *)
Lemma malformed_response_gives_no_segment :
  parse_lyrics_timing_body ascii_only_lower no_numeric_strings
    malformed_response (Some scenario_A_lyrics) = Raise AttributeError /\
  parse_lyrics_timing ascii_only_lower no_numeric_strings
    malformed_response (Some scenario_A_lyrics) = Ok [].
Proof. split; vm_compute; reflexivity. Qed.

(** ** Words of a string *)

Lemma words_aux_app_space a c b :
  isspace c = true ->
  words_aux (a ++ c :: b)
  = (fst (words_aux a), snd (words_aux a) ++ split b).
Proof.
  intros Hc. induction a as [| x a IH]; cbn [app words_aux].
  - rewrite Hc. unfold split. now destruct (words_aux b) as [w ws].
  - rewrite IH. destruct (words_aux a) as [w ws]. cbn [fst snd].
    destruct (isspace x); [| reflexivity].
    now destruct w.
Qed.

Lemma split_app_space a c b :
  isspace c = true -> split (a ++ c :: b) = split a ++ split b.
Proof.
  intros Hc. unfold split at 1 2. rewrite words_aux_app_space by assumption.
  destruct (words_aux a) as [w ws]. cbn [fst snd]. now destruct w.
Qed.

Lemma words_aux_no_space w :
  forallb (fun c => negb (isspace c)) w = true -> words_aux w = (w, []).
Proof.
  induction w as [| c w IH]; intros H; [reflexivity |].
  cbn [forallb] in H. apply andb_true_iff in H. destruct H as [Hc Hw].
  cbn [words_aux]. rewrite (IH Hw).
  apply negb_true_iff in Hc. now rewrite Hc.
Qed.

Lemma split_word w : is_word w -> split w = [w].
Proof.
  intros [Hne Hw]. unfold split. rewrite words_aux_no_space by assumption.
  now destruct w.
Qed.

Lemma words_aux_words s :
  forallb (fun c => negb (isspace c)) (fst (words_aux s)) = true /\
  Forall is_word (snd (words_aux s)).
Proof.
  induction s as [| c s [Hw Hws]]; cbn [words_aux].
  - split; [reflexivity | constructor].
  - destruct (words_aux s) as [w ws]. cbn [fst snd] in *.
    destruct (isspace c) eqn:Hc; cbn [fst snd].
    + split; [reflexivity |]. destruct w as [| x w]; [assumption |].
      constructor; [| assumption]. split; [discriminate | assumption].
    + split; [| assumption]. cbn [forallb]. now rewrite Hc, Hw.
Qed.

Lemma split_words s : Forall is_word (split s).
Proof.
  unfold split. destruct (words_aux_words s) as [Hw Hws].
  destruct (words_aux s) as [w ws]. cbn [fst snd] in *.
  destruct w as [| x w]; [assumption |].
  constructor; [| assumption]. split; [discriminate | assumption].
Qed.

Lemma split_join ws : Forall is_word ws -> split (join space ws) = ws.
Proof.
  induction 1 as [| w ws Hw Hws IH]; [reflexivity |].
  destruct ws as [| w2 ws].
  - now apply split_word.
  - change (join space (w :: w2 :: ws))
      with (w ++ 32 :: join space (w2 :: ws)).
    rewrite split_app_space by reflexivity.
    now rewrite IH, split_word.
Qed.

Lemma join_nonempty w ws : is_word w -> join space (w :: ws) <> [].
Proof.
  intros [Hne _]. destruct w; [contradiction |].
  destruct ws; discriminate.
Qed.

Lemma find_split_bound mid_point words :
  forall i current_length k,
    find_split mid_point words i current_length = Some k ->
    (i <= k < i + length words)%nat.
Proof.
  induction words as [| w words IH]; intros i cur k H; [discriminate |].
  cbn [find_split] in H.
  destruct (mid_point <=? _)%nat.
  - injection H as <-. simpl. lia.
  - apply IH in H. simpl. lia.
Qed.

(** ** Wrapping *)

Lemma Forall_firstn_skipn {A} (P : A -> Prop) (l : list A) k :
  Forall P l -> Forall P (firstn k l) /\ Forall P (skipn k l).
Proof.
  intros H. rewrite <- (firstn_skipn k l) in H. now apply Forall_app in H.
Qed.

(** C8, as stated, fails: a single word longer than the limit is cut at
    the limit, and the two pieces are not the word. *)
Lemma wrap_breaks_a_long_word :
  wrap_text_intelligently (py "abcdefghij") 5 = [py "abcde"; py "fghij"]
  /\ split (join space (wrap_text_intelligently (py "abcdefghij") 5))
     = [py "abcde"; py "fghij"]
  /\ split (py "abcdefghij") = [py "abcdefghij"].
Proof. repeat split; vm_compute; reflexivity. Qed.

(** C8, amended: a text within the limit is returned alone; a longer text
    of at least two words is returned as two lines, the first [k] words
    and the remaining ones for a [k] below the number of words, each joined
    by single spaces, so that the lines joined by a space split into the
    words of the text; a longer text of at most one word is cut at the
    limit into two pieces whose concatenation is the text. *)
Theorem wrap_text_intelligently_lines :
  forall text max_chars_per_line,
    (Z.of_nat (length text) <= max_chars_per_line ->
     wrap_text_intelligently text max_chars_per_line = [text]) /\
    (max_chars_per_line < Z.of_nat (length text) ->
     (length (split text) <= 1)%nat ->
     wrap_text_intelligently text max_chars_per_line
     = [slice_to text max_chars_per_line;
        slice_from text max_chars_per_line] /\
     slice_to text max_chars_per_line ++ slice_from text max_chars_per_line
     = text) /\
    (max_chars_per_line < Z.of_nat (length text) ->
     (2 <= length (split text))%nat ->
     exists k,
       (k < length (split text))%nat /\
       wrap_text_intelligently text max_chars_per_line
       = [join space (firstn k (split text));
          join space (skipn k (split text))] /\
       split (join space (wrap_text_intelligently text max_chars_per_line))
       = split text).
Proof.
  intros text max_chars. unfold wrap_text_intelligently.
  split; [| split].
  - intros Hle. apply Z.leb_le in Hle. now rewrite Hle.
  - intros Hlt Hw. apply Z.leb_gt in Hlt. rewrite Hlt.
    apply Nat.leb_le in Hw. rewrite Hw.
    split; [reflexivity |]. apply firstn_skipn.
  - intros Hlt Hw. apply Z.leb_gt in Hlt. rewrite Hlt.
    assert (Hw' : (length (split text) <=? 1)%nat = false)
      by (apply Nat.leb_gt; lia).
    rewrite Hw'.
    pose proof (split_words text) as Hwords.
    set (words := split text) in *.
    set (best_split :=
           match find_split (length text / 2) words 0 0 with
           | Some i => i
           | None => (length words / 2)%nat
           end).
    assert (Hbest : (best_split < length words)%nat).
    { unfold best_split.
      destruct (find_split (length text / 2) words 0 0) as [i |] eqn:Hf.
      - apply find_split_bound in Hf. lia.
      - apply Nat.div_lt; lia. }
    set (k := if (max_chars <? Z.of_nat
                    (length (join space (skipn best_split words))))
                 && (1 <? best_split)%nat
              then (best_split - 1)%nat else best_split).
    assert (Hk : (k < length words)%nat).
    { unfold k. destruct (_ && _); lia. }
    exists k. split; [exact Hk |].
    assert (Hne : nonempty (join space (skipn k words)) = true).
    { destruct (skipn k words) as [| w rest] eqn:Hs.
      - apply (f_equal (@length _)) in Hs. rewrite length_skipn in Hs.
        simpl in Hs. lia.
      - assert (Hword : is_word w).
        { assert (Hf : Forall is_word (skipn k words))
            by (now apply Forall_firstn_skipn).
          rewrite Hs in Hf. now inversion Hf. }
        pose proof (join_nonempty w rest Hword) as Hj.
        now destruct (join space (w :: rest)). }
    rewrite Hne. split; [reflexivity |].
    change (join space [join space (firstn k words);
                        join space (skipn k words)])
      with (join space (firstn k words) ++ 32 :: join space (skipn k words)).
    rewrite split_app_space by reflexivity.
    rewrite !split_join by (now apply Forall_firstn_skipn).
    apply firstn_skipn.
Qed.

Lemma wrap_text_intelligently_lines_witness :
  exists k,
    (k < length (split (py "aa bb cc dd ee")))%nat /\
    wrap_text_intelligently (py "aa bb cc dd ee") 8
    = [join space (firstn k (split (py "aa bb cc dd ee")));
       join space (skipn k (split (py "aa bb cc dd ee")))] /\
    split (join space (wrap_text_intelligently (py "aa bb cc dd ee") 8))
    = split (py "aa bb cc dd ee").
Proof.
  apply (proj2 (proj2 (wrap_text_intelligently_lines
                         (py "aa bb cc dd ee") 8))).
  - reflexivity.
  - vm_compute. lia.
Defined.

(** ** The encoding normalizer *)

Lemma encode_latin1_ascii s :
  forallb is_ascii s = true -> encode_latin1 s = Ok s.
Proof.
  induction s as [| c s IH]; intros H; [reflexivity |].
  cbn [forallb] in H. apply andb_true_iff in H. destruct H as [Hc Hs].
  cbn [encode_latin1]. unfold is_ascii in Hc.
  apply andb_true_iff in Hc. destruct Hc as [H0 H1].
  apply Z.leb_le in H0. apply Z.ltb_lt in H1.
  replace ((0 <=? c) && (c <=? 255)) with true
    by (symmetry; apply andb_true_iff; split; apply Z.leb_le; lia).
  now rewrite (IH Hs).
Qed.

Lemma decode_utf8_ascii s :
  forallb is_ascii s = true -> decode_utf8 s = Ok s.
Proof.
  induction s as [| c s IH]; intros H; [reflexivity |].
  cbn [forallb] in H. apply andb_true_iff in H. destruct H as [Hc Hs].
  cbn [decode_utf8]. unfold is_ascii in Hc.
  apply andb_true_iff in Hc. destruct Hc as [_ H1]. rewrite H1.
  now rewrite (IH Hs).
Qed.

Lemma reinterpret_ascii s :
  forallb is_ascii s = true -> reinterpret s = Ok s.
Proof.
  intros H. unfold reinterpret. rewrite encode_latin1_ascii by assumption.
  cbn [bind]. now apply decode_utf8_ascii.
Qed.

Lemma fix_double_utf8_encoding_fixed_point t :
  reinterpret t = Ok t \/
  (exists e, reinterpret t = Raise e) /\ no_bad_sequence t = true ->
  fix_double_utf8_encoding t = Ok t.
Proof.
  intros H. unfold fix_double_utf8_encoding.
  destruct t as [| c t]; [reflexivity |].
  destruct H as [-> | [[e He] Hno]]; [reflexivity |].
  rewrite He.
  destruct (reinterpret_raises _ _ He) as [-> | ->];
    cbn [except_unicode try_except]; now rewrite apply_fixes_absent.
Qed.

(** C9, as stated, fails: text corrupted twice is repaired one level per
    pass.  The four characters U+00C3 U+0083 U+00C2 U+00A9 become
    U+00C3 U+00A9, which a second pass turns into U+00E9. *)
Lemma normalizer_is_not_idempotent :
  fix_double_utf8_encoding [195; 131; 194; 169] = Ok [195; 169]
  /\ fix_double_utf8_encoding [195; 169] = Ok [233]
  /\ (t <- fix_double_utf8_encoding [195; 131; 194; 169] ;;
      fix_double_utf8_encoding t)
     <> fix_double_utf8_encoding [195; 131; 194; 169].
Proof.
  repeat split; try (vm_compute; reflexivity).
  vm_compute. discriminate.
Qed.

(** *** One pass of the table leaves no key behind *)

Lemma startswith_nil s : startswith s [] = true.
Proof. now destruct s. Qed.

Section ReplacePair.

(** The key [[a; b]] is replaced by the single character [g]. *)
Variables a b g : Z.

Lemma replace_pair_nil : replace_aux [a; b] [g] 0 [] = [].
Proof. reflexivity. Qed.

Lemma replace_pair_one c : replace_aux [a; b] [g] 0 [c] = [c].
Proof. cbn. now rewrite andb_false_r. Qed.

Lemma replace_pair_two c d s :
  replace_aux [a; b] [g] 0 (c :: d :: s)
  = if (a =? c) && (b =? d) then g :: replace_aux [a; b] [g] 0 s
    else c :: replace_aux [a; b] [g] 0 (d :: s).
Proof.
  cbn [replace_aux startswith length Nat.sub app].
  now rewrite startswith_nil, andb_true_r.
Qed.

Lemma contains_pair_cons y c s :
  contains [a; y] (c :: s)
  = ((a =? c) && match s with d :: _ => y =? d | [] => false end)
    || contains [a; y] s.
Proof.
  cbn [contains startswith]. destruct s as [| d s]; cbn [startswith].
  - reflexivity.
  - now rewrite startswith_nil, andb_true_r.
Qed.

(** The head of the output is [g] or the head of the input. *)
Lemma replace_pair_head s :
  forall h rest,
    replace_aux [a; b] [g] 0 s = h :: rest ->
    h = g \/ exists s', s = h :: s'.
Proof.
  intros h rest H. destruct s as [| c [| d s]].
  - discriminate.
  - rewrite replace_pair_one in H. injection H as <- _. right. eauto.
  - rewrite replace_pair_two in H. destruct ((a =? c) && (b =? d)).
    + injection H as <- _. now left.
    + injection H as <- _. right. eauto.
Qed.

Lemma replace_pair_absent_bounded y :
  g <> a -> g <> y ->
  forall n s,
    (length s <= n)%nat ->
    contains [a; y] s = false \/ y = b ->
    contains [a; y] (replace_aux [a; b] [g] 0 s) = false.
Proof.
  intros Hga Hgy. induction n as [| n IH]; intros s Hlen Hs.
  - destruct s; [reflexivity | simpl in Hlen; lia].
  - destruct s as [| c [| d s]].
    + reflexivity.
    + rewrite replace_pair_one. cbn. now rewrite andb_false_r.
    + assert (Htail : contains [a; y] (d :: s) = false \/ y = b).
      { destruct Hs as [Hs | Hs]; [left | now right].
        rewrite contains_pair_cons in Hs. now apply orb_false_iff in Hs. }
      assert (Htail2 : contains [a; y] s = false \/ y = b).
      { destruct Htail as [Ht | Ht]; [left | now right].
        rewrite contains_pair_cons in Ht. now apply orb_false_iff in Ht. }
      rewrite replace_pair_two.
      destruct ((a =? c) && (b =? d)) eqn:Hm.
      * rewrite contains_pair_cons.
        replace (a =? g) with false by (symmetry; apply Z.eqb_neq; congruence).
        cbn [andb orb]. apply IH; [simpl in Hlen; lia | assumption].
      * rewrite contains_pair_cons.
        rewrite (IH (d :: s)) by (simpl in *; auto; lia).
        rewrite orb_false_r.
        destruct (a =? c) eqn:Hac; [| reflexivity]. cbn [andb] in *.
        destruct (replace_aux [a; b] [g] 0 (d :: s)) as [| h rest] eqn:Hr;
          [reflexivity |].
        apply Z.eqb_neq. intros ->.
        destruct (replace_pair_head _ _ _ Hr) as [-> | [s' Hs']];
          [congruence |].
        injection Hs' as -> _.
        destruct Hs as [Hs | ->].
        -- rewrite contains_pair_cons, Hac, Z.eqb_refl in Hs. discriminate.
        -- rewrite Z.eqb_refl in Hm. discriminate.
Qed.

Lemma replace_pair_absent y s :
  g <> a -> g <> y ->
  contains [a; y] s = false \/ y = b ->
  contains [a; y] (replace [a; b] [g] s) = false.
Proof.
  intros Hga Hgy Hs.
  apply (replace_pair_absent_bounded y Hga Hgy (length s) s (le_n _) Hs).
Qed.

(** A character that is neither of the key survives. *)
Lemma replace_pair_keeps_bounded x :
  x <> a -> x <> b ->
  forall n s, (length s <= n)%nat -> In x s ->
              In x (replace_aux [a; b] [g] 0 s).
Proof.
  intros Hxa Hxb. induction n as [| n IH]; intros s Hlen Hin.
  - destruct s; [contradiction | simpl in Hlen; lia].
  - destruct s as [| c [| d s]].
    + contradiction.
    + now rewrite replace_pair_one.
    + rewrite replace_pair_two. destruct ((a =? c) && (b =? d)) eqn:Hm.
      * apply andb_true_iff in Hm. destruct Hm as [Hc Hd].
        apply Z.eqb_eq in Hc, Hd. subst c d. right.
        apply IH; [simpl in Hlen; lia |].
        destruct Hin as [Hin | [Hin | Hin]]; congruence || assumption.
      * destruct Hin as [Hin | Hin]; [now left | right].
        apply IH; [simpl in *; lia | assumption].
Qed.

Lemma replace_pair_keeps x s :
  x <> a -> x <> b -> In x s -> In x (replace [a; b] [g] s).
Proof.
  intros Hxa Hxb Hin.
  apply (replace_pair_keeps_bounded x Hxa Hxb (length s) s (le_n _) Hin).
Qed.

End ReplacePair.

Lemma fixes_values_are_fresh :
  forall x g, In (x, g) fixes_chars ->
    g <> 195 /\ forall y, In y (map fst fixes_chars) -> g <> y.
Proof.
  assert (H : forallb (fun p => negb (snd p =? 195)
                         && forallb (fun y => negb (snd p =? y))
                              (map fst fixes_chars)) fixes_chars = true)
    by reflexivity.
  rewrite forallb_forall in H. intros x g Hin.
  apply H in Hin. cbn [snd] in Hin. apply andb_true_iff in Hin.
  destruct Hin as [H1 H2]. split.
  - apply negb_true_iff in H1. now apply Z.eqb_neq.
  - rewrite forallb_forall in H2. intros y Hy. apply H2 in Hy.
    apply negb_true_iff in Hy. now apply Z.eqb_neq.
Qed.

Lemma fold_fixes_no_key (ys : list Z) :
  forall table done s,
    (forall x g, In (x, g) table ->
                 g <> 195 /\ forall y, In y ys -> g <> y) ->
    incl done ys -> incl (map fst table) ys ->
    (forall y, In y done -> contains [195; y] s = false) ->
    forall y, In y done \/ In y (map fst table) ->
      contains [195; y]
        (fold_left (fun result_ p => replace (fst p) (snd p) result_)
           (map (fun p => ([195; fst p], [snd p])) table) s) = false.
Proof.
  induction table as [| [x g] table IH]; intros done s Hfresh Hd Ht Hs y Hy.
  - cbn. destruct Hy as [Hy | []]. now apply Hs.
  - cbn [map fold_left fst snd].
    destruct (Hfresh x g (or_introl eq_refl)) as [Hg Hgy].
    apply (IH (x :: done)).
    + intros x' g' Hin. apply (Hfresh x' g'). now right.
    + intros z [<- | Hz]; [apply Ht; now left | now apply Hd].
    + intros z Hz. apply Ht. now right.
    + intros z [<- | Hz].
      * apply replace_pair_absent; [assumption | | now right].
        apply Hgy, Ht. now left.
      * apply replace_pair_absent; [assumption | | left; now apply Hs].
        now apply Hgy, Hd.
    + destruct Hy as [Hy | [<- | Hy]]; [left; now right | left; now left |].
      now right.
Qed.

Lemma apply_fixes_no_bad_sequence s : no_bad_sequence (apply_fixes s) = true.
Proof.
  unfold no_bad_sequence. apply forallb_forall. intros p Hp.
  unfold fixes in Hp. apply in_map_iff in Hp.
  destruct Hp as ([x g] & <- & Hin). cbn [fst snd].
  apply negb_true_iff. unfold apply_fixes, fixes.
  apply (fold_fixes_no_key (map fst fixes_chars) fixes_chars []).
  - exact fixes_values_are_fresh.
  - intros z [].
  - apply incl_refl.
  - intros z [].
  - right. apply in_map_iff. now exists (x, g).
Qed.

Lemma fold_fixes_keeps c :
  c <> 195 ->
  forall table s,
    ~ In c (map fst table) -> In c s ->
    In c (fold_left (fun result_ p => replace (fst p) (snd p) result_)
            (map (fun p => ([195; fst p], [snd p])) table) s).
Proof.
  intros Hc. induction table as [| [x g] table IH]; intros s Hn Hin.
  - exact Hin.
  - cbn [map fold_left fst snd]. apply IH.
    + intros H. apply Hn. now right.
    + apply replace_pair_keeps; [assumption | | assumption].
      intros ->. apply Hn. now left.
Qed.

Lemma encode_latin1_outside c s :
  In c s -> 255 < c -> encode_latin1 s = Raise UnicodeEncodeError.
Proof.
  intros Hin Hc. induction s as [| x s IH]; [contradiction |].
  cbn [encode_latin1].
  destruct ((0 <=? x) && (x <=? 255)) eqn:Hx; [| reflexivity].
  destruct Hin as [-> | Hin].
  - apply andb_true_iff in Hx. destruct Hx as [_ Hx].
    apply Z.leb_le in Hx. lia.
  - now rewrite (IH Hin).
Qed.

(** C9, amended: a second pass changes nothing when the first pass
    returns clean text -- text that the reinterpretation leaves as it is,
    or that it rejects and that holds no sequence of the table.  This is
    so for every pure ASCII string, which the normalizer returns
    unchanged, and for every string with a character above U+00FF other
    than U+2026, U+2020 and U+02DC, where one pass of the table leaves no
    key behind. *)
Theorem normalizer_idempotent_on_clean_output :
  forall s,
    (forall t,
       fix_double_utf8_encoding s = Ok t ->
       reinterpret t = Ok t \/
       (exists e, reinterpret t = Raise e) /\ no_bad_sequence t = true ->
       fix_double_utf8_encoding t = Ok t) /\
    (forallb is_ascii s = true ->
     fix_double_utf8_encoding s = Ok s) /\
    ((exists c, In c s /\ 255 < c /\ ~ In c [8230; 8224; 732]) ->
     exists t, fix_double_utf8_encoding s = Ok t /\
               fix_double_utf8_encoding t = Ok t).
Proof.
  intros s. split; [| split].
  - intros t _. apply fix_double_utf8_encoding_fixed_point.
  - intros H. apply fix_double_utf8_encoding_fixed_point. left.
    now apply reinterpret_ascii.
  - intros (c & Hin & Hc & Hnot).
    assert (Hraise : forall u, In c u ->
              reinterpret u = Raise UnicodeEncodeError).
    { intros u Hu. unfold reinterpret.
      now rewrite (encode_latin1_outside c u Hu Hc). }
    exists (apply_fixes s). split.
    + unfold fix_double_utf8_encoding. destruct s as [| x s]; [contradiction |].
      now rewrite (Hraise _ Hin).
    + apply fix_double_utf8_encoding_fixed_point. right. split.
      * exists UnicodeEncodeError. apply Hraise.
        unfold apply_fixes, fixes. apply fold_fixes_keeps; [lia | | assumption].
        intros Hk. apply Hnot.
        assert (Hall : forallb (fun y => (y <=? 255) || (y =? 8230)
                                         || (y =? 8224) || (y =? 732))
                         (map fst fixes_chars) = true) by reflexivity.
        rewrite forallb_forall in Hall. apply Hall in Hk.
        repeat (apply orb_true_iff in Hk; destruct Hk as [Hk | Hk]);
          [apply Z.leb_le in Hk; lia | | |];
          apply Z.eqb_eq in Hk; subst c; cbn; auto.
      * apply apply_fixes_no_bad_sequence.
Qed.

Lemma normalizer_idempotent_on_clean_output_witness :
  fix_double_utf8_encoding [67; 97; 102; 233] = Ok [67; 97; 102; 233].
Proof.
  apply (proj1 (normalizer_idempotent_on_clean_output [67; 97; 102; 195; 169])
           [67; 97; 102; 233]).
  - vm_compute. reflexivity.
  - right. split; [exists UnicodeDecodeError |]; vm_compute; reflexivity.
Defined.

(** * Further properties *)

(** ** What survives the filters *)

Lemma existsb_false_In {A} (f : A -> bool) l :
  existsb f l = false -> forall x, In x l -> f x = false.
Proof.
  induction l as [| y l IH]; intros H x Hx; [contradiction |].
  cbn [existsb] in H. apply orb_false_iff in H. destruct H as [Hy Hl].
  destruct Hx as [<- | Hx]; [assumption | now apply IH].
Qed.

Lemma lyric_lines_In unicode_lower lines x :
  In x (lyric_lines unicode_lower lines) ->
  strip x = x /\ (3 < length x)%nat /\
  forall marker, In marker structural_markers ->
                 startswith (lower unicode_lower x) marker = false.
Proof.
  unfold lyric_lines. intros H. apply in_flat_map in H.
  destruct H as (l & _ & H).
  destruct (strip l) as [| c r] eqn:Hs; [contradiction |].
  rewrite <- Hs in H.
  destruct (existsb _ structural_markers) eqn:He; cbn [negb andb] in H;
    [contradiction |].
  destruct (3 <? length (strip l))%nat eqn:Hlen; [| contradiction].
  destruct H as [<- | []]. split; [apply strip_idempotent |]. split.
  - now apply Nat.ltb_lt.
  - intros marker Hm.
    pose proof (existsb_false_In _ _ He marker Hm) as Hf.
    now apply orb_false_iff in Hf.
Qed.

Lemma fallback_lyric_lines_In unicode_lower text x :
  In x (fallback_lyric_lines unicode_lower text) ->
  strip x = x /\ (3 < length x)%nat /\
  forall marker, In marker structural_markers ->
                 startswith (strip (lower unicode_lower x)) marker = false.
Proof.
  unfold fallback_lyric_lines. intros H. apply in_flat_map in H.
  destruct H as (line & Hline & H).
  apply in_map_iff in Hline. destruct Hline as (l & <- & _).
  rewrite strip_idempotent in H.
  destruct (existsb _ structural_markers) eqn:He; cbn [negb andb] in H;
    [contradiction |].
  destruct (3 <? length (strip l))%nat eqn:Hlen; [| contradiction].
  destruct H as [<- | []]. split; [apply strip_idempotent |]. split.
  - now apply Nat.ltb_lt.
  - intros marker Hm.
    exact (existsb_false_In _ _ He marker Hm).
Qed.

(** X1: the text of every segment [parse_lyrics_timing] returns is a
    trimmed line of more than three characters that, lower-cased (and, on
    the no-data path, trimmed again), starts with none of the structural
    markers. *)
Theorem segment_texts_are_filtered_lines :
  forall unicode_lower float_of_str lyrics_data original_lyrics segments s,
    parse_lyrics_timing unicode_lower float_of_str lyrics_data
      original_lyrics = Ok segments ->
    In s segments ->
    strip (seg_text s) = seg_text s /\
    (3 < length (seg_text s))%nat /\
    ((forall marker, In marker structural_markers ->
        startswith (lower unicode_lower (seg_text s)) marker = false) \/
     (forall marker, In marker structural_markers ->
        startswith (strip (lower unicode_lower (seg_text s))) marker
        = false)).
Proof.
  intros ul fs d o segments s Hp Hs.
  destruct (parse_lyrics_timing_outcome ul fs d o) as (segs & Hp' & Hout).
  rewrite Hp in Hp'. injection Hp' as <-.
  apply (in_map seg_text) in Hs.
  destruct Hout as [| text Hno Ho | clean_words text Hsrc Hcw Hl].
  - contradiction.
  - rewrite estimated_segments_texts in Hs.
    apply fallback_lyric_lines_In in Hs. destruct Hs as (H1 & H2 & H3).
    auto.
  - unfold align in Hs. rewrite align_loop_texts in Hs. cbn [map app] in Hs.
    apply lyric_lines_In in Hs. destruct Hs as (H1 & H2 & H3). auto.
Qed.

Lemma segment_texts_are_filtered_lines_witness :
  strip (seg_text (3%float, 6%float, py "Goodbye now"))
  = seg_text (3%float, 6%float, py "Goodbye now") /\
  (3 < length (seg_text (3%float, 6%float, py "Goodbye now")))%nat /\
  ((forall marker, In marker structural_markers ->
      startswith (lower ascii_only_lower
                    (seg_text (3%float, 6%float, py "Goodbye now")))
        marker = false) \/
   (forall marker, In marker structural_markers ->
      startswith (strip (lower ascii_only_lower
                           (seg_text (3%float, 6%float, py "Goodbye now"))))
        marker = false)).
Proof.
  apply (segment_texts_are_filtered_lines ascii_only_lower no_numeric_strings
           scenario_B_response (Some scenario_B_lyrics)
           [(0%float, 3%float, py "Hello world");
            (3%float, 6%float, py "Goodbye now")]).
  - vm_compute. reflexivity.
  - right. left. reflexivity.
Defined.

Lemma replace_char_In a b x s :
  In x (replace [a] [b] s) -> x = b \/ (In x s /\ x <> a).
Proof.
  cbn [replace]. induction s as [| c s IH]; intros H; [contradiction |].
  cbn [replace_aux startswith length Nat.sub app] in H.
  rewrite startswith_nil, andb_true_r in H.
  destruct (a =? c) eqn:Hac.
  - destruct H as [<- | H]; [now left |].
    destruct (IH H) as [-> | [H1 H2]]; [now left | right].
    split; [now right | assumption].
  - apply Z.eqb_neq in Hac.
    destruct H as [<- | H]; [right; split; [now left | congruence] |].
    destruct (IH H) as [-> | [H1 H2]]; [now left | right].
    split; [now right | assumption].
Qed.

(** X2: a word record that [clean_word] keeps passed the [success] test,
    and its text is non-empty, trimmed, free of line feeds and, lower-cased
    and trimmed, starts with none of the structural markers. *)
Theorem clean_word_kept :
  forall unicode_lower float_of_str word_data w,
    clean_word unicode_lower float_of_str word_data = Ok (Some w) ->
    recognized word_data = Ok true /\
    word w <> [] /\
    strip (word w) = word w /\
    ~ In 10 (word w) /\
    forall marker, In marker structural_markers ->
      startswith (strip (lower unicode_lower (word w))) marker = false.
Proof.
  intros ul fs wd w H. unfold clean_word in H.
  destruct (recognized wd) as [ok |] eqn:Hr; cbn [bind] in H; [| discriminate].
  destruct ok; cbn [negb] in H; [| discriminate].
  destruct (py_get wd "word" (PStr [])) as [v |]; cbn [bind] in H;
    [| discriminate].
  destruct (py_strip v) as [t |]; cbn [bind] in H; [| discriminate].
  destruct t as [| c t]; [discriminate |].
  set (word_text := strip (replace [10] [32] (c :: t))) in *.
  destruct (existsb _ structural_markers) eqn:He; cbn [negb andb] in H;
    [discriminate |].
  destruct (0 <? length word_text)%nat eqn:Hlen; [| discriminate].
  destruct (py_get wd "startS" (PInt 0)); cbn [bind] in H; [| discriminate].
  destruct (py_get wd "endS" (PInt 0)); cbn [bind] in H; [| discriminate].
  destruct (py_float fs a); cbn [bind] in H; [| discriminate].
  destruct (py_float fs a0); cbn [bind] in H; [| discriminate].
  injection H as <-. cbn [word].
  split; [reflexivity |]. split.
  { apply Nat.ltb_lt in Hlen. destruct word_text; [simpl in Hlen; lia |].
    discriminate. }
  split; [apply strip_idempotent |]. split.
  { intros Hin. apply In_strip_with in Hin.
    apply replace_char_In in Hin. destruct Hin as [Hin | [_ Hin]];
      [discriminate | now apply Hin]. }
  intros marker Hm.
  pose proof (existsb_false_In _ _ He marker Hm) as Hf.
  now apply orb_false_iff in Hf.
Qed.

Lemma clean_word_kept_witness :
  recognized (PDict unmarked_word) = Ok true /\
  word (mk_word "Hello" 0 0.5) <> [] /\
  strip (word (mk_word "Hello" 0 0.5)) = word (mk_word "Hello" 0 0.5) /\
  ~ In 10 (word (mk_word "Hello" 0 0.5)) /\
  forall marker, In marker structural_markers ->
    startswith (strip (lower ascii_only_lower (word (mk_word "Hello" 0 0.5))))
      marker = false.
Proof.
  apply (clean_word_kept ascii_only_lower no_numeric_strings
           (PDict unmarked_word) (mk_word "Hello" 0 0.5)).
  vm_compute. reflexivity.
Defined.

(** ** The scan of one line *)

Lemma scan_bounds unicode_lower line_words_text word_index :
  forall rest temp matched line_words,
    matched = length line_words ->
    (matched <= length line_words_text)%nat ->
    (word_index <= temp <= word_index + length line_words_text * 3)%nat ->
    let r := scan unicode_lower line_words_text word_index rest temp matched
               line_words in
    (temp <= snd r <= temp + length rest)%nat /\
    (snd r <= word_index + length line_words_text * 3 + 1)%nat /\
    (length (fst r) <= length line_words_text)%nat.
Proof.
  induction rest as [| word_o rest IH];
    intros temp matched line_words Hm Hle Ht r; subst r; cbn [scan].
  - cbn [fst snd length]. lia.
  - destruct (matched <? length line_words_text)%nat eqn:Hlt;
      [| cbn [fst snd length]; lia].
    apply Nat.ltb_lt in Hlt.
    set (hit := existsb _ _).
    assert (Hm' : (if hit then S matched else matched)
                  = length (if hit then line_words ++ [word_o]
                            else line_words)).
    { destruct hit; [| assumption]. rewrite length_app. simpl. lia. }
    assert (Hle' : ((if hit then S matched else matched)
                    <= length line_words_text)%nat)
      by (destruct hit; lia).
    destruct (length line_words_text * 3 <? S temp - word_index)%nat eqn:Hg.
    + cbn [fst snd length]. rewrite <- Hm'. lia.
    + apply Nat.ltb_ge in Hg.
      specialize (IH (S temp) _ _ Hm' Hle').
      cbv zeta in IH. cbn [length]. 
      assert (Ht' : (word_index <= S temp
                     <= word_index + length line_words_text * 3)%nat) by lia.
      specialize (IH Ht'). lia.
Qed.

(** X3: a line that passes the acceptance test is given at most as many
    words as it has, and its scan moves the cursor forward by at most three
    times its number of words plus one, never beyond the end of the words
    when it started within them. *)
Theorem accepted_line_bounds :
  forall unicode_lower clean_words n_lines line_idx line_text word_index,
    let line_words_text := split (lower unicode_lower line_text) in
    too_few_matches
      (length (fst (scan unicode_lower line_words_text word_index
                      (skipn word_index clean_words) word_index 0 [])))
      (length line_words_text) = false ->
    let r := align_line unicode_lower clean_words n_lines line_idx line_text
               word_index in
    (length (fst r) <= length line_words_text)%nat /\
    (word_index <= snd r <= word_index + length line_words_text * 3 + 1)%nat /\
    ((word_index <= length clean_words)%nat ->
     (snd r <= length clean_words)%nat).
Proof.
  intros ul cw n_lines line_idx line_text wi targets Hacc r. subst r.
  unfold align_line. fold targets.
  pose proof (scan_bounds ul targets wi (skipn wi cw) wi 0 []
                eq_refl (Nat.le_0_l _)) as Hb.
  cbv zeta in Hb.
  destruct (scan ul targets wi (skipn wi cw) wi 0 []) as [line_words temp].
  cbn [fst snd] in *. rewrite Hacc. cbn [fst snd].
  rewrite length_skipn in Hb.
  assert (Hw : (wi <= wi <= wi + length targets * 3)%nat) by lia.
  specialize (Hb Hw). repeat split; lia.
Qed.

Lemma accepted_line_bounds_witness :
  let r := align_line ascii_only_lower six_words 2 0 (py "aaaa bbbb") 0 in
  (length (fst r) <= length (split (lower ascii_only_lower (py "aaaa bbbb"))))%nat
  /\ (0 <= snd r
      <= 0 + length (split (lower ascii_only_lower (py "aaaa bbbb"))) * 3 + 1)%nat
  /\ ((0 <= length six_words)%nat -> (snd r <= length six_words)%nat).
Proof.
  apply (accepted_line_bounds ascii_only_lower six_words 2 0 (py "aaaa bbbb") 0).
  vm_compute. reflexivity.
Defined.

(** ** The slots of the no-data fallback *)

Lemma no_data_fallback_result unicode_lower lyrics_data c text segments :
  no_data_fallback unicode_lower lyrics_data (Some (c :: text)) = Ok segments ->
  segments
  = estimated_segments 0 (fallback_lyric_lines unicode_lower (c :: text)).
Proof.
  unfold no_data_fallback. intros H.
  destruct (if truthy lyrics_data then _ else _) as [v |];
    cbn [bind] in H; [| discriminate].
  destruct (print_formatted v); cbn [bind] in H; [| discriminate].
  destruct (fallback_lyric_lines unicode_lower (c :: text));
    cbn [nonempty] in H; now injection H as <-.
Qed.

Lemma estimated_segments_contiguous lines :
  forall i k s1 s2,
    nth_error (estimated_segments i lines) k = Some s1 ->
    nth_error (estimated_segments i lines) (S k) = Some s2 ->
    seg_end s1 = seg_start s2.
Proof.
  induction lines as [| l lines IH]; intros i k s1 s2 H1 H2.
  - destruct k; discriminate.
  - destruct k as [| k]; cbn [estimated_segments nth_error] in H1, H2.
    + injection H1 as <-. destruct lines as [| l2 lines]; [discriminate |].
      cbn [estimated_segments nth_error] in H2. injection H2 as <-.
      cbn [seg_end seg_start fst snd].
      apply (f_equal float_of_Z). lia.
    + eapply IH; eassumption.
Qed.

(** X4: when the response has no data and original lyrics are given,
    the segments tile the time line: the first starts at 0.0 and each
    segment ends exactly where the next one starts. *)
Theorem fallback_slots_are_contiguous :
  forall unicode_lower float_of_str lyrics_data c text,
    no_data lyrics_data ->
    exists segments,
      parse_lyrics_timing unicode_lower float_of_str lyrics_data
        (Some (c :: text)) = Ok segments /\
      (forall s, nth_error segments 0 = Some s -> seg_start s = 0%float) /\
      (forall k s1 s2,
         nth_error segments k = Some s1 ->
         nth_error segments (S k) = Some s2 ->
         seg_end s1 = seg_start s2).
Proof.
  intros ul fs d c text Hno.
  rewrite (parse_lyrics_timing_no_data_route ul fs d _ Hno).
  destruct (no_data_fallback ul d (Some (c :: text))) as [segments | e] eqn:H;
    cbn [try_except].
  - exists segments. split; [reflexivity |].
    apply no_data_fallback_result in H. subst segments. split.
    + intros s Hs.
      destruct (fallback_lyric_lines ul (c :: text)); [discriminate |].
      cbn [estimated_segments nth_error] in Hs. now injection Hs as <-.
    + apply estimated_segments_contiguous.
  - exists []. split; [reflexivity |]. split.
    + intros s Hs. discriminate.
    + intros [| k] s1 s2 H1; discriminate.
Qed.

Lemma fallback_slots_are_contiguous_witness :
  exists segments,
    parse_lyrics_timing ascii_only_lower no_numeric_strings
      scenario_B_response (Some scenario_B_lyrics) = Ok segments /\
    (forall s, nth_error segments 0 = Some s -> seg_start s = 0%float) /\
    (forall k s1 s2,
       nth_error segments k = Some s1 ->
       nth_error segments (S k) = Some s2 ->
       seg_end s1 = seg_start s2).
Proof.
  apply (fallback_slots_are_contiguous ascii_only_lower no_numeric_strings
           scenario_B_response 86).
  right. eexists. split; [reflexivity |]. right. reflexivity.
Defined.

(** X22: the two top-level cases.  A response without data (empty, or
    with ['data'] absent or [None]) whose message can be printed, with
    non-empty original lyrics, gives one segment for each surviving line of
    the lyrics, in order, the [i]-th from [float(3 i)] to
    [float(3 (i + 1))]; a response whose data is a [dict] with
    ['alignedWords'] absent or empty gives no segment, original lyrics or
    not. *)
Theorem no_data_falls_back_but_no_words_does_not :
  forall unicode_lower float_of_str,
    (forall lyrics_data c text,
       no_data lyrics_data ->
       message_printable lyrics_data ->
       exists segments,
         parse_lyrics_timing unicode_lower float_of_str lyrics_data
           (Some (c :: text)) = Ok segments /\
         map seg_text segments
         = surviving_lines
             (fun line =>
                starts_with_marker (strip (lower unicode_lower line)))
             (c :: text) /\
         forall i s,
           nth_error segments i = Some s ->
           seg_start s = float_of_Z (Z.of_nat i * 3) /\
           seg_end s = float_of_Z ((Z.of_nat i + 1) * 3)) /\
    (forall items data original_lyrics,
       dict_get items (py "data") = Some (PDict data) ->
       (dict_get data (py "alignedWords") = None \/
        exists v, dict_get data (py "alignedWords") = Some v /\
                  truthy v = false) ->
       parse_lyrics_timing unicode_lower float_of_str (PDict items)
         original_lyrics = Ok []).
Proof.
  intros ul fs. split.
  - intros d c text Hno Hmsg.
    exists (estimated_segments 0 (fallback_lyric_lines ul (c :: text))).
    split; [| split].
    + rewrite (parse_lyrics_timing_no_data_route ul fs d _ Hno).
      now rewrite (no_data_fallback_printable ul d c text Hno Hmsg).
    + rewrite estimated_segments_texts.
      apply fallback_lyric_lines_surviving.
    + intros i s Hs.
      set (lines := fallback_lyric_lines ul (c :: text)) in *.
      assert (Hlen : (i < length lines)%nat).
      { rewrite <- (estimated_segments_texts lines 0), length_map.
        apply nth_error_Some. congruence. }
      destruct (nth_error lines i) as [line |] eqn:Hl;
        [| apply nth_error_None in Hl; lia].
      rewrite (estimated_segments_nth lines 0 i line Hl) in Hs.
      injection Hs as <-. split; reflexivity.
  - intros items data o Hd Haw.
    unfold parse_lyrics_timing, parse_lyrics_timing_body.
    assert (Ht : truthy (PDict items) = true).
    { destruct items; [discriminate | reflexivity]. }
    rewrite Ht. cbn [negb bind py_get]. rewrite Hd. cbn [bind is_none py_get].
    destruct Haw as [-> | (v & -> & Hv)]; [reflexivity |].
    now rewrite Hv.
Qed.

Lemma no_data_falls_back_but_no_words_does_not_witness :
  (exists segments,
     parse_lyrics_timing ascii_only_lower no_numeric_strings
       scenario_B_response (Some scenario_B_lyrics) = Ok segments /\
     map seg_text segments
     = surviving_lines
         (fun line => starts_with_marker (strip (lower ascii_only_lower line)))
         scenario_B_lyrics /\
     forall i s,
       nth_error segments i = Some s ->
       seg_start s = float_of_Z (Z.of_nat i * 3) /\
       seg_end s = float_of_Z ((Z.of_nat i + 1) * 3)) /\
  parse_lyrics_timing ascii_only_lower no_numeric_strings
    scenario_C_response (Some scenario_A_lyrics) = Ok [].
Proof.
  destruct (no_data_falls_back_but_no_words_does_not ascii_only_lower
              no_numeric_strings) as [Hfallback Hempty].
  split.
  - refine (Hfallback scenario_B_response 86 _ _ _).
    + right. eexists. split; [reflexivity |]. right. reflexivity.
    + intros items s Hi Hs. injection Hi as <-.
      vm_compute in Hs. injection Hs as <-. reflexivity.
  - refine (Hempty [(py "data", PDict [(py "alignedWords", PList [])])]
              [(py "alignedWords", PList [])] (Some scenario_A_lyrics)
              eq_refl _).
    right. eexists. split; reflexivity.
Defined.

(** Scenario B as the specification gives it. *)
Lemma scenario_B_segments :
  parse_lyrics_timing ascii_only_lower no_numeric_strings scenario_B_response
    (Some scenario_B_lyrics)
  = Ok [(0%float, 3%float, py "Hello world");
        (3%float, 6%float, py "Goodbye now")].
Proof. vm_compute. reflexivity. Qed.

(** ** UTF-8 *)

Lemma range_true lo hi x :
  lo <= x <= hi -> (lo <=? x) && (x <=? hi) = true.
Proof. intros H. apply andb_true_iff. split; apply Z.leb_le; lia. Qed.

Lemma range_false lo hi x :
  x < lo \/ hi < x -> (lo <=? x) && (x <=? hi) = false.
Proof.
  intros H. apply andb_false_iff.
  destruct H; [left | right]; apply Z.leb_gt; lia.
Qed.

Lemma ltb_false a b : b <= a -> (a <? b) = false.
Proof. intros H. apply Z.ltb_ge. lia. Qed.

Lemma decode_utf8_one b0 rest :
  b0 < 128 ->
  decode_utf8 (b0 :: rest) = (s <- decode_utf8 rest ;; Ok (b0 :: s)).
Proof.
  intros H. cbn [decode_utf8].
  now replace (b0 <? 128) with true by (symmetry; apply Z.ltb_lt; lia).
Qed.

Lemma decode_utf8_two b0 b1 rest :
  194 <= b0 <= 223 -> 128 <= b1 <= 191 ->
  decode_utf8 (b0 :: b1 :: rest)
  = (s <- decode_utf8 rest ;; Ok (((b0 - 192) * 64 + (b1 - 128)) :: s)).
Proof.
  intros H0 H1. cbn [decode_utf8]. unfold cont.
  rewrite (ltb_false b0 128) by lia.
  rewrite (range_true 194 223 b0) by lia.
  now rewrite (range_true 128 191 b1) by lia.
Qed.

Lemma second3_true b0 b1 :
  128 <= b1 <= 191 -> (b0 = 224 -> 160 <= b1) -> (b0 = 237 -> b1 <= 159) ->
  second3 b0 b1 = true.
Proof.
  intros H1 Ha Hb. unfold second3, cont.
  destruct (Z.eqb_spec b0 224); [apply range_true; lia |].
  destruct (Z.eqb_spec b0 237); apply range_true; lia.
Qed.

Lemma second4_true b0 b1 :
  128 <= b1 <= 191 -> (b0 = 240 -> 144 <= b1) -> (b0 = 244 -> b1 <= 143) ->
  second4 b0 b1 = true.
Proof.
  intros H1 Ha Hb. unfold second4, cont.
  destruct (Z.eqb_spec b0 240); [apply range_true; lia |].
  destruct (Z.eqb_spec b0 244); apply range_true; lia.
Qed.

Lemma decode_utf8_three b0 b1 b2 rest :
  224 <= b0 <= 239 -> 128 <= b1 <= 191 -> 128 <= b2 <= 191 ->
  (b0 = 224 -> 160 <= b1) -> (b0 = 237 -> b1 <= 159) ->
  decode_utf8 (b0 :: b1 :: b2 :: rest)
  = (s <- decode_utf8 rest ;;
     Ok (((b0 - 224) * 4096 + (b1 - 128) * 64 + (b2 - 128)) :: s)).
Proof.
  intros H0 H1 H2 Ha Hb. cbn [decode_utf8].
  rewrite (ltb_false b0 128) by lia.
  rewrite (range_false 194 223 b0) by lia.
  rewrite (range_true 224 239 b0) by lia.
  rewrite second3_true by assumption. unfold cont.
  now rewrite (range_true 128 191 b2) by lia.
Qed.

Lemma decode_utf8_four b0 b1 b2 b3 rest :
  240 <= b0 <= 244 -> 128 <= b1 <= 191 -> 128 <= b2 <= 191 ->
  128 <= b3 <= 191 ->
  (b0 = 240 -> 144 <= b1) -> (b0 = 244 -> b1 <= 143) ->
  decode_utf8 (b0 :: b1 :: b2 :: b3 :: rest)
  = (s <- decode_utf8 rest ;;
     Ok (((b0 - 240) * 262144 + (b1 - 128) * 4096 + (b2 - 128) * 64
          + (b3 - 128)) :: s)).
Proof.
  intros H0 H1 H2 H3 Ha Hb. cbn [decode_utf8].
  rewrite (ltb_false b0 128) by lia.
  rewrite (range_false 194 223 b0) by lia.
  rewrite (range_false 224 239 b0) by lia.
  rewrite (range_true 240 244 b0) by lia.
  rewrite second4_true by assumption. unfold cont.
  rewrite (range_true 128 191 b2) by lia.
  now rewrite (range_true 128 191 b3) by lia.
Qed.

Lemma is_scalar_range c :
  is_scalar c = true -> 0 <= c <= 1114111 /\ (c < 55296 \/ 57343 < c).
Proof.
  unfold is_scalar. intros Hs.
  apply andb_true_iff in Hs. destruct Hs as [Hr Hsur].
  apply andb_true_iff in Hr. destruct Hr as [H0 H1].
  apply Z.leb_le in H0, H1. split; [lia |].
  apply negb_true_iff, andb_false_iff in Hsur.
  destruct Hsur as [Hsur | Hsur]; apply Z.leb_gt in Hsur; lia.
Qed.

Lemma Some_eq {A} (x y : A) : Some x = Some y -> x = y.
Proof. congruence. Qed.

Lemma decode_utf8_bytes c bs rest :
  utf8_bytes c = Some bs ->
  decode_utf8 (bs ++ rest) = (s <- decode_utf8 rest ;; Ok (c :: s)).
Proof.
  unfold utf8_bytes. intros H.
  destruct (is_scalar c) eqn:Hs; cbn [negb] in H; [| discriminate].
  apply is_scalar_range in Hs. destruct Hs as [Hr Hns].
  destruct (Z.ltb_spec c 128).
  { apply Some_eq in H. subst bs. now apply decode_utf8_one. }
  destruct (Z.ltb_spec c 2048).
  { apply Some_eq in H. subst bs.
    change ([192 + c / 64; 128 + c mod 64] ++ rest)
      with ((192 + c / 64) :: (128 + c mod 64) :: rest).
    rewrite decode_utf8_two by (Z.div_mod_to_equations; lia).
    destruct (decode_utf8 rest); cbn [bind]; [| reflexivity].
    do 2 f_equal. Z.div_mod_to_equations. lia. }
  destruct (Z.ltb_spec c 65536).
  { apply Some_eq in H. subst bs.
    change ([224 + c / 4096; 128 + (c / 64) mod 64; 128 + c mod 64] ++ rest)
      with ((224 + c / 4096) :: (128 + (c / 64) mod 64)
            :: (128 + c mod 64) :: rest).
    rewrite decode_utf8_three by (Z.div_mod_to_equations; lia).
    destruct (decode_utf8 rest); cbn [bind]; [| reflexivity].
    do 2 f_equal. Z.div_mod_to_equations. lia. }
  apply Some_eq in H. subst bs.
  change ([240 + c / 262144; 128 + (c / 4096) mod 64; 128 + (c / 64) mod 64;
           128 + c mod 64] ++ rest)
    with ((240 + c / 262144) :: (128 + (c / 4096) mod 64)
          :: (128 + (c / 64) mod 64) :: (128 + c mod 64) :: rest).
  rewrite decode_utf8_four by (Z.div_mod_to_equations; lia).
  destruct (decode_utf8 rest); cbn [bind]; [| reflexivity].
  do 2 f_equal. Z.div_mod_to_equations. lia.
Qed.

Lemma utf8_bytes_range c bs :
  utf8_bytes c = Some bs ->
  bs <> [] /\ Forall (fun b => 0 <= b <= 255) bs.
Proof.
  unfold utf8_bytes. intros H.
  destruct (is_scalar c) eqn:Hs; cbn [negb] in H; [| discriminate].
  apply is_scalar_range in Hs. destruct Hs as [Hr Hns].
  destruct (Z.ltb_spec c 128); [| destruct (Z.ltb_spec c 2048);
    [| destruct (Z.ltb_spec c 65536)]];
    apply Some_eq in H; subst bs; (split; [discriminate |]);
    repeat constructor; Z.div_mod_to_equations; lia.
Qed.

Lemma encode_latin1_bytes bs :
  Forall (fun b => 0 <= b <= 255) bs -> encode_latin1 bs = Ok bs.
Proof.
  induction 1 as [| b bs Hb Hbs IH]; [reflexivity |].
  cbn [encode_latin1]. rewrite (range_true 0 255 b) by lia.
  now rewrite IH.
Qed.

Lemma encode_utf8_decode s :
  forall bs, encode_utf8 s = Ok bs ->
             decode_utf8 bs = Ok s /\
             Forall (fun b => 0 <= b <= 255) bs /\
             (s <> [] -> bs <> []).
Proof.
  induction s as [| c s IH]; intros bs H; cbn [encode_utf8] in H.
  - injection H as <-. repeat split; [constructor | congruence].
  - destruct (utf8_bytes c) as [b |] eqn:Hc; [| discriminate].
    destruct (encode_utf8 s) as [tail |]; cbn [bind] in H; [| discriminate].
    injection H as <-.
    destruct (IH tail eq_refl) as (Hd & Hr & _).
    destruct (utf8_bytes_range c b Hc) as (Hne & Hb).
    split; [| split].
    + rewrite (decode_utf8_bytes c b tail Hc), Hd. reflexivity.
    + apply Forall_app. now split.
    + intros _ Happ. apply app_eq_nil in Happ. now destruct Happ.
Qed.

Lemma encode_utf8_not_scalar s :
  forallb is_scalar s = false -> encode_utf8 s = Raise UnicodeEncodeError.
Proof.
  induction s as [| c s IH]; intros H; [discriminate |].
  cbn [forallb] in H. cbn [encode_utf8]. unfold utf8_bytes.
  destruct (is_scalar c); cbn [negb andb] in *; [| reflexivity].
  rewrite (IH H).
  now destruct (if c <? 128 then _ else _).
Qed.

Lemma encode_utf8_scalar s :
  forallb is_scalar s = true -> exists bs, encode_utf8 s = Ok bs.
Proof.
  induction s as [| c s IH]; intros H; [now exists [] |].
  cbn [forallb] in H. apply andb_true_iff in H. destruct H as [Hc Hs].
  destruct (IH Hs) as [tail Ht]. cbn [encode_utf8]. unfold utf8_bytes.
  rewrite Hc, Ht. cbn [negb bind].
  destruct (c <? 128); [eauto |].
  destruct (c <? 2048); [eauto |].
  destruct (c <? 65536); eauto.
Qed.

(** X5: UTF-8 round trip.  A string of scalar values encodes, and its
    bytes decode to the string again; a string with a surrogate (or a value
    that is no code point) does not encode. *)
Theorem utf8_round_trip :
  forall s,
    (forallb is_scalar s = true ->
     exists bs, encode_utf8 s = Ok bs /\ decode_utf8 bs = Ok s) /\
    (forallb is_scalar s = false ->
     encode_utf8 s = Raise UnicodeEncodeError).
Proof.
  intros s. split.
  - intros H. destruct (encode_utf8_scalar s H) as [bs Hbs].
    exists bs. split; [assumption |]. now apply encode_utf8_decode.
  - apply encode_utf8_not_scalar.
Qed.

Lemma utf8_round_trip_witness :
  exists bs, encode_utf8 [67; 97; 102; 233; 8364; 128512] = Ok bs /\
             decode_utf8 bs = Ok [67; 97; 102; 233; 8364; 128512].
Proof.
  apply (proj1 (utf8_round_trip [67; 97; 102; 233; 8364; 128512])).
  vm_compute. reflexivity.
Defined.

(** X6: the normalizer repairs text that was encoded as UTF-8 and read as
    Latin-1: given the bytes of any string as characters, it returns the
    string. *)
Theorem normalizer_repairs_latin1_misreading :
  forall text bs,
    encode_utf8 text = Ok bs ->
    fix_double_utf8_encoding bs = Ok text.
Proof.
  intros text bs H.
  destruct (encode_utf8_decode text bs H) as (Hd & Hr & Hne).
  unfold fix_double_utf8_encoding.
  destruct bs as [| b bs].
  - destruct text as [| c text]; [reflexivity |].
    now destruct (Hne ltac:(discriminate)).
  - unfold reinterpret. rewrite (encode_latin1_bytes _ Hr). cbn [bind].
    now rewrite Hd.
Qed.

Lemma normalizer_repairs_latin1_misreading_witness :
  fix_double_utf8_encoding [67; 97; 102; 195; 169; 226; 130; 172]
  = Ok [67; 97; 102; 233; 8364].
Proof.
  apply (normalizer_repairs_latin1_misreading [67; 97; 102; 233; 8364]).
  vm_compute. reflexivity.
Defined.

Lemma fix_double_utf8_encoding_returns text :
  exists fixed, fix_double_utf8_encoding text = Ok fixed.
Proof.
  unfold fix_double_utf8_encoding. destruct text as [| c text]; [eauto |].
  destruct (reinterpret (c :: text)) as [fixed | e] eqn:Hr;
    [cbn [except_unicode]; eauto |].
  destruct (reinterpret_raises _ _ Hr) as [-> | ->]; cbn; eauto.
Qed.

(** X7: the text a segment is drawn with is its normalized text; the pass
    through UTF-8 changes nothing unless the normalized text holds a
    surrogate, in which case the original text is used with its accented
    letters (U+00E9, U+00E8, U+00E0, U+00E7) replaced by plain ones.  No
    text makes the step raise. *)
Theorem display_text_is_normalized_text :
  forall text,
  exists fixed,
    fix_double_utf8_encoding text = Ok fixed /\
    display_text text
    = Ok (if forallb is_scalar fixed then fixed else strip_accents text).
Proof.
  intros text.
  destruct (fix_double_utf8_encoding_returns text) as [fixed Hf].
  exists fixed. split; [assumption |].
  unfold display_text. rewrite Hf. cbn [bind].
  destruct (forallb is_scalar fixed) eqn:Hs.
  - destruct (encode_utf8_scalar fixed Hs) as [bs Hbs].
    rewrite Hbs. cbn [bind].
    destruct (encode_utf8_decode fixed bs Hbs) as (-> & _). reflexivity.
  - now rewrite (encode_utf8_not_scalar fixed Hs).
Qed.

(** A lone surrogate sends the text to the accent-stripping branch. *)
Lemma display_text_of_a_surrogate :
  display_text [233; 55357] = Ok [101; 55357].
Proof. vm_compute. reflexivity. Qed.

(** ** Video dimensions *)

Lemma make_even_even n : Z.even (make_even n) = true /\ make_even n <= n.
Proof.
  unfold make_even. destruct (Z.eqb_spec (n mod 2) 0) as [H | H].
  - split; [| lia]. apply Z.even_spec. exists (n / 2).
    Z.div_mod_to_equations. lia.
  - split; [| lia]. apply Z.even_spec. exists (n / 2).
    Z.div_mod_to_equations. lia.
Qed.

(** X8: when [calculate_720p_dimensions] returns, an image within
    1280x720 keeps its size as it is (odd sizes included); for any other
    image both returned dimensions are even and the height is at most
    720. *)
Theorem calculate_720p_dimensions_result :
  forall original_width original_height size,
    calculate_720p_dimensions original_width original_height
    = Returns size ->
    (original_height <= 720 /\ original_width <= 1280 ->
     size = (original_width, original_height)) /\
    (~ (original_height <= 720 /\ original_width <= 1280) ->
     Z.even (fst size) = true /\ Z.even (snd size) = true /\
     snd size <= 720).
Proof.
  intros w h size H. unfold calculate_720p_dimensions in H.
  destruct ((h <=? 720) && (w <=? 1280)) eqn:Hin.
  - apply andb_true_iff in Hin. destruct Hin as [Hh Hw].
    apply Z.leb_le in Hh, Hw. injection H as <-.
    split; [reflexivity | intros Hn; exfalso; apply Hn; lia].
  - split.
    { intros [Hh Hw]. apply Z.leb_le in Hh, Hw. rewrite Hh, Hw in Hin.
      discriminate. }
    intros _.
    destruct (int_truediv w h) as [aspect_ratio |]; cbn [and_then] in H;
      [| discriminate].
    match type of H with
    | and_then ?c _ = _ => destruct c as [size1 |]
    end; cbn [and_then] in H; [| discriminate].
    match type of H with
    | and_then ?c _ = _ => destruct c as [size2 |]
    end; cbn [and_then] in H; [| discriminate].
    match type of H with
    | and_then ?c _ = _ => destruct c as [size3 |] eqn:H3
    end; cbn [and_then] in H; [| discriminate].
    injection H as <-. cbn [fst snd].
    destruct (make_even_even (fst size3)) as [He1 _].
    destruct (make_even_even (snd size3)) as [He2 Hle].
    split; [assumption |]. split; [assumption |].
    assert (Hs : snd size3 <= 720).
    { destruct (Z.ltb_spec 720 (snd size2)).
      - destruct (int_of_float _); cbn [and_then] in H3; [| discriminate].
        injection H3 as <-. cbn [snd]. lia.
      - injection H3 as <-. assumption. }
    lia.
Qed.

Lemma calculate_720p_dimensions_result_witness :
  (3000 <= 720 /\ 4000 <= 1280 -> (960, 720) = (4000, 3000)) /\
  (~ (3000 <= 720 /\ 4000 <= 1280) ->
   Z.even (fst (960, 720)) = true /\ Z.even (snd (960, 720)) = true /\
   snd (960, 720) <= 720).
Proof.
  apply (calculate_720p_dimensions_result 4000 3000 (960, 720)).
  vm_compute. reflexivity.
Defined.

(** A wide image and a small odd one. *)
Lemma calculate_720p_dimensions_examples :
  calculate_720p_dimensions 3000 500 = Returns (1280, 212) /\
  calculate_720p_dimensions 333 333 = Returns (333, 333) /\
  calculate_720p_dimensions 2000 0 = Fails ZeroDivisionError.
Proof. repeat split; vm_compute; reflexivity. Qed.

(** ** The metadata file *)

Lemma str_eqb_eq a : forall b, PyStr.eqb a b = true <-> a = b.
Proof.
  induction a as [| x a IH]; intros [| y b]; cbn [PyStr.eqb];
    try (split; [discriminate | discriminate]); [tauto |].
  rewrite andb_true_iff, Z.eqb_eq, IH. split.
  - now intros [-> ->].
  - intros H. injection H as -> ->. auto.
Qed.

Lemma str_eqb_refl a : PyStr.eqb a a = true.
Proof. now apply str_eqb_eq. Qed.

Lemma str_eqb_neq a b : a <> b -> PyStr.eqb a b = false.
Proof.
  intros H. destruct (PyStr.eqb a b) eqn:E; [| reflexivity].
  now apply str_eqb_eq in E.
Qed.

Lemma dict_get_set_same d key x : dict_get (dict_set d key x) key = Some x.
Proof.
  induction d as [| [k v] d IH]; cbn [dict_set dict_get].
  - now rewrite str_eqb_refl.
  - destruct (PyStr.eqb k key) eqn:E; cbn [dict_get]; now rewrite E.
Qed.

Lemma dict_get_set_other d key x other :
  other <> key -> dict_get (dict_set d key x) other = dict_get d other.
Proof.
  intros Hne. induction d as [| [k v] d IH]; cbn [dict_set dict_get].
  - rewrite str_eqb_neq; [reflexivity | congruence].
  - destruct (PyStr.eqb k key) eqn:E; cbn [dict_get].
    + apply str_eqb_eq in E. subst k.
      rewrite str_eqb_neq; [reflexivity | congruence].
    + now rewrite IH.
Qed.

(** What a successful save wrote. *)
Lemma with_timestamp_data_shape f music_filename timestamp_data saved :
  with_timestamp_data f music_filename timestamp_data = Some saved ->
  exists d entry,
    (f = NoFile /\ d = [] \/ f = Json (PDict d)) /\
    (dict_get d music_filename = None /\ entry = []
     \/ dict_get d music_filename = Some (PDict entry)) /\
    saved = PDict (dict_set
                     (match dict_get d music_filename with
                      | Some _ => d
                      | None => dict_set d music_filename (PDict [])
                      end)
                     music_filename
                     (PDict (dict_set entry (py "timestamped_lyrics")
                               timestamp_data))).
Proof.
  unfold with_timestamp_data. intros H.
  assert (Hroot : exists d, (f = NoFile /\ d = [] \/ f = Json (PDict d)) /\
            match f with NoFile => Some (PDict []) | _ => load_json f end
            = Some (PDict d)).
  { destruct f as [| | v]; [exists []; auto | discriminate |].
    destruct v as [| b | z | x | s | l | d];
      try (exfalso; cbn [load_json py_contains] in H;
           match type of H with
           | context [if ?b then _ else _] => destruct b
           | _ => idtac
           end; discriminate).
    exists d. split; [right |]; reflexivity. }
  destruct Hroot as (d & Hf & Hroot). rewrite Hroot in H.
  cbn [py_contains] in H.
  destruct (dict_get d music_filename) as [e |] eqn:He.
  - cbn [py_getitem] in H. rewrite He in H.
    destruct e as [| | | | | | entry]; try discriminate.
    cbn [py_setitem] in H. injection H as <-.
    exists d, entry. rewrite He. auto.
  - cbn [py_setitem py_getitem] in H. rewrite dict_get_set_same in H.
    cbn [py_setitem] in H. injection H as <-.
    exists d, []. rewrite He. auto.
Qed.

Lemma utf8_writable_set d key x :
  utf8_writable (PDict d) = true ->
  forallb is_scalar key = true ->
  utf8_writable x = true ->
  utf8_writable (PDict (dict_set d key x)) = true.
Proof.
  intros Hd Hk Hx. cbn [utf8_writable] in *.
  induction d as [| [k v] d IH]; cbn [dict_set forallb] in *.
  - now rewrite Hk, Hx.
  - apply andb_true_iff in Hd. destruct Hd as [Hkv Hd].
    apply andb_true_iff in Hkv. destruct Hkv as [Hk' Hv].
    destruct (PyStr.eqb k key); cbn [forallb].
    + now rewrite Hk', Hx, Hd.
    + now rewrite Hk', Hv, IH.
Qed.

Lemma utf8_writable_set_inv d key x :
  utf8_writable (PDict (dict_set d key x)) = true ->
  forallb is_scalar key = true /\ utf8_writable x = true.
Proof.
  cbn [utf8_writable].
  induction d as [| [k v] d IH]; cbn [dict_set forallb]; intros H.
  - rewrite andb_true_r in H. now apply andb_true_iff in H.
  - destruct (PyStr.eqb k key) eqn:E; cbn [forallb] in H;
      apply andb_true_iff in H; destruct H as [Hkv Hd].
    + apply str_eqb_eq in E. subst k. now apply andb_true_iff in Hkv.
    + now apply IH.
Qed.

Lemma utf8_writable_get d key x :
  utf8_writable (PDict d) = true ->
  dict_get d key = Some x ->
  utf8_writable x = true.
Proof.
  cbn [utf8_writable].
  induction d as [| [k v] d IH]; cbn [dict_get forallb]; intros Hd Hg;
    [discriminate |].
  apply andb_true_iff in Hd. destruct Hd as [Hkv Hd].
  apply andb_true_iff in Hkv. destruct Hkv as [_ Hv].
  destruct (PyStr.eqb k key); [now injection Hg as <- | now apply IH].
Qed.

(** A save returns [True] exactly when the value to write exists and can
    be encoded. *)
Lemma save_timestamp_data_true music_filename timestamp_data f f' :
  save_timestamp_data_to_json music_filename timestamp_data f = (true, f') <->
  exists saved,
    with_timestamp_data f music_filename timestamp_data = Some saved /\
    utf8_writable saved = true /\
    f' = Json saved.
Proof.
  unfold save_timestamp_data_to_json. split.
  - intros H.
    destruct (with_timestamp_data f music_filename timestamp_data)
      as [saved |]; [| discriminate].
    destruct (utf8_writable saved) eqn:Hw; [| discriminate].
    destruct (py_print music_filename); [| discriminate].
    injection H as <-. eauto.
  - intros (saved & Hs & Hw & ->). rewrite Hs, Hw.
    destruct (with_timestamp_data_shape _ _ _ _ Hs) as (d & entry & _ & _ & E).
    rewrite E in Hw. apply utf8_writable_set_inv in Hw.
    now rewrite (py_print_scalars _ (proj1 Hw)).
Qed.

Lemma save_timestamp_data_printable music_filename timestamp_data f f' :
  save_timestamp_data_to_json music_filename timestamp_data f = (true, f') ->
  forallb is_scalar music_filename = true /\
  utf8_writable timestamp_data = true.
Proof.
  intros H. apply save_timestamp_data_true in H.
  destruct H as (saved & Hs & Hw & _).
  destruct (with_timestamp_data_shape _ _ _ _ Hs) as (d & entry & _ & _ & E).
  rewrite E in Hw. apply utf8_writable_set_inv in Hw.
  destruct Hw as [Hname Hentry]. split; [exact Hname |].
  now apply utf8_writable_set_inv in Hentry.
Qed.

Lemma saved_is_found music_filename timestamp_data f f' :
  save_timestamp_data_to_json music_filename timestamp_data f = (true, f') ->
  get_cached_timestamp_data music_filename f'
  = if truthy timestamp_data then timestamp_data else PNone.
Proof.
  intros H.
  destruct (save_timestamp_data_printable _ _ _ _ H) as [Hname _].
  apply save_timestamp_data_true in H. destruct H as (saved & Hw & _ & ->).
  destruct (with_timestamp_data_shape _ _ _ _ Hw) as (d & entry & _ & _ & ->).
  unfold get_cached_timestamp_data.
  cbn [load_json py_contains py_getitem]. rewrite dict_get_set_same.
  cbn [py_get]. rewrite dict_get_set_same.
  now rewrite (py_print_scalars _ Hname).
Qed.

(** X9: what [save_timestamp_data_to_json] stored is what
    [get_cached_timestamp_data] finds: after a save that returned [True],
    the lookup of the same file name returns the saved data, or [None] when
    the data is falsy. *)
Theorem saved_timestamp_data_is_found :
  forall music_filename timestamp_data f f',
    save_timestamp_data_to_json music_filename timestamp_data f = (true, f') ->
    get_cached_timestamp_data music_filename f'
    = if truthy timestamp_data then timestamp_data else PNone.
Proof. intros name data f f'. apply saved_is_found. Qed.

Lemma saved_timestamp_data_is_found_witness :
  get_cached_timestamp_data (py "Song_1")
    (Json (PDict [(py "Song_1",
                   PDict [(py "timestamped_lyrics", scenario_A_response)])]))
  = if truthy scenario_A_response then scenario_A_response else PNone.
Proof.
  apply (saved_timestamp_data_is_found (py "Song_1") scenario_A_response NoFile).
  vm_compute. reflexivity.
Defined.

Lemma writable_saves music_filename timestamp_data f :
  writable music_filename f ->
  exists saved,
    with_timestamp_data f music_filename timestamp_data = Some saved.
Proof.
  unfold with_timestamp_data.
  intros [-> | (d & -> & [Hd | [entry Hd]])].
  - cbn [py_contains dict_get py_setitem py_getitem dict_set].
    rewrite str_eqb_refl. cbn [py_setitem]. eauto.
  - cbn [load_json py_contains]. rewrite Hd.
    cbn [py_setitem py_getitem]. rewrite dict_get_set_same.
    cbn [py_setitem]. eauto.
  - cbn [load_json py_contains]. rewrite Hd. cbn [py_getitem]. rewrite Hd.
    cbn [py_setitem]. eauto.
Qed.

Lemma saves_writable music_filename timestamp_data f saved :
  with_timestamp_data f music_filename timestamp_data = Some saved ->
  writable music_filename f.
Proof.
  intros Hw.
  destruct (with_timestamp_data_shape _ _ _ _ Hw) as (d & entry & Hf & He & _).
  destruct Hf as [[-> _] | ->]; [now left | right].
  exists d. split; [reflexivity |].
  destruct He as [[He _] | He]; [now left | right; eauto].
Qed.

(** The value a save writes can be encoded when the file, the name and the
    data can. *)
Lemma saved_data_writable music_filename timestamp_data f saved :
  with_timestamp_data f music_filename timestamp_data = Some saved ->
  file_encodable f ->
  forallb is_scalar music_filename = true ->
  utf8_writable timestamp_data = true ->
  utf8_writable saved = true.
Proof.
  intros Hw Hf Hname Hdata.
  destruct (with_timestamp_data_shape _ _ _ _ Hw)
    as (d & entry & Hroot & He & ->).
  assert (Hd : utf8_writable (PDict d) = true).
  { destruct Hroot as [[_ ->] | ->]; [reflexivity | exact Hf]. }
  assert (Hentry : utf8_writable (PDict entry) = true).
  { destruct He as [[_ ->] | He]; [reflexivity |].
    exact (utf8_writable_get d music_filename _ Hd He). }
  apply utf8_writable_set; [| exact Hname |].
  - destruct (dict_get d music_filename); [exact Hd |].
    now apply utf8_writable_set.
  - now apply utf8_writable_set.
Qed.

Lemma save_timestamp_data_succeeds music_filename timestamp_data f :
  writable music_filename f ->
  file_encodable f ->
  forallb is_scalar music_filename = true ->
  utf8_writable timestamp_data = true ->
  exists saved,
    save_timestamp_data_to_json music_filename timestamp_data f
    = (true, Json saved).
Proof.
  intros Hwr Hf Hn Hd.
  destruct (writable_saves music_filename timestamp_data f Hwr) as [saved Hs].
  exists saved. apply save_timestamp_data_true. exists saved.
  split; [exact Hs |]. split; [| reflexivity].
  exact (saved_data_writable _ _ _ _ Hs Hf Hn Hd).
Qed.

(** X10: when what the file holds can be written as UTF-8,
    [save_timestamp_data_to_json] returns [True] exactly when the file is
    absent or holds a [dict] in which the song has no entry or a [dict]
    entry, and neither the file name nor the data holds a lone surrogate.
    When the file cannot take the data the call returns [False] and leaves
    the file as it was; when it can, but the name or the data holds a lone
    surrogate, the call returns [False] and leaves a file that is not
    JSON. *)
Theorem save_timestamp_data_succeeds_iff :
  forall music_filename timestamp_data f,
    (file_encodable f ->
     (fst (save_timestamp_data_to_json music_filename timestamp_data f) = true
      <-> writable music_filename f /\
          forallb is_scalar music_filename = true /\
          utf8_writable timestamp_data = true)) /\
    (~ writable music_filename f ->
     save_timestamp_data_to_json music_filename timestamp_data f = (false, f)) /\
    (writable music_filename f ->
     forallb is_scalar music_filename = false \/
     utf8_writable timestamp_data = false ->
     save_timestamp_data_to_json music_filename timestamp_data f
     = (false, Garbled)).
Proof.
  intros name data f. split; [| split].
  - intros Hf. split.
    + intros H.
      destruct (save_timestamp_data_to_json name data f) as [b f'] eqn:Hs.
      cbn [fst] in H. subst b.
      destruct (save_timestamp_data_printable _ _ _ _ Hs) as [Hn Hd].
      apply save_timestamp_data_true in Hs.
      destruct Hs as (saved & Hw & _ & _).
      split; [exact (saves_writable _ _ _ _ Hw) | auto].
    + intros (Hwr & Hn & Hd).
      destruct (save_timestamp_data_succeeds name data f Hwr Hf Hn Hd)
        as [saved E].
      now rewrite E.
  - intros Hnw. unfold save_timestamp_data_to_json.
    destruct (with_timestamp_data f name data) as [saved |] eqn:Hw;
      [| reflexivity].
    destruct Hnw. exact (saves_writable _ _ _ _ Hw).
  - intros Hwr Hbad. unfold save_timestamp_data_to_json.
    destruct (writable_saves name data f Hwr) as [saved Hs]. rewrite Hs.
    destruct (utf8_writable saved) eqn:Hw; [| reflexivity].
    exfalso.
    destruct (with_timestamp_data_shape _ _ _ _ Hs) as (d & entry & _ & _ & E).
    rewrite E in Hw. apply utf8_writable_set_inv in Hw.
    destruct Hw as [Hn He]. apply utf8_writable_set_inv in He.
    destruct Hbad as [Hbad | Hbad]; [congruence |].
    destruct He as [_ He]. congruence.
Qed.

Lemma save_timestamp_data_succeeds_iff_witness :
  fst (save_timestamp_data_to_json (py "Song_2") scenario_A_response
         two_songs) = true /\
  save_timestamp_data_to_json (py "Song_2") scenario_A_response Garbled
  = (false, Garbled) /\
  save_timestamp_data_to_json (py "Song_2") unwritable_response two_songs
  = (false, Garbled).
Proof.
  split; [| split].
  - apply (proj1 (save_timestamp_data_succeeds_iff (py "Song_2")
                    scenario_A_response two_songs)).
    + vm_compute. reflexivity.
    + split; [| split; vm_compute; reflexivity].
      right. eexists. split; [reflexivity |]. right. eexists. reflexivity.
  - apply (proj1 (proj2 (save_timestamp_data_succeeds_iff (py "Song_2")
                           scenario_A_response Garbled))).
    intros [H | (d & H & _)]; discriminate.
  - apply (proj2 (proj2 (save_timestamp_data_succeeds_iff (py "Song_2")
                           unwritable_response two_songs))).
    + right. eexists. split; [reflexivity |]. right. eexists. reflexivity.
    + right. vm_compute. reflexivity.
Defined.

(** X11: a successful save changes nothing else: the other songs of the
    file and the other fields of the song's entry are as before, and the
    entry's ['timestamped_lyrics'] is the saved data. *)
Theorem save_timestamp_data_preserves_the_rest :
  forall music_filename timestamp_data f f',
    save_timestamp_data_to_json music_filename timestamp_data f = (true, f') ->
    exists d entry d' entry',
      (f = NoFile /\ d = [] \/ f = Json (PDict d)) /\
      (dict_get d music_filename = None /\ entry = []
       \/ dict_get d music_filename = Some (PDict entry)) /\
      f' = Json (PDict d') /\
      dict_get d' music_filename = Some (PDict entry') /\
      (forall other, other <> music_filename ->
                     dict_get d' other = dict_get d other) /\
      (forall key, key <> py "timestamped_lyrics" ->
                   dict_get entry' key = dict_get entry key) /\
      dict_get entry' (py "timestamped_lyrics") = Some timestamp_data.
Proof.
  intros name data f f' H.
  apply save_timestamp_data_true in H. destruct H as (saved & Hw & _ & ->).
  destruct (with_timestamp_data_shape _ _ _ _ Hw)
    as (d & entry & Hf & He & ->).
  eexists d, entry, _, _. split; [exact Hf |]. split; [exact He |].
  split; [reflexivity |]. split; [apply dict_get_set_same |].
  split; [| split].
  - intros other Hne. rewrite dict_get_set_other by assumption.
    destruct (dict_get d name); [reflexivity |].
    now apply dict_get_set_other.
  - intros key Hne. now apply dict_get_set_other.
  - apply dict_get_set_same.
Qed.

Lemma save_timestamp_data_preserves_the_rest_witness :
  exists d entry d' entry',
    (two_songs = NoFile /\ d = [] \/ two_songs = Json (PDict d)) /\
    (dict_get d (py "Song_2") = None /\ entry = []
     \/ dict_get d (py "Song_2") = Some (PDict entry)) /\
    snd (save_timestamp_data_to_json (py "Song_2") scenario_A_response
           two_songs) = Json (PDict d') /\
    dict_get d' (py "Song_2") = Some (PDict entry') /\
    (forall other, other <> py "Song_2" ->
                   dict_get d' other = dict_get d other) /\
    (forall key, key <> py "timestamped_lyrics" ->
                 dict_get entry' key = dict_get entry key) /\
    dict_get entry' (py "timestamped_lyrics") = Some scenario_A_response.
Proof.
  apply (save_timestamp_data_preserves_the_rest (py "Song_2")
           scenario_A_response two_songs).
  vm_compute. reflexivity.
Defined.

(** ** The cache of timestamped lyrics *)

Lemma get_cached_after_save music_filename timestamp_data f :
  writable music_filename f ->
  file_encodable f ->
  forallb is_scalar music_filename = true ->
  utf8_writable timestamp_data = true ->
  truthy timestamp_data = true ->
  get_cached_timestamp_data music_filename
    (snd (save_timestamp_data_to_json music_filename timestamp_data f))
  = timestamp_data.
Proof.
  intros Hw Hf Hn Hd Ht.
  destruct (save_timestamp_data_succeeds music_filename timestamp_data f
              Hw Hf Hn Hd) as [saved Hs].
  rewrite Hs. cbn [snd]. rewrite (saved_is_found _ _ _ _ Hs).
  now rewrite Ht.
Qed.

Lemma encode_utf8_ok_scalars s :
  forall bs, encode_utf8 s = Ok bs -> forallb is_scalar s = true.
Proof.
  induction s as [| c s IH]; intros bs H; [reflexivity |].
  cbn [encode_utf8] in H. cbn [forallb].
  unfold utf8_bytes in H. destruct (is_scalar c); [| discriminate].
  cbn [negb andb] in *.
  destruct (encode_utf8 s) as [tail |].
  - now apply (IH tail).
  - exfalso. destruct (c <? 128); [discriminate |].
    destruct (c <? 2048); [discriminate |].
    destruct (c <? 65536); discriminate.
Qed.

Lemma py_print_ok_scalars s u :
  py_print s = Ok u -> forallb is_scalar s = true.
Proof.
  unfold py_print. intros H.
  destruct (encode_utf8 s) as [bs |] eqn:E; [| discriminate].
  exact (encode_utf8_ok_scalars s bs E).
Qed.

Lemma encode_utf8_raises s :
  forall e, encode_utf8 s = Raise e -> e = UnicodeEncodeError.
Proof.
  induction s as [| c s IH]; intros e H; [discriminate |].
  cbn [encode_utf8] in H. destruct (utf8_bytes c); [| congruence].
  destruct (encode_utf8 s) as [tail | e'];
    cbn [bind] in H; [discriminate |].
  injection H as <-. now apply IH.
Qed.

Lemma py_print_raises s e : py_print s = Raise e -> e = UnicodeEncodeError.
Proof.
  unfold py_print. intros H.
  destruct (encode_utf8 s) as [bs | e'] eqn:He;
    cbn [bind] in H; [discriminate |].
  injection H as <-. exact (encode_utf8_raises s e' He).
Qed.

Lemma cache_is_valid_truthy cached_data :
  cache_is_valid cached_data = Ok true -> truthy cached_data = true.
Proof.
  unfold cache_is_valid. intros H.
  destruct cached_data as [| | | | | | d]; try discriminate.
  destruct d; [discriminate | reflexivity].
Qed.

Lemma get_cached_truthy_printed music_filename f :
  truthy (get_cached_timestamp_data music_filename f) = true ->
  py_print music_filename = Ok tt.
Proof.
  unfold get_cached_timestamp_data. intros H.
  destruct f as [| | v]; try discriminate. cbn [load_json] in H.
  destruct (py_contains v music_filename) as [[|] |]; try discriminate.
  destruct (py_getitem v music_filename) as [entry |]; [| discriminate].
  destruct (py_get entry "timestamped_lyrics" PNone) as [data |];
    [| discriminate].
  destruct (truthy data); [| discriminate].
  destruct (py_print music_filename) as [[] |]; [reflexivity | discriminate].
Qed.

Lemma cache_hit music_filename fresh_data f :
  cache_is_valid (get_cached_timestamp_data music_filename f) = Ok true ->
  get_timestamped_lyrics_with_cache music_filename fresh_data f
  = Ok (get_cached_timestamp_data music_filename f, f).
Proof.
  intros Hv. unfold get_timestamped_lyrics_with_cache.
  pose proof (cache_is_valid_truthy _ Hv) as Ht.
  pose proof (get_cached_truthy_printed _ _ Ht) as Hp.
  rewrite Ht, Hv. cbn [bind]. rewrite Hp. reflexivity.
Qed.

Lemma cache_miss music_filename fresh_data f r f1 :
  get_timestamped_lyrics_with_cache music_filename fresh_data f = Ok (r, f1) ->
  cache_is_valid (get_cached_timestamp_data music_filename f) <> Ok true ->
  forallb is_scalar music_filename = true /\
  r = fresh_data /\
  f1 = if truthy fresh_data
       then snd (save_timestamp_data_to_json music_filename fresh_data f)
       else f.
Proof.
  unfold get_timestamped_lyrics_with_cache. intros H Hn.
  set (c := get_cached_timestamp_data music_filename f) in *.
  assert (Hrest : (_ <- py_print music_filename ;;
                   (if truthy fresh_data
                    then Ok (fresh_data,
                             snd (save_timestamp_data_to_json music_filename
                                    fresh_data f))
                    else Ok (fresh_data, f))) = Ok (r, f1) ->
                  forallb is_scalar music_filename = true /\
                  r = fresh_data /\
                  f1 = if truthy fresh_data
                       then snd (save_timestamp_data_to_json music_filename
                                   fresh_data f)
                       else f).
  { intros Hr. destruct (py_print music_filename) as [u |] eqn:Hp;
      cbn [bind] in Hr; [| discriminate].
    split; [exact (py_print_ok_scalars _ _ Hp) |].
    destruct (truthy fresh_data); now injection Hr as <- <-. }
  destruct (truthy c).
  - destruct (cache_is_valid c) as [[|] |]; cbn [bind] in H;
      [congruence | | discriminate].
    destruct (py_get c "data" PNone) as [d |]; cbn [bind] in H;
      [| discriminate].
    destruct (if is_none d then _ else _); cbn [bind] in H; [| discriminate].
    destruct (py_print music_filename) as [u |] eqn:Hp; cbn [bind] in H;
      [| discriminate].
    apply Hrest. cbn [bind]. exact H.
  - cbn [bind] in H. now apply Hrest.
Qed.

(** X12: the cache is used.  When the metadata file can take the data,
    what it holds can be written as UTF-8, and a call of
    [get_timestamped_lyrics_with_cache] returned a response with aligned
    words that holds no lone surrogate, every later call for the same song
    returns that same response and leaves the file as it is, whatever the
    API would answer. *)
Theorem cached_lyrics_are_reused :
  forall music_filename fresh_data f r f1,
    writable music_filename f ->
    file_encodable f ->
    utf8_writable r = true ->
    get_timestamped_lyrics_with_cache music_filename fresh_data f
    = Ok (r, f1) ->
    cache_is_valid r = Ok true ->
    forall fresh_data',
      get_timestamped_lyrics_with_cache music_filename fresh_data' f1
      = Ok (r, f1).
Proof.
  intros name fresh f r f1 Hw Hf Hr H Hv fresh'.
  assert (Hmiss : cache_is_valid (get_cached_timestamp_data name f) <> Ok true ->
                  get_timestamped_lyrics_with_cache name fresh' f1
                  = Ok (r, f1)).
  { intros Hc.
    destruct (cache_miss name fresh f r f1 H Hc) as (Hn & -> & ->).
    pose proof (cache_is_valid_truthy _ Hv) as Ht. rewrite Ht.
    pose proof (get_cached_after_save name fresh f Hw Hf Hn Hr Ht) as Hg.
    rewrite <- Hg at 2. apply cache_hit. now rewrite Hg. }
  destruct (cache_is_valid (get_cached_timestamp_data name f)) as [[|] | e]
    eqn:Hc.
  - rewrite (cache_hit name fresh f Hc) in H. injection H as <- <-.
    now apply cache_hit.
  - apply Hmiss. discriminate.
  - apply Hmiss. discriminate.
Qed.

Lemma cached_lyrics_are_reused_witness :
  get_timestamped_lyrics_with_cache (py "Song_2") scenario_B_response
    (snd (save_timestamp_data_to_json (py "Song_2") scenario_A_response
            two_songs))
  = Ok (scenario_A_response,
        snd (save_timestamp_data_to_json (py "Song_2") scenario_A_response
               two_songs)).
Proof.
  apply (cached_lyrics_are_reused (py "Song_2") scenario_A_response two_songs).
  - right. eexists. split; [reflexivity |]. right. eexists. reflexivity.
  - vm_compute. reflexivity.
  - vm_compute. reflexivity.
  - vm_compute. reflexivity.
  - vm_compute. reflexivity.
Defined.

(** X13: a cached value that is not a [dict] is not refetched.  When the
    API answers with a truthy value that is not a [dict] (a JSON list, a
    string, a number), nothing is cached yet, and the file, the file name
    and the answer can be written as UTF-8, the call returns and stores
    that value; every later call for the song then raises [AttributeError]
    at the [.get] of line 157, whatever the API would answer. *)
Theorem non_dict_response_poisons_the_cache :
  forall music_filename fresh_data f,
    writable music_filename f ->
    file_encodable f ->
    forallb is_scalar music_filename = true ->
    utf8_writable fresh_data = true ->
    get_cached_timestamp_data music_filename f = PNone ->
    truthy fresh_data = true ->
    (forall d, fresh_data <> PDict d) ->
    let f1 := snd (save_timestamp_data_to_json music_filename fresh_data f) in
    get_timestamped_lyrics_with_cache music_filename fresh_data f
    = Ok (fresh_data, f1) /\
    forall fresh_data',
      get_timestamped_lyrics_with_cache music_filename fresh_data' f1
      = Raise AttributeError.
Proof.
  intros name fresh f Hw Hf Hn Hd Hnone Ht Hnd f1. split.
  - unfold get_timestamped_lyrics_with_cache. rewrite Hnone.
    cbn [truthy bind]. rewrite (py_print_scalars _ Hn). cbn [bind].
    now rewrite Ht.
  - intros fresh'. unfold get_timestamped_lyrics_with_cache. subst f1.
    rewrite (get_cached_after_save name fresh f Hw Hf Hn Hd Ht), Ht.
    destruct fresh as [| | | | | | d]; try reflexivity.
    now destruct (Hnd d).
Qed.

Lemma non_dict_response_poisons_the_cache_witness :
  let f1 := snd (save_timestamp_data_to_json (py "Song_1")
                   (PList [PInt 1]) NoFile) in
  get_timestamped_lyrics_with_cache (py "Song_1") (PList [PInt 1]) NoFile
  = Ok (PList [PInt 1], f1) /\
  forall fresh_data',
    get_timestamped_lyrics_with_cache (py "Song_1") fresh_data' f1
    = Raise AttributeError.
Proof.
  apply (non_dict_response_poisons_the_cache (py "Song_1") (PList [PInt 1])
           NoFile).
  - now left.
  - exact I.
  - reflexivity.
  - reflexivity.
  - reflexivity.
  - reflexivity.
  - discriminate.
Defined.

(** X23: a response that cannot be written destroys the metadata file.
    When nothing is cached for the song, the file can take the data and
    the API answers with a truthy value that holds a lone surrogate, the
    call returns the answer and leaves a file that is not JSON.  From then
    on no song has cached lyrics or music information, a save of timestamp
    data returns [False], and the music generation cannot save its
    entries: the file stays as it is. *)
Theorem unwritable_response_destroys_the_metadata_file :
  forall music_filename fresh_data f,
    writable music_filename f ->
    forallb is_scalar music_filename = true ->
    get_cached_timestamp_data music_filename f = PNone ->
    truthy fresh_data = true ->
    utf8_writable fresh_data = false ->
    get_timestamped_lyrics_with_cache music_filename fresh_data f
    = Ok (fresh_data, Garbled) /\
    (forall name, get_cached_timestamp_data name Garbled = PNone) /\
    (forall name, get_music_info_for_video_creation name Garbled = PNone) /\
    (forall name data,
       save_timestamp_data_to_json name data Garbled = (false, Garbled)) /\
    (forall result_, save_music_entries result_ Garbled = Garbled) /\
    (forall name fresh_data',
       get_timestamped_lyrics_with_cache name fresh_data' Garbled
       = Ok (fresh_data', Garbled) \/
       get_timestamped_lyrics_with_cache name fresh_data' Garbled
       = Raise UnicodeEncodeError).
Proof.
  intros name fresh f Hw Hn Hnone Ht Hd.
  split; [| split; [| split; [| split; [| split]]]]; try reflexivity.
  - unfold get_timestamped_lyrics_with_cache. rewrite Hnone.
    cbn [truthy bind]. rewrite (py_print_scalars _ Hn). cbn [bind].
    rewrite Ht. do 2 f_equal.
    unfold save_timestamp_data_to_json.
    destruct (writable_saves name fresh f Hw) as [saved Hs]. rewrite Hs.
    destruct (utf8_writable saved) eqn:Hsw; [| reflexivity].
    exfalso.
    destruct (with_timestamp_data_shape _ _ _ _ Hs) as (d & entry & _ & _ & E).
    rewrite E in Hsw. apply utf8_writable_set_inv in Hsw.
    destruct Hsw as [_ He]. apply utf8_writable_set_inv in He.
    destruct He as [_ He]. congruence.
  - intros name' fresh'. unfold get_timestamped_lyrics_with_cache.
    cbn [get_cached_timestamp_data truthy bind].
    destruct (py_print name') as [u | e] eqn:Hp; cbn [bind].
    + left. now destruct (truthy fresh').
    + right. now rewrite (py_print_raises _ _ Hp).
Qed.

Lemma unwritable_response_destroys_the_metadata_file_witness :
  get_timestamped_lyrics_with_cache (py "Song_2") unwritable_response
    two_songs
  = Ok (unwritable_response, Garbled) /\
  (forall name, get_cached_timestamp_data name Garbled = PNone) /\
  (forall name, get_music_info_for_video_creation name Garbled = PNone) /\
  (forall name data,
     save_timestamp_data_to_json name data Garbled = (false, Garbled)) /\
  (forall result_, save_music_entries result_ Garbled = Garbled) /\
  (forall name fresh_data',
     get_timestamped_lyrics_with_cache name fresh_data' Garbled
     = Ok (fresh_data', Garbled) \/
     get_timestamped_lyrics_with_cache name fresh_data' Garbled
     = Raise UnicodeEncodeError).
Proof.
  apply (unwritable_response_destroys_the_metadata_file (py "Song_2")
           unwritable_response two_songs).
  - right. eexists. split; [reflexivity |]. right. eexists. reflexivity.
  - reflexivity.
  - reflexivity.
  - reflexivity.
  - vm_compute. reflexivity.
Defined.

(** ** The metadata file across the modules *)

Lemma find_music_entry_of_keys (d : list (str * pyval)) musicName :
  find_music_entry (map (fun kv => PStr (fst kv)) d) musicName
  = match d with [] => Some None | _ => None end.
Proof. now destruct d. Qed.

(** X14: [generateVideoFromMusic] cannot use the file the music
    generation writes.  After the entries of a generation were merged into
    a metadata file that was absent or held a [dict], the file holds a
    [dict] keyed by file name, and [generateVideoFromMusic] returns [None]
    for every music name without reaching the API and without touching the
    file: its loop iterates over the keys, which have no [.get]. *)
Theorem generateVideoFromMusic_finds_nothing_in_saved_data :
  forall start_video_generation result_ f musicName,
    (f = NoFile \/ exists d, f = Json (PDict d)) ->
    (exists d', save_music_entries result_ f = Json (PDict d')) /\
    generateVideoFromMusic start_video_generation musicName
      (save_music_entries result_ f)
    = (PNone, save_music_entries result_ f).
Proof.
  intros k result_ f musicName Hf.
  assert (Hd : exists d', save_music_entries result_ f = Json (PDict d')).
  { destruct Hf as [-> | [d ->]]; cbn; eauto. }
  split; [exact Hd |]. destruct Hd as [d' ->].
  unfold generateVideoFromMusic. cbn [load_json py_iter].
  rewrite find_music_entry_of_keys. now destruct d'.
Qed.

Lemma generateVideoFromMusic_finds_nothing_in_saved_data_witness :
  (exists d', save_music_entries
                [(py "Song_3", PDict [(py "name", PStr (py "Song"))])]
                two_songs = Json (PDict d')) /\
  generateVideoFromMusic (fun _ _ _ _ f => (PBool true, f)) (py "Song")
    (save_music_entries [(py "Song_3", PDict [(py "name", PStr (py "Song"))])]
       two_songs)
  = (PNone,
     save_music_entries [(py "Song_3", PDict [(py "name", PStr (py "Song"))])]
       two_songs).
Proof.
  apply generateVideoFromMusic_finds_nothing_in_saved_data.
  right. eexists. reflexivity.
Defined.

(** On a list of entries, the format its loop expects, the entry is found
    and the generation is started. *)
Lemma generateVideoFromMusic_on_a_list :
  generateVideoFromMusic (fun _ _ _ _ f => (PBool true, f)) (py "Song")
    (Json (PList [PDict [(py "name", PStr (py "Song"));
                         (py "taskId", PStr (py "t"));
                         (py "audioId", PStr (py "a"))]]))
  = (PBool true,
     Json (PList [PDict [(py "name", PStr (py "Song"));
                         (py "taskId", PStr (py "t"));
                         (py "audioId", PStr (py "a"))]])).
Proof. vm_compute. reflexivity. Qed.

(** ** [downloadingMusic]: the names of the downloaded files *)

Lemma digits_of_uint_inj u : forall v,
  digits_of_uint u = digits_of_uint v -> u = v.
Proof.
  induction u; intros v H; destruct v; cbn [digits_of_uint] in H;
    try reflexivity; try discriminate H;
    apply (f_equal (@tl Z)) in H; cbn [tl] in H;
    f_equal; apply IHu; exact H.
Qed.

Lemma str_of_nat_inj a b : str_of_nat a = str_of_nat b -> a = b.
Proof.
  unfold str_of_nat. intros H. apply digits_of_uint_inj in H.
  rewrite <- (DecimalNat.Unsigned.of_to a), <- (DecimalNat.Unsigned.of_to b).
  now rewrite H.
Qed.

Lemma music_filename_of_inj name a b :
  music_filename_of name a = music_filename_of name b -> a = b.
Proof.
  unfold music_filename_of. intros H.
  apply app_inv_head in H. apply app_inv_head in H.
  apply app_inv_head in H. apply app_inv_tail in H.
  now apply str_of_nat_inj.
Qed.

Lemma fs_lookup_write_same fs p c : fs_lookup (fs_write fs p c) p = Some c.
Proof.
  induction fs as [|[q d] fs IH]; cbn [fs_write fs_lookup].
  - now rewrite str_eqb_refl.
  - destruct (PyStr.eqb q p) eqn:E; cbn [fs_lookup]; rewrite E; auto.
Qed.

Lemma fs_lookup_write_other fs p c q :
  q <> p -> fs_lookup (fs_write fs p c) q = fs_lookup fs q.
Proof.
  intros Hq. induction fs as [|[r d] fs IH]; cbn [fs_write fs_lookup].
  - rewrite str_eqb_neq; auto.
  - destruct (PyStr.eqb r p) eqn:E; cbn [fs_lookup].
    + apply str_eqb_eq in E. subst r. rewrite str_eqb_neq; auto.
    + destruct (PyStr.eqb r q); auto.
Qed.

Lemma path_exists_In fs p :
  path_exists fs p = true -> In p (map fst fs).
Proof.
  unfold path_exists.
  induction fs as [|[q d] fs IH]; cbn [fs_lookup map fst]; intros H.
  - discriminate.
  - destruct (PyStr.eqb q p) eqn:E.
    + left. now apply str_eqb_eq.
    + right. auto.
Qed.

Lemma next_free_some fs name : forall fuel c k,
  next_free fs name fuel c = Some k ->
  (c <= k)%nat /\
  path_exists fs (music_filename_of name k) = false /\
  forall j, (c <= j < k)%nat ->
            path_exists fs (music_filename_of name j) = true.
Proof.
  induction fuel as [|fuel IH]; intros c k H; cbn [next_free] in H.
  - discriminate.
  - destruct (path_exists fs (music_filename_of name c)) eqn:E.
    + apply IH in H. destruct H as (Hle & Hk & Hj).
      split; [lia|]. split; [exact Hk|].
      intros j Hjr. destruct (Nat.eq_dec j c) as [->|Hne]; [exact E|].
      apply Hj. lia.
    + apply Some_eq in H. subst k. split; [lia|]. split; [exact E|].
      intros j Hjr. lia.
Qed.

Lemma next_free_none fs name : forall fuel c,
  next_free fs name fuel c = None ->
  forall j, (c <= j < c + fuel)%nat ->
            path_exists fs (music_filename_of name j) = true.
Proof.
  induction fuel as [|fuel IH]; intros c H j Hj; cbn [next_free] in H.
  - lia.
  - destruct (path_exists fs (music_filename_of name c)) eqn:E.
    + destruct (Nat.eq_dec j c) as [->|Hne]; [exact E|].
      apply (IH (S c)); [exact H | lia].
    + discriminate.
Qed.

(** There are no more taken names than files. *)
Lemma taken_names_bounded fs name c n :
  (forall j, (c <= j < c + n)%nat ->
             path_exists fs (music_filename_of name j) = true) ->
  (n <= length fs)%nat.
Proof.
  intros H.
  assert (Hnd : NoDup (map (music_filename_of name) (seq c n))).
  { apply Injective_map_NoDup; [|apply seq_NoDup].
    intros a b. apply music_filename_of_inj. }
  assert (Hin : incl (map (music_filename_of name) (seq c n)) (map fst fs)).
  { intros p Hp. apply in_map_iff in Hp. destruct Hp as (j & <- & Hj).
    apply in_seq in Hj. apply path_exists_In. apply H. lia. }
  pose proof (NoDup_incl_length Hnd Hin) as Hl.
  now rewrite !length_map, length_seq in Hl.
Qed.

(** The loops of lines 135-137 and 147-149 end: among [length fs + 1]
    names one is free. *)
Lemma next_free_terminates fs name c :
  exists k, next_free fs name (S (length fs)) c = Some k.
Proof.
  destruct (next_free fs name (S (length fs)) c) as [k|] eqn:E; eauto.
  pose proof (taken_names_bounded fs name c (S (length fs))
                (next_free_none _ _ _ _ E)). lia.
Qed.

(** What a call that returns has done. *)
Lemma downloadingMusic_success fetch can_open data name fs files fs' :
  downloadingMusic fetch can_open data name fs = (Some files, fs') ->
  exists url1 url2 content1 content2 c1 c2,
    source_audio_url data 0 = Some url1 /\
    source_audio_url data 1 = Some url2 /\
    fetch url1 = Some content1 /\
    fetch url2 = Some content2 /\
    next_free fs name (S (length fs)) 1 = Some c1 /\
    next_free (fs_write fs (music_filename_of name c1) content1) name
      (S (length (fs_write fs (music_filename_of name c1) content1))) (S c1)
    = Some c2 /\
    files = [music_filename_of name c1; music_filename_of name c2] /\
    fs' = fs_write (fs_write fs (music_filename_of name c1) content1)
            (music_filename_of name c2) content2.
Proof.
  unfold downloadingMusic. intros H.
  destruct (source_audio_url data 0) as [url1|]; [|discriminate H].
  destruct (source_audio_url data 1) as [url2|]; [|discriminate H].
  destruct (print_formatted url1); [|discriminate H].
  destruct (print_formatted url2); [|discriminate H].
  destruct (fetch url1) as [content1|] eqn:Hf1; [|discriminate H].
  destruct (next_free fs name (S (length fs)) 1) as [c1|] eqn:H1;
    [|discriminate H].
  destruct (negb (can_open (music_filename_of name c1))); [discriminate H|].
  cbv zeta in H.
  destruct (py_print (music_filename_of name c1)); [|discriminate H].
  destruct (next_free (fs_write fs (music_filename_of name c1) content1) name
              (S (length (fs_write fs (music_filename_of name c1) content1)))
              (S c1)) as [c2|] eqn:H2; [|discriminate H].
  destruct (fetch url2) as [content2|] eqn:Hf2; [|discriminate H].
  destruct (negb (can_open (music_filename_of name c2))); [discriminate H|].
  destruct (py_print (music_filename_of name c2)); [|discriminate H].
  inversion H. subst files fs'.
  exists url1, url2, content1, content2, c1, c2. repeat split; auto.
Qed.

Lemma path_exists_write_other fs p c q :
  q <> p -> path_exists (fs_write fs p c) q = path_exists fs q.
Proof.
  intros H. unfold path_exists. now rewrite fs_lookup_write_other.
Qed.

Lemma music_filename_of_neq name a b :
  a <> b -> music_filename_of name a <> music_filename_of name b.
Proof. intros H E. apply H. now apply music_filename_of_inj in E. Qed.

(** X15: the two names that [downloadingMusic] returns are
    [music/<name>_<c1>.mp3] and [music/<name>_<c2>.mp3] with [1 <= c1 < c2];
    neither was the path of a file before the call, and they are the first
    two such names: every name with a counter from 1 below [c2], [c1]
    apart, was taken. *)
Theorem downloadingMusic_names_are_the_first_free fetch can_open data name fs
    files fs' :
  downloadingMusic fetch can_open data name fs = (Some files, fs') ->
  exists c1 c2,
    files = [music_filename_of name c1; music_filename_of name c2] /\
    (1 <= c1 < c2)%nat /\
    music_filename_of name c1 <> music_filename_of name c2 /\
    path_exists fs (music_filename_of name c1) = false /\
    path_exists fs (music_filename_of name c2) = false /\
    forall j, (1 <= j < c2)%nat -> j <> c1 ->
              path_exists fs (music_filename_of name j) = true.
Proof.
  intros H. apply downloadingMusic_success in H.
  destruct H as (url1 & url2 & content1 & content2 & c1 & c2 &
                 _ & _ & _ & _ & H1 & H2 & Hfiles & _).
  apply next_free_some in H1. destruct H1 as (Hle1 & Hfree1 & Htaken1).
  apply next_free_some in H2. destruct H2 as (Hle2 & Hfree2 & Htaken2).
  assert (Hne : c2 <> c1) by lia.
  exists c1, c2. split; [exact Hfiles|]. split; [lia|].
  split; [apply music_filename_of_neq; lia|].
  split; [exact Hfree1|].
  split.
  - rewrite path_exists_write_other in Hfree2; [exact Hfree2|].
    now apply music_filename_of_neq.
  - intros j Hj Hjc.
    destruct (Nat.lt_ge_cases j c1) as [Hlt|Hge].
    + apply Htaken1. lia.
    + specialize (Htaken2 j ltac:(lia)).
      rewrite path_exists_write_other in Htaken2; [exact Htaken2|].
      now apply music_filename_of_neq.
Qed.

(** X16: after a call that returns, the two returned paths hold the two
    downloads, in the order of the response, and every other path is as it
    was: no file that was there before the call has been changed. *)
Theorem downloadingMusic_overwrites_nothing fetch can_open data name fs
    files fs' :
  downloadingMusic fetch can_open data name fs = (Some files, fs') ->
  exists f1 f2 url1 url2 content1 content2,
    files = [f1; f2] /\
    source_audio_url data 0 = Some url1 /\
    source_audio_url data 1 = Some url2 /\
    fetch url1 = Some content1 /\
    fetch url2 = Some content2 /\
    fs_lookup fs' f1 = Some content1 /\
    fs_lookup fs' f2 = Some content2 /\
    (forall p, p <> f1 -> p <> f2 -> fs_lookup fs' p = fs_lookup fs p) /\
    (forall p, path_exists fs p = true -> fs_lookup fs' p = fs_lookup fs p).
Proof.
  intros H. apply downloadingMusic_success in H.
  destruct H as (url1 & url2 & content1 & content2 & c1 & c2 &
                 Hu1 & Hu2 & Hf1 & Hf2 & H1 & H2 & Hfiles & Hfs).
  apply next_free_some in H1. destruct H1 as (Hle1 & Hfree1 & _).
  apply next_free_some in H2. destruct H2 as (Hle2 & Hfree2 & _).
  assert (Hne : music_filename_of name c1 <> music_filename_of name c2)
    by (apply music_filename_of_neq; lia).
  rewrite path_exists_write_other in Hfree2 by auto.
  exists (music_filename_of name c1), (music_filename_of name c2), url1, url2,
    content1, content2.
  subst fs'. rewrite fs_lookup_write_same.
  rewrite fs_lookup_write_other by exact Hne.
  rewrite fs_lookup_write_same.
  assert (Hframe : forall p, p <> music_filename_of name c1 ->
                             p <> music_filename_of name c2 ->
            fs_lookup (fs_write (fs_write fs (music_filename_of name c1)
                                   content1)
                         (music_filename_of name c2) content2) p
            = fs_lookup fs p).
  { intros p Hp1 Hp2. now rewrite !fs_lookup_write_other. }
  repeat split; auto.
  intros p Hp. apply Hframe; intros ->; congruence.
Qed.

Lemma downloadingMusic_names_are_the_first_free_witness :
  exists c1 c2,
    [py "music/song_2.mp3"; py "music/song_4.mp3"]
    = [music_filename_of (py "song") c1; music_filename_of (py "song") c2] /\
    (1 <= c1 < c2)%nat /\
    music_filename_of (py "song") c1 <> music_filename_of (py "song") c2 /\
    path_exists one_song_on_disk (music_filename_of (py "song") c1) = false /\
    path_exists one_song_on_disk (music_filename_of (py "song") c2) = false /\
    forall j, (1 <= j < c2)%nat -> j <> c1 ->
              path_exists one_song_on_disk (music_filename_of (py "song") j)
              = true.
Proof.
  apply (downloadingMusic_names_are_the_first_free fetch_all (fun _ => true)
           two_tracks (py "song") one_song_on_disk
           [py "music/song_2.mp3"; py "music/song_4.mp3"]
           (one_song_on_disk ++ [(py "music/song_2.mp3", py "u1");
                                 (py "music/song_4.mp3", py "u2")])).
  vm_compute. reflexivity.
Defined.

Lemma downloadingMusic_overwrites_nothing_witness :
  exists f1 f2 url1 url2 content1 content2,
    [py "music/song_2.mp3"; py "music/song_4.mp3"] = [f1; f2] /\
    source_audio_url two_tracks 0 = Some url1 /\
    source_audio_url two_tracks 1 = Some url2 /\
    fetch_all url1 = Some content1 /\
    fetch_all url2 = Some content2 /\
    fs_lookup (one_song_on_disk ++ [(py "music/song_2.mp3", py "u1");
                                    (py "music/song_4.mp3", py "u2")]) f1
    = Some content1 /\
    fs_lookup (one_song_on_disk ++ [(py "music/song_2.mp3", py "u1");
                                    (py "music/song_4.mp3", py "u2")]) f2
    = Some content2 /\
    (forall p, p <> f1 -> p <> f2 ->
       fs_lookup (one_song_on_disk ++ [(py "music/song_2.mp3", py "u1");
                                       (py "music/song_4.mp3", py "u2")]) p
       = fs_lookup one_song_on_disk p) /\
    (forall p, path_exists one_song_on_disk p = true ->
       fs_lookup (one_song_on_disk ++ [(py "music/song_2.mp3", py "u1");
                                       (py "music/song_4.mp3", py "u2")]) p
       = fs_lookup one_song_on_disk p).
Proof.
  apply (downloadingMusic_overwrites_nothing fetch_all (fun _ => true)
           two_tracks (py "song") one_song_on_disk).
  vm_compute. reflexivity.
Defined.

Lemma digits_of_uint_digits u :
  Forall (fun d => 48 <= d <= 57) (digits_of_uint u).
Proof.
  induction u; cbn [digits_of_uint]; constructor; auto; lia.
Qed.

Lemma print_formatted_printable v :
  printable_value v -> print_formatted v = Ok tt.
Proof.
  intros H. destruct v; try reflexivity.
  cbn [print_formatted]. apply py_print_scalars. now apply H.
Qed.

Lemma music_filename_of_printable name c :
  forallb is_scalar name = true ->
  py_print (music_filename_of name c) = Ok tt.
Proof.
  intros H. apply py_print_scalars. unfold music_filename_of.
  rewrite !forallb_app, H. cbn [andb].
  assert (Hd : forallb is_scalar (str_of_nat c) = true).
  { apply forallb_forall. intros d Hin.
    pose proof (digits_of_uint_digits (Nat.to_uint c)) as Hds.
    rewrite Forall_forall in Hds. apply Hds in Hin.
    unfold is_scalar.
    destruct (Z.leb_spec 0 d); [| lia].
    destruct (Z.leb_spec d 1114111); [| lia].
    destruct (Z.leb_spec 55296 d); [lia | reflexivity]. }
  rewrite Hd. reflexivity.
Qed.

(** Without the conditions on what is printed the call does not return:
    an address that holds a lone surrogate stops it at line 124, before
    anything is fetched or written. *)
Lemma downloadingMusic_stops_at_an_unprintable_address :
  downloadingMusic fetch_all (fun _ => true) unprintable_second_track
    (py "song") one_song_on_disk
  = (None, one_song_on_disk) /\
  downloadingMusic (fetch_all_but [55357]) (fun _ => true)
    unprintable_second_track (py "song") one_song_on_disk
  = (None, one_song_on_disk).
Proof. split; vm_compute; reflexivity. Qed.

(** X17: [downloadingMusic] returns whenever the response names two
    tracks, the two addresses and the name can be printed, both requests
    are answered and the files can be opened: its two [while] loops end,
    however many files there are. *)
Theorem downloadingMusic_returns fetch can_open data name fs
    url1 url2 content1 content2 :
  source_audio_url data 0 = Some url1 ->
  source_audio_url data 1 = Some url2 ->
  printable_value url1 ->
  printable_value url2 ->
  forallb is_scalar name = true ->
  fetch url1 = Some content1 ->
  fetch url2 = Some content2 ->
  (forall c, can_open (music_filename_of name c) = true) ->
  exists f1 f2 fs',
    downloadingMusic fetch can_open data name fs = (Some [f1; f2], fs') /\
    fs_lookup fs' f1 = Some content1 /\
    fs_lookup fs' f2 = Some content2.
Proof.
  intros Hu1 Hu2 Hp1 Hp2 Hname Hf1 Hf2 Hopen. unfold downloadingMusic.
  rewrite Hu1, Hu2, (print_formatted_printable _ Hp1),
    (print_formatted_printable _ Hp2), Hf1.
  destruct (next_free_terminates fs name 1) as [c1 H1]. rewrite H1.
  rewrite Hopen. cbn [negb]. cbv zeta.
  rewrite (music_filename_of_printable name c1 Hname).
  destruct (next_free_terminates
              (fs_write fs (music_filename_of name c1) content1) name (S c1))
    as [c2 H2].
  rewrite H2, Hf2, Hopen. cbn [negb].
  rewrite (music_filename_of_printable name c2 Hname).
  exists (music_filename_of name c1), (music_filename_of name c2).
  eexists. split; [reflexivity|].
  apply next_free_some in H2. destruct H2 as (Hle & _ & _).
  rewrite fs_lookup_write_same.
  rewrite fs_lookup_write_other by (apply music_filename_of_neq; lia).
  rewrite fs_lookup_write_same. auto.
Qed.

Lemma downloadingMusic_returns_witness :
  exists f1 f2 fs',
    downloadingMusic fetch_all (fun _ => true) two_tracks (py "song")
      one_song_on_disk = (Some [f1; f2], fs') /\
    fs_lookup fs' f1 = Some (py "u1") /\
    fs_lookup fs' f2 = Some (py "u2").
Proof.
  apply (downloadingMusic_returns fetch_all (fun _ => true) two_tracks
           (py "song") one_song_on_disk (PStr (py "u1")) (PStr (py "u2")));
    try (vm_compute; reflexivity);
    intros s Hs; injection Hs as <-; reflexivity.
Defined.

(** X18: when the addresses and the name can be printed and the second
    request fails, [downloadingMusic] raises with the first download
    already written: a new file, under a name that was free, which no
    caller is told about. *)
Theorem failed_second_download_leaves_the_first_file fetch can_open data name
    fs url1 url2 content1 :
  source_audio_url data 0 = Some url1 ->
  source_audio_url data 1 = Some url2 ->
  printable_value url1 ->
  printable_value url2 ->
  forallb is_scalar name = true ->
  fetch url1 = Some content1 ->
  fetch url2 = None ->
  (forall c, can_open (music_filename_of name c) = true) ->
  exists c1 fs',
    downloadingMusic fetch can_open data name fs = (None, fs') /\
    path_exists fs (music_filename_of name c1) = false /\
    fs_lookup fs' (music_filename_of name c1) = Some content1 /\
    forall p, p <> music_filename_of name c1 ->
              fs_lookup fs' p = fs_lookup fs p.
Proof.
  intros Hu1 Hu2 Hp1 Hp2 Hname Hf1 Hf2 Hopen. unfold downloadingMusic.
  rewrite Hu1, Hu2, (print_formatted_printable _ Hp1),
    (print_formatted_printable _ Hp2), Hf1.
  destruct (next_free_terminates fs name 1) as [c1 H1]. rewrite H1.
  rewrite Hopen. cbn [negb]. cbv zeta.
  rewrite (music_filename_of_printable name c1 Hname).
  destruct (next_free_terminates
              (fs_write fs (music_filename_of name c1) content1) name (S c1))
    as [c2 H2].
  rewrite H2, Hf2.
  exists c1. eexists. split; [reflexivity|].
  apply next_free_some in H1. destruct H1 as (_ & Hfree & _).
  split; [exact Hfree|]. split; [apply fs_lookup_write_same|].
  intros p Hp. now apply fs_lookup_write_other.
Qed.

Lemma failed_second_download_leaves_the_first_file_witness :
  exists c1 fs',
    downloadingMusic (fetch_all_but (py "u2")) (fun _ => true) two_tracks
      (py "song") one_song_on_disk = (None, fs') /\
    path_exists one_song_on_disk (music_filename_of (py "song") c1) = false /\
    fs_lookup fs' (music_filename_of (py "song") c1) = Some (py "u1") /\
    forall p, p <> music_filename_of (py "song") c1 ->
              fs_lookup fs' p = fs_lookup one_song_on_disk p.
Proof.
  apply (failed_second_download_leaves_the_first_file
           (fetch_all_but (py "u2")) (fun _ => true) two_tracks (py "song")
           one_song_on_disk (PStr (py "u1")) (PStr (py "u2")));
    try (vm_compute; reflexivity);
    intros s Hs; injection Hs as <-; reflexivity.
Defined.

(** ** [generateAndDownloadMusic]: the keys of the saved entries *)

Lemma basename_aux_no_sep acc s :
  ~ In 47 s -> basename_aux acc s = acc.
Proof.
  induction s as [|c s IH]; intros H; cbn [basename_aux]; [reflexivity|].
  destruct (Z.eqb_spec c 47) as [->|Hc].
  - exfalso. apply H. now left.
  - apply IH. intros Hin. apply H. now right.
Qed.

Lemma basename_under_music rest :
  basename (py "music/" ++ rest) = basename_aux rest rest.
Proof. reflexivity. Qed.

Lemma basename_music_filename_of name c :
  ~ In 47 name ->
  basename (music_filename_of name c)
  = name ++ [95] ++ str_of_nat c ++ py ".mp3".
Proof.
  intros H. unfold music_filename_of. rewrite basename_under_music.
  apply basename_aux_no_sep. intros Hin.
  apply in_app_or in Hin. destruct Hin as [Hin|Hin]; [auto|].
  apply in_app_or in Hin. destruct Hin as [Hin|Hin].
  { destruct Hin as [Hin|[]]. discriminate Hin. }
  apply in_app_or in Hin. destruct Hin as [Hin|Hin].
  - pose proof (digits_of_uint_digits (Nat.to_uint c)) as Hd.
    rewrite Forall_forall in Hd. apply Hd in Hin. lia.
  - vm_compute in Hin. intuition discriminate.
Qed.

Lemma startswith_app_false old : forall s x rest,
  ~ In x old -> startswith s old = false ->
  startswith (s ++ x :: rest) old = false.
Proof.
  induction old as [|o old IH]; intros s x rest Hx H.
  - now rewrite startswith_nil in H.
  - destruct s as [|y s]; cbn [app startswith].
    + destruct (Z.eqb_spec o x) as [->|Hne]; [|reflexivity].
      exfalso. apply Hx. now left.
    + cbn [startswith] in H. destruct (o =? y); [|reflexivity].
      cbn [andb] in *. apply IH; [|exact H].
      intros Hin. apply Hx. now right.
Qed.

Lemma replace_aux_before_sep old new x rest :
  ~ In x old ->
  forall s, contains old s = false ->
  replace_aux old new 0 (s ++ x :: rest)
  = s ++ replace_aux old new 0 (x :: rest).
Proof.
  intros Hx. induction s as [|c s IH]; intros H; [reflexivity|].
  cbn [contains] in H. apply orb_false_iff in H. destruct H as [H1 H2].
  change ((c :: s) ++ x :: rest) with (c :: (s ++ x :: rest)).
  cbn [replace_aux].
  change (c :: (s ++ x :: rest)) with ((c :: s) ++ x :: rest).
  rewrite (startswith_app_false old (c :: s) x rest Hx H1).
  cbn [app]. f_equal. now apply IH.
Qed.

Lemma replace_aux_digits_mp3 : forall ds,
  Forall (fun d => 48 <= d <= 57) ds ->
  replace_aux (py ".mp3") [] 0 (ds ++ py ".mp3") = ds.
Proof.
  induction ds as [|d ds IH]; intros H; [reflexivity|].
  inversion H as [|? ? Hd Hds]; subst.
  change (py ".mp3") with [46; 109; 112; 51] in *.
  cbn [app replace_aux startswith].
  destruct (Z.eqb_spec 46 d) as [<-|_]; [lia|].
  cbn [andb]. f_equal. now apply IH.
Qed.

Lemma music_key_equation name k :
  ~ In 47 name ->
  PyStr.contains (py ".mp3") name = false ->
  music_key (music_filename_of name k) = name ++ [95] ++ str_of_nat k.
Proof.
  intros Hsep Hext.
  unfold music_key. rewrite basename_music_filename_of by auto.
  change (PyStr.replace (py ".mp3") []
            (name ++ [95] ++ str_of_nat k ++ py ".mp3"))
    with (replace_aux (py ".mp3") [] 0
            (name ++ 95 :: (str_of_nat k ++ py ".mp3"))).
  rewrite replace_aux_before_sep; [| vm_compute; intuition discriminate
                                   | exact Hext].
  f_equal.
  change (replace_aux (py ".mp3") [] 0 (95 :: str_of_nat k ++ py ".mp3"))
    with (95 :: replace_aux (py ".mp3") [] 0 (str_of_nat k ++ py ".mp3")).
  rewrite replace_aux_digits_mp3 by apply digits_of_uint_digits.
  reflexivity.
Qed.

Lemma music_key_neq name a b :
  ~ In 47 name ->
  PyStr.contains (py ".mp3") name = false ->
  a <> b ->
  name ++ [95] ++ str_of_nat a <> name ++ [95] ++ str_of_nat b.
Proof.
  intros _ _ Hab E.
  apply app_inv_head in E. apply app_inv_head in E.
  apply str_of_nat_inj in E. contradiction.
Qed.

(** X19: for a name without ['/'] and without [".mp3"] in it, the key under
    which [generateAndDownloadMusic] records a downloaded file is
    [<name>_<counter>]: the path without its directory and its extension,
    so that the path is [music/<key>.mp3], and different files get
    different keys. *)
Theorem music_key_of_music_filename name c :
  ~ In 47 name ->
  PyStr.contains (py ".mp3") name = false ->
  music_key (music_filename_of name c) = name ++ [95] ++ str_of_nat c /\
  music_filename_of name c
  = py "music/" ++ music_key (music_filename_of name c) ++ py ".mp3" /\
  forall c', c' <> c ->
    music_key (music_filename_of name c')
    <> music_key (music_filename_of name c).
Proof.
  intros Hsep Hext.
  assert (Hkey : forall k, music_key (music_filename_of name k)
                           = name ++ [95] ++ str_of_nat k)
    by (intros k; now apply music_key_equation).
  split; [apply Hkey|]. split.
  - rewrite Hkey. unfold music_filename_of.
    now rewrite <- !app_assoc.
  - intros c' Hc. rewrite !Hkey. now apply music_key_neq.
Qed.

Lemma music_key_of_music_filename_witness :
  music_key (music_filename_of (py "song") 2)
  = py "song" ++ [95] ++ str_of_nat 2 /\
  music_filename_of (py "song") 2
  = py "music/" ++ music_key (music_filename_of (py "song") 2) ++ py ".mp3" /\
  forall c', c' <> 2%nat ->
    music_key (music_filename_of (py "song") c')
    <> music_key (music_filename_of (py "song") 2).
Proof.
  apply (music_key_of_music_filename (py "song") 2).
  - vm_compute. intuition discriminate.
  - vm_compute. reflexivity.
Defined.

Lemma music_entry_shape paroles style api_key completed_data i path entry :
  music_entry paroles style api_key completed_data i path = Some entry ->
  exists taskId audioId,
    entry = music_info_of paroles style api_key taskId audioId path.
Proof.
  unfold music_entry. intros H.
  destruct (py_getitem completed_data (py "data")) as [d|]; [|discriminate].
  destruct (py_getitem d (py "taskId")) as [taskId|]; [|discriminate].
  destruct (py_getitem d (py "response")) as [r|]; [|discriminate].
  destruct (py_getitem r (py "sunoData")) as [suno|]; [|discriminate].
  destruct (py_index suno i) as [item|]; [|discriminate].
  destruct (py_getitem item (py "id")) as [audioId|]; [|discriminate].
  apply Some_eq in H. subst entry. exists taskId, audioId. reflexivity.
Qed.

(** What a call of [generateAndDownloadMusic] that returns has done. *)
Lemma generateAndDownloadMusic_returned fetch can_open completed_response
    paroles style api_key fs f result_ fs' f' :
  ~ In 47 style ->
  PyStr.contains (py ".mp3") style = false ->
  f = NoFile \/ (exists d, f = Json (PDict d)) ->
  generateAndDownloadMusic fetch can_open completed_response
    paroles style api_key fs f = (Some result_, fs', f') ->
  exists c1 c2 t1 a1 t2 a2 d0 content1 content2,
    c1 <> c2 /\
    result_ = [(style ++ [95] ++ str_of_nat c1,
                music_info_of paroles style api_key t1 a1
                  (music_filename_of style c1));
               (style ++ [95] ++ str_of_nat c2,
                music_info_of paroles style api_key t2 a2
                  (music_filename_of style c2))] /\
    f' = Json (PDict
           (dict_set
              (dict_set d0 (style ++ [95] ++ str_of_nat c1)
                 (music_info_of paroles style api_key t1 a1
                    (music_filename_of style c1)))
              (style ++ [95] ++ str_of_nat c2)
              (music_info_of paroles style api_key t2 a2
                 (music_filename_of style c2)))) /\
    fs' = fs_write (fs_write fs (music_filename_of style c1) content1)
            (music_filename_of style c2) content2 /\
    path_exists fs (music_filename_of style c1) = false /\
    path_exists fs (music_filename_of style c2) = false.
Proof.
  intros Hsep Hext Hf H. unfold generateAndDownloadMusic in H.
  destruct (completed_response paroles style api_key) as [data|];
    [|discriminate H].
  destruct (downloadingMusic fetch can_open data style fs)
    as [[files|] fs1] eqn:Hd; [|discriminate H].
  pose proof (downloadingMusic_success _ _ _ _ _ _ _ Hd)
    as (url1 & url2 & content1 & content2 & c1 & c2 &
        _ & _ & _ & _ & H1 & H2 & Hfiles & Hfs1).
  apply next_free_some in H1. destruct H1 as (_ & Hfree1 & _).
  apply next_free_some in H2. destruct H2 as (Hle & Hfree2 & _).
  assert (Hc : c1 <> c2) by lia.
  assert (Hp : music_filename_of style c1 <> music_filename_of style c2)
    by now apply music_filename_of_neq.
  rewrite path_exists_write_other in Hfree2 by auto.
  pose proof (music_key_equation style c1 Hsep Hext) as Hk1.
  pose proof (music_key_equation style c2 Hsep Hext) as Hk2.
  subst files. cbn [music_entries] in H.
  destruct (music_entry paroles style api_key data 0
              (music_filename_of style c1)) as [e1|] eqn:He1;
    [|discriminate H].
  destruct (music_entry paroles style api_key data 1
              (music_filename_of style c2)) as [e2|] eqn:He2;
    [|discriminate H].
  apply music_entry_shape in He1. destruct He1 as (t1 & a1 & ->).
  apply music_entry_shape in He2. destruct He2 as (t2 & a2 & ->).
  rewrite Hk1, Hk2 in H. cbn [dict_set] in H.
  assert (Hkne : style ++ [95] ++ str_of_nat c1
                 <> style ++ [95] ++ str_of_nat c2).
  { now apply music_key_neq. }
  rewrite (str_eqb_neq _ _ Hkne) in H.
  inversion H. subst result_ fs' f'. clear H.
  assert (Hsaved : exists d0,
    forall r1 r2 : str * pyval,
      save_music_entries [r1; r2] f
      = Json (PDict (dict_set (dict_set d0 (fst r1) (snd r1))
                       (fst r2) (snd r2)))).
  { destruct Hf as [->|[d0 ->]]; [exists []|exists d0]; reflexivity. }
  destruct Hsaved as (d0 & Hsaved). rewrite Hsaved. cbn [fst snd].
  exists c1, c2, t1, a1, t2, a2, d0, content1, content2.
  repeat split; auto.
Qed.

(** X20: when [generateAndDownloadMusic] returns, for a style without ['/']
    and [".mp3"] and a metadata file that is absent or holds a dict, it
    returns two entries under two different keys [<style>_<c1>] and
    [<style>_<c2>]; the metadata file then holds both entries under these
    keys, and the [file_path] of each is the path of a file that the call
    created. *)
Theorem generateAndDownloadMusic_records_both_files fetch can_open
    completed_response paroles style api_key fs f result_ fs' f' :
  ~ In 47 style ->
  PyStr.contains (py ".mp3") style = false ->
  f = NoFile \/ (exists d, f = Json (PDict d)) ->
  generateAndDownloadMusic fetch can_open completed_response
    paroles style api_key fs f = (Some result_, fs', f') ->
  exists c1 c2 entry1 entry2 saved,
    c1 <> c2 /\
    result_ = [(style ++ [95] ++ str_of_nat c1, PDict entry1);
               (style ++ [95] ++ str_of_nat c2, PDict entry2)] /\
    f' = Json (PDict saved) /\
    dict_get saved (style ++ [95] ++ str_of_nat c1) = Some (PDict entry1) /\
    dict_get saved (style ++ [95] ++ str_of_nat c2) = Some (PDict entry2) /\
    dict_get entry1 (py "file_path")
    = Some (PStr (music_filename_of style c1)) /\
    dict_get entry2 (py "file_path")
    = Some (PStr (music_filename_of style c2)) /\
    path_exists fs (music_filename_of style c1) = false /\
    path_exists fs (music_filename_of style c2) = false /\
    path_exists fs' (music_filename_of style c1) = true /\
    path_exists fs' (music_filename_of style c2) = true.
Proof.
  intros Hsep Hext Hf H.
  destruct (generateAndDownloadMusic_returned _ _ _ _ _ _ _ _ _ _ _
              Hsep Hext Hf H)
    as (c1 & c2 & t1 & a1 & t2 & a2 & d0 & content1 & content2 &
        Hc & -> & -> & -> & Hfree1 & Hfree2).
  assert (Hkne : style ++ [95] ++ str_of_nat c1
                 <> style ++ [95] ++ str_of_nat c2)
    by now apply music_key_neq.
  assert (Hp : music_filename_of style c1 <> music_filename_of style c2)
    by now apply music_filename_of_neq.
  do 5 eexists.
  split; [exact Hc|]. split; [reflexivity|]. split; [reflexivity|].
  split.
  { rewrite dict_get_set_other by exact Hkne. apply dict_get_set_same. }
  split; [apply dict_get_set_same|].
  split; [reflexivity|]. split; [reflexivity|].
  split; [exact Hfree1|]. split; [exact Hfree2|].
  unfold path_exists.
  rewrite fs_lookup_write_other by exact Hp.
  now rewrite !fs_lookup_write_same.
Qed.

Lemma generateAndDownloadMusic_records_both_files_witness :
  exists result_ fs' f',
    generateAndDownloadMusic fetch_all (fun _ => true)
      (fun _ _ _ => Some completed_two_tracks)
      (py "la la") (py "song") (py "k") one_song_on_disk two_songs
    = (Some result_, fs', f') /\
    exists c1 c2 entry1 entry2 saved,
      c1 <> c2 /\
      result_ = [(py "song" ++ [95] ++ str_of_nat c1, PDict entry1);
                 (py "song" ++ [95] ++ str_of_nat c2, PDict entry2)] /\
      f' = Json (PDict saved) /\
      dict_get saved (py "song" ++ [95] ++ str_of_nat c1)
      = Some (PDict entry1) /\
      dict_get saved (py "song" ++ [95] ++ str_of_nat c2)
      = Some (PDict entry2) /\
      dict_get entry1 (py "file_path")
      = Some (PStr (music_filename_of (py "song") c1)) /\
      dict_get entry2 (py "file_path")
      = Some (PStr (music_filename_of (py "song") c2)) /\
      path_exists one_song_on_disk (music_filename_of (py "song") c1)
      = false /\
      path_exists one_song_on_disk (music_filename_of (py "song") c2)
      = false /\
      path_exists fs' (music_filename_of (py "song") c1) = true /\
      path_exists fs' (music_filename_of (py "song") c2) = true.
Proof.
  do 3 eexists. split.
  - vm_compute. reflexivity.
  - apply (generateAndDownloadMusic_records_both_files fetch_all
             (fun _ => true) (fun _ _ _ => Some completed_two_tracks)
             (py "la la") (py "song") (py "k") one_song_on_disk two_songs).
    + vm_compute. intuition discriminate.
    + vm_compute. reflexivity.
    + right. eexists. reflexivity.
    + vm_compute. reflexivity.
Defined.

(** ** From music generation to video creation *)

Lemma str_of_nat_nonempty c : str_of_nat c <> [].
Proof.
  unfold str_of_nat. destruct (Nat.to_uint c) eqn:E;
    cbn [digits_of_uint]; try discriminate.
  pose proof (DecimalNat.Unsigned.of_to c) as H. rewrite E in H.
  cbn in H. subst c. vm_compute in E. discriminate E.
Qed.

Lemma endswith_mp3_key style c :
  endswith (style ++ [95] ++ str_of_nat c) (py ".mp3") = false.
Proof.
  unfold endswith. rewrite !rev_app_distr.
  change (rev (py ".mp3")) with [51; 112; 109; 46].
  change (rev [95]) with [95].
  pose proof (digits_of_uint_digits (Nat.to_uint c)) as Hd.
  fold (str_of_nat c) in Hd. apply Forall_rev in Hd.
  assert (Hne : rev (str_of_nat c) <> []).
  { intros E. apply (f_equal (@rev Z)) in E. rewrite rev_involutive in E.
    now apply (str_of_nat_nonempty c). }
  destruct (rev (str_of_nat c)) as [|d1 [|d2 r]]; [contradiction| |].
  - cbn [app startswith]. destruct (51 =? d1); reflexivity.
  - inversion Hd as [|? ? _ Hd']; subst. inversion Hd' as [|? ? Hd2 _]; subst.
    cbn [app startswith].
    destruct (Z.eqb_spec 112 d2) as [<-|_]; [lia|].
    destruct (51 =? d1); reflexivity.
Qed.

Lemma audio_file_path_of_key style c :
  ~ In 47 style ->
  audio_file_path (style ++ [95] ++ str_of_nat c) = music_filename_of style c.
Proof.
  intros Hsep. unfold audio_file_path. rewrite endswith_mp3_key.
  cbn [negb]. unfold os_path_join.
  assert (Hs : startswith ((style ++ [95] ++ str_of_nat c) ++ py ".mp3") [47]
               = false).
  { destruct style as [|x style]; [reflexivity|].
    cbn [app startswith].
    destruct (Z.eqb_spec 47 x) as [<-|_]; [|reflexivity].
    exfalso. apply Hsep. now left. }
  rewrite Hs.
  change (match py "music" with
          | [] => true
          | _ :: _ => endswith (py "music") [47]
          end) with false.
  cbv iota. unfold music_filename_of.
  change (py "music/") with (py "music" ++ [47]).
  now rewrite <- !app_assoc.
Qed.

Lemma get_music_info_of_saved d key paroles style api_key taskId audioId path :
  dict_get d key
  = Some (music_info_of paroles style api_key taskId audioId path) ->
  get_music_info_for_video_creation key (Json (PDict d))
  = music_info_of paroles style api_key taskId audioId path.
Proof.
  intros H. unfold get_music_info_for_video_creation.
  cbn [load_json py_contains py_getitem]. rewrite H. reflexivity.
Qed.

(** X21: what [generateAndDownloadMusic] records, the video creation
    finds.  With the key of each returned entry,
    [get_music_info_for_video_creation] returns that entry from the
    metadata file, and [create_video_workflow] goes on with an audio file
    that exists: the one of the entry's [file_path]. *)
Theorem generated_music_is_found_for_video_creation fetch can_open
    completed_response paroles style api_key fs f result_ fs' f' :
  ~ In 47 style ->
  PyStr.contains (py ".mp3") style = false ->
  f = NoFile \/ (exists d, f = Json (PDict d)) ->
  generateAndDownloadMusic fetch can_open completed_response
    paroles style api_key fs f = (Some result_, fs', f') ->
  forall key music_info,
    In (key, music_info) result_ ->
    get_music_info_for_video_creation key f' = music_info /\
    exists path,
      py_getitem music_info (py "file_path") = Some (PStr path) /\
      workflow_audio_file key f' fs' = Some path.
Proof.
  intros Hsep Hext Hf H key music_info Hin.
  destruct (generateAndDownloadMusic_returned _ _ _ _ _ _ _ _ _ _ _
              Hsep Hext Hf H)
    as (c1 & c2 & t1 & a1 & t2 & a2 & d0 & content1 & content2 &
        Hc & -> & -> & -> & Hfree1 & Hfree2).
  assert (Hkne : style ++ [95] ++ str_of_nat c1
                 <> style ++ [95] ++ str_of_nat c2)
    by now apply music_key_neq.
  assert (Hp : music_filename_of style c1 <> music_filename_of style c2)
    by now apply music_filename_of_neq.
  assert (Hfound : get_music_info_for_video_creation key
                     (Json (PDict
                        (dict_set
                           (dict_set d0 (style ++ [95] ++ str_of_nat c1)
                              (music_info_of paroles style api_key t1 a1
                                 (music_filename_of style c1)))
                           (style ++ [95] ++ str_of_nat c2)
                           (music_info_of paroles style api_key t2 a2
                              (music_filename_of style c2)))))
                   = music_info /\
                   exists c t a,
                     key = style ++ [95] ++ str_of_nat c /\
                     music_info = music_info_of paroles style api_key t a
                                    (music_filename_of style c) /\
                     (c = c1 \/ c = c2)).
  { destruct Hin as [Hin|[Hin|[]]]; apply pair_equal_spec in Hin;
      destruct Hin as [<- <-].
    - split.
      + apply get_music_info_of_saved.
        rewrite dict_get_set_other by exact Hkne. apply dict_get_set_same.
      + exists c1, t1, a1. auto.
    - split.
      + apply get_music_info_of_saved. apply dict_get_set_same.
      + exists c2, t2, a2. auto. }
  destruct Hfound as (Hget & c & t & a & -> & Hinfo & Hcc).
  split; [exact Hget|].
  exists (music_filename_of style c). split; [rewrite Hinfo; reflexivity|].
  unfold workflow_audio_file. rewrite Hget, Hinfo.
  change (negb (truthy (music_info_of paroles style api_key t a
                          (music_filename_of style c)))) with false.
  cbv iota. rewrite audio_file_path_of_key by exact Hsep.
  assert (Hex : path_exists
                  (fs_write (fs_write fs (music_filename_of style c1) content1)
                     (music_filename_of style c2) content2)
                  (music_filename_of style c) = true).
  { unfold path_exists. destruct Hcc as [->| ->].
    - rewrite fs_lookup_write_other by exact Hp.
      now rewrite fs_lookup_write_same.
    - now rewrite fs_lookup_write_same. }
  rewrite Hex. reflexivity.
Qed.

Lemma generated_music_is_found_for_video_creation_witness :
  exists result_ fs' f',
    generateAndDownloadMusic fetch_all (fun _ => true)
      (fun _ _ _ => Some completed_two_tracks)
      (py "la la") (py "song") (py "k") one_song_on_disk two_songs
    = (Some result_, fs', f') /\
    forall key music_info,
      In (key, music_info) result_ ->
      get_music_info_for_video_creation key f' = music_info /\
      exists path,
        py_getitem music_info (py "file_path") = Some (PStr path) /\
        workflow_audio_file key f' fs' = Some path.
Proof.
  do 3 eexists. split.
  - vm_compute. reflexivity.
  - apply (generated_music_is_found_for_video_creation fetch_all
             (fun _ => true) (fun _ _ _ => Some completed_two_tracks)
             (py "la la") (py "song") (py "k") one_song_on_disk two_songs).
    + vm_compute. intuition discriminate.
    + vm_compute. reflexivity.
    + right. eexists. reflexivity.
    + vm_compute. reflexivity.
Defined.
